(** * nio-transcribe: moment extraction, chunking, caching and clip export

    A shallow embedding of the parts of the repository that turn a
    transcript and free-form model output into validated moment records:

    - [src/extraction.py]   : [parse_moment_response]
    - [src/llm_client.py]   : [extract_moments], [_process_single_chunk],
                              [_process_chunks_parallel]
    - [src/cache_utils.py]  : [get_cached_moments], [save_moments_to_cache],
                              [clear_cache]
    - [src/export_utils.py] : [to_ffmpeg_json], [srt_to_ffmpeg_json]
    - [src/config.py]       : the tunable constants, [initialize_config],
                              [validate_config]

    and of the parts around them that feed them or use what they return:

    - [src/transcript_utils.py] : [seconds_to_timestamp],
                                  [flatten_transcript]
    - [src/cutsheets.py]        : [parse_cut_sheet_response],
                                  [parse_single_cut_sheet_block],
                                  [extract_field_value], [parse_caps_list]
    - [src/clipping.py]         : [cut_from_ffmpeg_json], [cut_video],
                                  [_timestamp_to_seconds],
                                  [_seconds_to_timestamp]

    Python values are modelled as they are at run time: a [str] is a
    sequence of Unicode code points, a [dict] is an insertion-ordered
    association list with unique keys, exceptions are an explicit
    [result] type, the cache directory is a finite map from paths to file
    contents.  What the repository calls but does not own is a parameter:
    the JSON library and [hashlib.md5] are the fields of a [library]
    record, the chat completion endpoint, [uuid.uuid4] and the order in
    which the worker threads complete those of a [world] record, so every
    theorem holds whatever they return.  [print] calls are left out.

    Limits of the model: a finite float is the exact rational it denotes
    (no binary rounding, no overflow to infinity); [int()] and [float()]
    read ASCII digits only; the decoder of the examples has no bound on
    the nesting depth or on the number of digits of an integer. *)

From Stdlib Require Import List ZArith NArith Lia Bool String Ascii QArith Qround Qminmax Permutation.
From Stdlib Require Import DecimalString Sorted.
From Stdlib Require DecimalPos DecimalZ.
From stdpp Require gmap.
Import ListNotations.

Set Warnings "-register-all".
Local Open Scope Z_scope.

(* ===================================================================== *)
(** * Part I: definitions                                                 *)
(* ===================================================================== *)

(** ** Python strings *)

Module Py.

(** A character is a Unicode code point; [len] counts code points. *)
Definition char := N.
Definition str := list char.

Definition lit (s : string) : str :=
  List.map N_of_ascii (list_ascii_of_string s).

(** JSON texts are written with apostrophes standing for the double quote
    (code point 34). *)
Definition jlit (s : string) : str :=
  List.map (fun c => if N.eqb c 39 then 34%N else c) (lit s).

Definition len (s : str) : Z := Z.of_nat (List.length s).

Fixpoint str_eqb (a b : str) : bool :=
  match a, b with
  | [], [] => true
  | x :: a', y :: b' => N.eqb x y && str_eqb a' b'
  | _, _ => false
  end.

(** [str.isspace] on one code point: the set used by [strip()] and by
    [split()] without arguments. *)
Definition isspace (c : char) : bool :=
  ((9 <=? c) && (c <=? 13) || (28 <=? c) && (c <=? 32) || (c =? 133) || (c =? 160)
   || (c =? 5760) || (8192 <=? c) && (c <=? 8202) || (c =? 8232) || (c =? 8233)
   || (c =? 8239) || (c =? 8287) || (c =? 12288))%N.

Fixpoint lstrip (s : str) : str :=
  match s with
  | [] => []
  | c :: r => if isspace c then lstrip r else s
  end.

Definition rstrip (s : str) : str :=
  fold_right (fun c acc =>
                match acc with
                | [] => if isspace c then [] else [c]
                | _ :: _ => c :: acc
                end) [] s.

(** [s.strip()] *)
Definition strip (s : str) : str := rstrip (lstrip s).

(** [s.startswith(p)] *)
Fixpoint startswith (p s : str) : bool :=
  match p, s with
  | [], _ => true
  | x :: p', y :: s' => N.eqb x y && startswith p' s'
  | _ :: _, [] => false
  end.

(** [s.endswith(p)] *)
Definition endswith (p s : str) : bool := startswith (rev p) (rev s).

(** [s.find(c)] for a one-character needle; [None] is Python's [-1]. *)
Fixpoint find (c : char) (s : str) : option nat :=
  match s with
  | [] => None
  | x :: r => if N.eqb x c then Some O
              else match find c r with Some i => Some (S i) | None => None end
  end.

(** [s[i:]] and [s[:-k]] for [k <= len(s)]. *)
Definition slice_from (i : nat) (s : str) : str := skipn i s.
Definition drop_last (k : nat) (s : str) : str := firstn (List.length s - k) s.

(** [s.split()] : maximal runs of non-whitespace characters. *)
Fixpoint split_ws_from (cur : str) (s : str) : list str :=
  match s with
  | [] => match cur with [] => [] | _ :: _ => [rev cur] end
  | c :: r =>
      if isspace c
      then match cur with
           | [] => split_ws_from [] r
           | _ :: _ => rev cur :: split_ws_from [] r
           end
      else split_ws_from (c :: cur) r
  end.
Definition split_ws (s : str) : list str := split_ws_from [] s.

(** [s.split(sep)] for a one-character separator: always at least one
    field. *)
Fixpoint split_on_from (sep : char) (cur : str) (s : str) : list str :=
  match s with
  | [] => [rev cur]
  | c :: r => if N.eqb c sep then rev cur :: split_on_from sep [] r
              else split_on_from sep (c :: cur) r
  end.
Definition split_on (sep : char) (s : str) : list str := split_on_from sep [] s.

(** Line boundaries recognised by [str.splitlines]. *)
Definition islinebreak (c : char) : bool :=
  ((10 <=? c) && (c <=? 13) || (28 <=? c) && (c <=? 30) || (c =? 133)
   || (c =? 8232) || (c =? 8233))%N.

(** [s.splitlines()] : a carriage return followed by a line feed is one
    boundary; a final boundary does not open an empty last line. *)
Fixpoint splitlines_from (cur : str) (s : str) : list str :=
  match s with
  | [] => match cur with [] => [] | _ :: _ => [rev cur] end
  | c :: r =>
      if islinebreak c
      then rev cur ::
           match r with
           | c' :: r' => if N.eqb c 13 && N.eqb c' 10
                         then splitlines_from [] r'
                         else splitlines_from [] r
           | [] => []
           end
      else splitlines_from (c :: cur) r
  end.
Definition splitlines (s : str) : list str := splitlines_from [] s.


(** [sep.join(parts)] *)
Fixpoint join (sep : str) (parts : list str) : str :=
  match parts with
  | [] => []
  | [p] => p
  | p :: rest => p ++ sep ++ join sep rest
  end.

(** [sum(len(l) for l in lines)] *)
Definition total_len (lines : list str) : Z :=
  fold_right (fun l acc => len l + acc) 0 lines.

(** Decimal rendering of an integer, as [str(n)] does. *)
Definition str_of_Z (z : Z) : str :=
  lit (NilEmpty.string_of_int (Z.to_int z)).

Definition isdigit (c : char) : bool := ((48 <=? c) && (c <=? 57))%N.

(** The longest prefix of ASCII digits and what follows it. *)
Fixpoint span_digits (s : str) : str * str :=
  match s with
  | [] => ([], [])
  | c :: r => if isdigit c
              then let '(d, rest) := span_digits r in (c :: d, rest)
              else ([], s)
  end.

Definition Z_of_digits (ds : str) : Z :=
  fold_left (fun acc c => 10 * acc + (Z.of_N c - 48)) ds 0.

(** Digits with single underscores allowed between two digits, as the
    integer and float constructors accept them. *)
Fixpoint digits_us (prev_digit : bool) (s : str) : option str :=
  match s with
  | [] => if prev_digit then Some [] else None
  | c :: r =>
      if isdigit c
      then match digits_us true r with Some d => Some (c :: d) | None => None end
      else if N.eqb c 95 && prev_digit
           then match r with
                | c' :: _ => if isdigit c' then digits_us false r else None
                | [] => None
                end
           else None
  end.

(** Split an optional sign off. *)
Definition take_sign (s : str) : bool * str :=
  match s with
  | c :: r => if N.eqb c 45 then (true, r)
              else if N.eqb c 43 then (false, r) else (false, s)
  | [] => (false, [])
  end.

(** [int(s)] for a string in base ten: surrounding whitespace, an optional
    sign, ASCII digits with optional single underscores (the decimal
    digits of other scripts, which Python reads too, are left out).
    [None] is
    [ValueError]. *)
Definition int_of_str (s : str) : option Z :=
  let '(neg, body) := take_sign (strip s) in
  match body with
  | [] => None
  | _ :: _ =>
      match digits_us false body with
      | Some ds => Some (if neg then - Z_of_digits ds else Z_of_digits ds)
      | None => None
      end
  end.

End Py.

(** ** Exceptions *)

Inductive exn : Type :=
| TypeError
| AttributeError
| ValueError
| OverflowError
| RuntimeError
| OSError
| JSONDecodeError
| LLMError.

Inductive result (A : Type) : Type :=
| Ok (a : A)
| Raise (e : exn).
Arguments Ok {A} a.
Arguments Raise {A} e.

Definition bind {A B : Type} (r : result A) (k : A -> result B) : result B :=
  match r with
  | Ok a => k a
  | Raise e => Raise e
  end.

Notation "x <- r ;; k" := (bind r (fun x => k))
  (at level 89, r at next level, right associativity).

(** [try: r except Exception: handler] *)
Definition try_except {A : Type} (r : result A) (handler : A) : A :=
  match r with
  | Ok a => a
  | Raise _ => handler
  end.

(** ** JSON values as Python objects *)

Module Json.
Import Py.

(** A Python [float]: a finite value (kept as the exact rational it
    denotes; binary rounding is not modelled), an infinity or a NaN. *)
Inductive pyfloat : Type :=
| FFin (q : Q)
| FInf (negative : bool)
| FNaN.

(** What [json.loads] can return.  A [dict] keeps its keys in insertion
    order and holds each key once. *)
Inductive json : Type :=
| JNull
| JBool (b : bool)
| JInt (z : Z)
| JFloat (f : pyfloat)
| JStr (s : str)
| JList (items : list json)
| JDict (fields : list (str * json)).

Definition dict := list (str * json).

(** [bool(v)] *)
Definition truthy (v : json) : bool :=
  match v with
  | JNull => false
  | JBool b => b
  | JInt z => negb (z =? 0)
  | JFloat (FFin q) => negb (Qnum q =? 0)
  | JFloat _ => true
  | JStr s => match s with [] => false | _ :: _ => true end
  | JList l => match l with [] => false | _ :: _ => true end
  | JDict d => match d with [] => false | _ :: _ => true end
  end.

(** [d.get(k)], with [None] for a missing key. *)
Fixpoint lookup_key (k : str) (d : dict) : option json :=
  match d with
  | [] => None
  | (k', v) :: r => if str_eqb k k' then Some v else lookup_key k r
  end.

(** [d.get(k, default)] *)
Definition get (k : str) (default : json) (d : dict) : json :=
  match lookup_key k d with
  | Some v => v
  | None => default
  end.

(** [k in d] *)
Definition contains (k : str) (d : dict) : bool :=
  match lookup_key k d with Some _ => true | None => false end.

(** [d[k] = v] : an existing key keeps its position. *)
Fixpoint set (k : str) (v : json) (d : dict) : dict :=
  match d with
  | [] => [(k, v)]
  | (k', v') :: r => if str_eqb k k' then (k', v) :: r else (k', v') :: set k v r
  end.

(** [d.setdefault(k, v)] as a statement. *)
Definition setdefault (k : str) (v : json) (d : dict) : dict :=
  if contains k d then d else set k v d.

(** The items a [for] loop (or [enumerate]) sees: list elements, the
    characters of a string, the keys of a dict; other values are not
    iterable. *)
Definition iterate (v : json) : result (list json) :=
  match v with
  | JList l => Ok l
  | JStr s => Ok (List.map (fun c => JStr [c]) s)
  | JDict d => Ok (List.map (fun kv => JStr (fst kv)) d)
  | JNull | JBool _ | JInt _ | JFloat _ => Raise TypeError
  end.

(** Truncation toward zero of a rational. *)
Definition Qtrunc (q : Q) : Z := Z.quot (Qnum q) (Zpos (Qden q)).

(** [int(v)] *)
Definition py_int (v : json) : result Z :=
  match v with
  | JInt z => Ok z
  | JBool b => Ok (if b then 1 else 0)
  | JFloat (FFin q) => Ok (Qtrunc q)
  | JFloat (FInf _) => Raise OverflowError
  | JFloat FNaN => Raise ValueError
  | JStr s => match int_of_str s with Some z => Ok z | None => Raise ValueError end
  | JNull | JList _ | JDict _ => Raise TypeError
  end.

(** *** A reference decoder for JSON text

    It follows the grammar of Python's [json] decoder: blanks are space,
    tab, line feed and carriage return; strings are strict (no raw control
    characters); [NaN], [Infinity] and [-Infinity] are accepted; a key
    given twice keeps its first position and its last value; anything
    after the document is an error. *)

Definition json_ws (c : char) : bool :=
  ((c =? 32) || (c =? 9) || (c =? 10) || (c =? 13))%N.

Fixpoint skip_ws (s : str) : str :=
  match s with
  | [] => []
  | c :: r => if json_ws c then skip_ws r else s
  end.

Definition hex_val (c : char) : option N :=
  if ((48 <=? c) && (c <=? 57))%N then Some (c - 48)%N
  else if ((97 <=? c) && (c <=? 102))%N then Some (c - 87)%N
  else if ((65 <=? c) && (c <=? 70))%N then Some (c - 55)%N
  else None.

Definition hex4 (a b c d : char) : option N :=
  match hex_val a, hex_val b, hex_val c, hex_val d with
  | Some x, Some y, Some z, Some w => Some (((x * 16 + y) * 16 + z) * 16 + w)%N
  | _, _, _, _ => None
  end.

Definition simple_escape (c : char) : option char :=
  if (c =? 34)%N then Some 34%N        (* quote *)
  else if (c =? 92)%N then Some 92%N   (* backslash *)
  else if (c =? 47)%N then Some 47%N   (* slash *)
  else if (c =? 98)%N then Some 8%N    (* b *)
  else if (c =? 102)%N then Some 12%N  (* f *)
  else if (c =? 110)%N then Some 10%N  (* n *)
  else if (c =? 114)%N then Some 13%N  (* r *)
  else if (c =? 116)%N then Some 9%N   (* t *)
  else None.

(** The characters after an opening quote, up to the closing one. *)
Fixpoint scan_string (s : str) (acc : str) : option (str * str) :=
  match s with
  | [] => None
  | c :: r =>
      if (c =? 34)%N then Some (rev acc, r)
      else if (c =? 92)%N then
        match r with
        | [] => None
        | e :: r1 =>
            if (e =? 117)%N then
              match r1 with
              | a :: b :: c1 :: d :: r2 =>
                  match hex4 a b c1 d with
                  | None => None
                  | Some u =>
                      if ((55296 <=? u) && (u <=? 56319))%N then
                        match r2 with
                        | bs :: uu :: a' :: b' :: c' :: d' :: r3 =>
                            match hex4 a' b' c' d' with
                            | Some u' =>
                                if ((bs =? 92) && (uu =? 117)
                                    && (56320 <=? u') && (u' <=? 57343))%N
                                then scan_string r3
                                       ((65536 + (u - 55296) * 1024 + (u' - 56320))%N :: acc)
                                else scan_string r2 (u :: acc)
                            | None => scan_string r2 (u :: acc)
                            end
                        | _ => scan_string r2 (u :: acc)
                        end
                      else scan_string r2 (u :: acc)
                  end
              | _ => None
              end
            else
              match simple_escape e with
              | Some x => scan_string r1 (x :: acc)
              | None => None
              end
        end
      else if (c <? 32)%N then None
      else scan_string r (c :: acc)
  end.

(** A number literal: an optional minus sign; an integer part that is a
    single zero or starts with a non-zero digit; an optional fraction (a
    dot and at least one digit); an optional exponent.  Without fraction
    and exponent the literal is an [int], otherwise a [float]. *)
Definition scan_number (s : str) : option (json * str) :=
  let '(neg, s1) := match s with
                    | c :: r => if (c =? 45)%N then (true, r) else (false, s)
                    | [] => (false, [])
                    end in
  let '(ip, s2) := match s1 with
                   | c :: r => if (c =? 48)%N then ([c], r) else span_digits s1
                   | [] => ([], [])
                   end in
  match ip with
  | [] => None
  | _ :: _ =>
      let '(fp, s3) := match s2 with
                       | c :: r =>
                           if (c =? 46)%N
                           then match span_digits r with
                                | ([], _) => ([], s2)
                                | (d, rest) => (d, rest)
                                end
                           else ([], s2)
                       | [] => ([], [])
                       end in
      let '(ex, s4) := match s3 with
                       | c :: r =>
                           if ((c =? 101) || (c =? 69))%N
                           then let '(eneg, r') :=
                                  match r with
                                  | sg :: r1 => if (sg =? 45)%N then (true, r1)
                                                else if (sg =? 43)%N then (false, r1)
                                                else (false, r)
                                  | [] => (false, [])
                                  end in
                                match span_digits r' with
                                | ([], _) => (None, s3)
                                | (d, rest) =>
                                    (Some (if eneg then - Z_of_digits d else Z_of_digits d), rest)
                                end
                           else (None, s3)
                       | [] => (None, [])
                       end in
      match fp, ex with
      | [], None =>
          let n := Z_of_digits ip in
          Some (JInt (if neg then - n else n), s4)
      | _, _ =>
          let mant := Z_of_digits (ip ++ fp) in
          let mant := if neg then - mant else mant in
          let e := match ex with Some e => e | None => 0 end
                   - Z.of_nat (List.length fp) in
          let q := if 0 <=? e
                   then Qmake (mant * 10 ^ e) 1
                   else Qmake mant (Z.to_pos (10 ^ (- e))) in
          Some (JFloat (FFin (Qred q)), s4)
      end
  end.

Definition strip_prefix (p s : str) : option str :=
  if startswith p s then Some (skipn (List.length p) s) else None.

(** [dict(pairs)] *)
Definition dict_of_pairs (pairs : list (str * json)) : dict :=
  fold_left (fun d kv => set (fst kv) (snd kv) d) pairs [].

Fixpoint scan_value (fuel : nat) (s : str) : option (json * str) :=
  match fuel with
  | O => None
  | S f =>
      match s with
      | [] => None
      | c :: r =>
          if (c =? 34)%N then
            match scan_string r [] with
            | Some (x, rest) => Some (JStr x, rest)
            | None => None
            end
          else if (c =? 123)%N then
            match skip_ws r with
            | c' :: r' => if (c' =? 125)%N then Some (JDict [], r')
                          else scan_members f (c' :: r') []
            | [] => None
            end
          else if (c =? 91)%N then
            match skip_ws r with
            | c' :: r' => if (c' =? 93)%N then Some (JList [], r')
                          else scan_items f (c' :: r') []
            | [] => None
            end
          else
            match strip_prefix (lit "null") s with
            | Some rest => Some (JNull, rest)
            | None =>
            match strip_prefix (lit "true") s with
            | Some rest => Some (JBool true, rest)
            | None =>
            match strip_prefix (lit "false") s with
            | Some rest => Some (JBool false, rest)
            | None =>
            match strip_prefix (lit "NaN") s with
            | Some rest => Some (JFloat FNaN, rest)
            | None =>
            match strip_prefix (lit "Infinity") s with
            | Some rest => Some (JFloat (FInf false), rest)
            | None =>
            match strip_prefix (lit "-Infinity") s with
            | Some rest => Some (JFloat (FInf true), rest)
            | None => scan_number s
            end end end end end end
      end
  end

with scan_items (fuel : nat) (s : str) (acc : list json) : option (json * str) :=
  match fuel with
  | O => None
  | S f =>
      match scan_value f s with
      | None => None
      | Some (v, rest) =>
          match skip_ws rest with
          | c :: r =>
              if (c =? 93)%N then Some (JList (rev (v :: acc)), r)
              else if (c =? 44)%N then scan_items f (skip_ws r) (v :: acc)
              else None
          | [] => None
          end
      end
  end

with scan_members (fuel : nat) (s : str) (acc : list (str * json)) : option (json * str) :=
  match fuel with
  | O => None
  | S f =>
      match s with
      | q :: r =>
          if (q =? 34)%N then
            match scan_string r [] with
            | None => None
            | Some (k, rest) =>
                match skip_ws rest with
                | colon :: r1 =>
                    if (colon =? 58)%N then
                      match scan_value f (skip_ws r1) with
                      | None => None
                      | Some (v, rest') =>
                          match skip_ws rest' with
                          | c :: r2 =>
                              if (c =? 125)%N
                              then Some (JDict (dict_of_pairs (rev ((k, v) :: acc))), r2)
                              else if (c =? 44)%N
                                   then scan_members f (skip_ws r2) ((k, v) :: acc)
                                   else None
                          | [] => None
                          end
                      end
                    else None
                | [] => None
                end
            end
          else None
      | [] => None
      end
  end.

(** [json.loads(text)]; [None] is [JSONDecodeError]. *)
Definition loads (text : str) : option json :=
  match scan_value (2 * List.length text + 4) (skip_ws text) with
  | Some (v, rest) => match skip_ws rest with [] => Some v | _ :: _ => None end
  | None => None
  end.

End Json.

(** ** Configuration ([src/config.py]) *)

Module Config.
Import Py.

Record settings : Type := {
  CHARS_PER_CHUNK : Z;
  MAX_MOMENTS_PER_CHUNK : Z;
  MAX_PARALLEL_CHUNKS : Z;
  MOMENT_SAFETY_LIMIT : Z;
  CACHE_ENABLED : bool;
  CACHE_DIR : str
}.

(** The values the module is shipped with. *)
Definition shipped : settings := {|
  CHARS_PER_CHUNK := 9000;
  MAX_MOMENTS_PER_CHUNK := 3;
  MAX_PARALLEL_CHUNKS := 3;
  MOMENT_SAFETY_LIMIT := 5;
  CACHE_ENABLED := true;
  CACHE_DIR := lit ".nio_cache"
|}.

End Config.

(** ** Response parsing and moment normalisation ([src/extraction.py]) *)

Module Extraction.
Import Py Json.

Section Parser.

(** [json.loads], with [None] for [JSONDecodeError]. *)
Variable json_loads : str -> option json.

(** The successive values of [str(uuid.uuid4())[:8]] during one call. *)
Variable ids : nat -> str.

Definition fence : str := lit "```".

Definition strip_code_fences (text : str) : str :=
  let t := strip text in
  let t :=
    if startswith fence t then
      let t := match find 10%N t with
               | Some first_newline => slice_from (S first_newline) t
               | None => t
               end in
      if endswith fence t then drop_last 3 t else t
    else t in
  strip t.

(** Python's [None] is [JNull]: a document that is [null] and a decoding
    error are the same to the caller. *)
Definition try_load_json (candidate : str) : json :=
  match json_loads candidate with
  | Some v => v
  | None => JNull
  end.

(** The longest prefix ending with [close]. *)
Fixpoint upto_last (close : char) (s : str) : option str :=
  match s with
  | [] => None
  | x :: r =>
      match upto_last close r with
      | Some p => Some (x :: p)
      | None => if N.eqb x close then Some [x] else None
      end
  end.

(** [re.search] of an opening character, anything (greedy), a closing
    character: the leftmost start, extended to the last closing
    character. *)
Fixpoint search_span (open close : char) (s : str) : option str :=
  match s with
  | [] => None
  | x :: r =>
      if N.eqb x open
      then match upto_last close r with
           | Some p => Some (x :: p)
           | None => search_span open close r
           end
      else search_span open close r
  end.

(** Steps 2 and 3: direct parse, then the biggest JSON-looking block. *)
Definition load_data (clean_response : str) : json :=
  match try_load_json clean_response with
  | JNull =>
      let obj_match := search_span 123%N 125%N clean_response in
      let list_match := search_span 91%N 93%N clean_response in
      let candidate := match obj_match with
                       | Some m => Some m
                       | None => list_match
                       end in
      match candidate with
      | Some c => try_load_json c
      | None => JNull
      end
  | data => data
  end.

Definition k_moments := lit "moments".
Definition k_quote := lit "quote".
Definition k_timestamps := lit "timestamps".
Definition k_id := lit "id".
Definition k_clip_duration_seconds := lit "clip_duration_seconds".
Definition k_viral_trigger := lit "viral_trigger".
Definition k_why_it_hits := lit "why_it_hits".
Definition k_energy_tag := lit "energy_tag".
Definition k_flags := lit "flags".
Definition k_persona_captions := lit "persona_captions".

Definition persona_keys : list str :=
  [lit "historian"; lit "thomist"; lit "ex_protestant"; lit "meme_catholic";
   lit "old_world_catholic"; lit "catholic"].

(** Step 4: the object the loop iterates over; [None] when the root is
    neither a list nor a dict. *)
Definition select_moments (data : json) : option json :=
  match data with
  | JList _ => Some data
  | JDict d =>
      let moments := get k_moments (JList []) d in
      if negb (truthy moments) && (contains k_quote d || contains k_timestamps d)
      then Some (JList [data])
      else Some moments
  | _ => None
  end.

(** [int(word_count / 2.6) if word_count > 0 else 0].  The quotient is a
    double; for every word count below [2^49] its truncation is the
    integer part of [5 * word_count / 13], which is what is computed
    here. *)
Definition word_based_duration (word_count : Z) : Z :=
  if 0 <? word_count then (5 * word_count) / 13 else 0.

(** [int(llm_duration) if llm_duration else 0] under [try], with 0 on any
    exception. *)
Definition coerce_duration (llm_duration : json) : Z :=
  try_except (if truthy llm_duration then py_int llm_duration else Ok 0) 0.

(** [moment["persona_captions"].setdefault(key, "")] *)
Definition fill_caption (key : str) (moment : dict) : result dict :=
  match get k_persona_captions JNull moment with
  | JDict captions =>
      Ok (set k_persona_captions (JDict (setdefault key (JStr []) captions)) moment)
  | _ => Raise AttributeError
  end.

Fixpoint fill_captions (keys : list str) (moment : dict) : result dict :=
  match keys with
  | [] => Ok moment
  | key :: rest => m <- fill_caption key moment ;; fill_captions rest m
  end.

(** [if not moment.get("timestamps"): moment.setdefault("timestamps", "")] *)
Definition ensure_timestamps (moment : dict) : dict :=
  if negb (truthy (get k_timestamps JNull moment))
  then setdefault k_timestamps (JStr []) moment
  else moment.

(** [len(quote.split()) if quote else 0] : only a string has [split]. *)
Definition count_words (quote : json) : result Z :=
  if truthy quote
  then match quote with
       | JStr q => Ok (Z.of_nat (List.length (split_ws q)))
       | _ => Raise AttributeError
       end
  else Ok 0.

(** The five [setdefault] calls on the moment itself. *)
Definition ensure_optional (moment : dict) : dict :=
  let moment := setdefault k_viral_trigger (JStr []) moment in
  let moment := setdefault k_why_it_hits (JStr []) moment in
  let moment := setdefault k_energy_tag (JStr []) moment in
  let moment := setdefault k_flags (JList []) moment in
  setdefault k_persona_captions (JDict []) moment.

(** The body of the loop for an entry that is a dict: [None] is
    [continue]. *)
Definition enrich_moment (moment : dict) (id : str) : result (option dict) :=
  let moment := set k_id (JStr id) moment in
  if negb (truthy (get k_quote JNull moment)) then Ok None
  else
    let moment := ensure_timestamps moment in
    let quote := get k_quote (JStr []) moment in
    word_count <- count_words quote ;;
    let llm_duration := coerce_duration (get k_clip_duration_seconds (JInt 0) moment) in
    let moment :=
      set k_clip_duration_seconds
          (JInt (Z.max llm_duration (word_based_duration word_count))) moment in
    let moment := ensure_optional moment in
    m <- fill_captions persona_keys moment ;;
    Ok (Some m).

(** Step 5: the loop over the entries; [drawn] counts the identifiers
    already drawn. *)
Fixpoint process_moments (moments : list json) (drawn : nat) : result (list json) :=
  match moments with
  | [] => Ok []
  | JDict d :: rest =>
      r <- enrich_moment d (ids drawn) ;;
      processed <- process_moments rest (S drawn) ;;
      Ok (match r with
          | Some m => JDict m :: processed
          | None => processed
          end)
  | _ :: rest => process_moments rest drawn
  end.

Definition parse_moment_response (response_text : str) : result (list json) :=
  let clean_response := strip_code_fences response_text in
  match load_data clean_response with
  | JNull => Ok []
  | data =>
      match select_moments data with
      | None => Ok []
      | Some moments =>
          items <- iterate moments ;;
          process_moments items 0
      end
  end.

End Parser.

(** *** Vocabulary for the statements about the normaliser *)

(** A caption dict after the six [setdefault] calls. *)
Definition fill_all (keys : list str) (captions : dict) : dict :=
  fold_left (fun pc key => setdefault key (JStr []) pc) keys captions.

(** The default a missing optional field gets. *)
Definition default_of (k : str) : option json :=
  if str_eqb k k_timestamps then Some (JStr [])
  else if str_eqb k k_viral_trigger then Some (JStr [])
  else if str_eqb k k_why_it_hits then Some (JStr [])
  else if str_eqb k k_energy_tag then Some (JStr [])
  else if str_eqb k k_flags then Some (JList [])
  else None.

(** A candidate the loop keeps: a dict whose [quote] is truthy. *)
Definition survives (candidate : json) : bool :=
  match candidate with
  | JDict d => truthy (get k_quote JNull d)
  | _ => false
  end.

(** What an emitted moment has to look like. *)
Definition well_formed_moment (m : json) : Prop :=
  exists d,
    m = JDict d
    /\ (exists q, lookup_key k_quote d = Some (JStr q) /\ q <> [])
    /\ (exists captions,
          lookup_key k_persona_captions d = Some (JDict captions)
          /\ Forall (fun key => contains key captions = true) persona_keys)
    /\ (exists z, lookup_key k_clip_duration_seconds d = Some (JInt z) /\ 0 <= z).

(** An emitted moment comes from a candidate: the candidate is a dict,
    and every field it had, other than the three the normaliser
    rewrites, is still there with the same value. *)
Definition enriched_from (candidate m : json) : Prop :=
  exists d d',
    candidate = JDict d /\ m = JDict d'
    /\ forall k x,
         lookup_key k d = Some x ->
         str_eqb k k_id = false ->
         str_eqb k k_clip_duration_seconds = false ->
         str_eqb k k_persona_captions = false ->
         lookup_key k d' = Some x.





End Extraction.

(** ** What the repository calls but does not define *)

Module Runtime.
Import Py Json.

(** Pure library functions. *)
Record library : Type := {
  (** [json.loads]; [None] is [JSONDecodeError] *)
  json_loads : str -> option json;
  (** [json.dumps(obj, indent=2, ensure_ascii=False)] *)
  json_dumps : json -> str;
  (** [hashlib.md5(text.encode('utf-8')).hexdigest()] *)
  md5_hexdigest : str -> str;
  (** [str(v)] for a value that is neither a string nor an integer *)
  repr : json -> str
}.

(** A chunk with its 1-based index and the number of chunks. *)
Definition chunk_data : Type := (str * nat * nat)%type.

(** The environment of one call of [extract_moments]: the chat completion
    endpoint (which may fail), the identifiers [uuid.uuid4] yields while
    chunk [idx] is parsed, and the order in which the worker threads
    complete, some permutation of the order of submission. *)
Record world : Type := {
  call_llm_with_system : str -> str -> result str;
  uuid4_hex8 : nat -> nat -> str;
  as_completed : list chunk_data -> list chunk_data;
  as_completed_perm : forall futures, Permutation (as_completed futures) futures
}.

End Runtime.

(** ** The file cache ([src/cache_utils.py]) *)

Module CacheUtils.
Import Py Json Config Runtime.
Import stdpp.gmap.

(** The part of the file system the cache touches: whether the cache
    directory exists, the files by path, and whether the location accepts
    writes (when it does not, creating the directory or opening a file for
    writing raises [OSError]). *)
Record disk : Type := {
  dir_exists : bool;
  files : gmap (list N) (list N);
  writable : bool
}.

Definition with_dir (d : disk) : disk :=
  {| dir_exists := true; files := files d; writable := writable d |}.

Definition write_file (path content : str) (d : disk) : disk :=
  {| dir_exists := dir_exists d;
     files := <[path := content]> (files d);
     writable := writable d |}.

(** [os.path.join(a, b)] *)
Definition path_join (a b : str) : str :=
  if startswith (lit "/") b then b
  else match a with
       | [] => b
       | _ :: _ => if endswith (lit "/") a then a ++ b else a ++ lit "/" ++ b
       end.

(** What an f-string puts for a value. *)
Definition format_value (lib : library) (v : json) : str :=
  match v with
  | JStr s => s
  | JInt z => str_of_Z z
  | _ => repr lib v
  end.

Section Cache.

Variable cfg : settings.
Variable lib : library.

Definition _get_cache_dir (d : disk) : result (str * disk) :=
  let cache_dir := CACHE_DIR cfg in
  if dir_exists d then Ok (cache_dir, d)
  else if writable d then Ok (cache_dir, with_dir d)
       else Raise OSError.

Definition _build_cache_key (transcript_text : str) (video_metadata : option dict) : str :=
  let transcript_key := lit "transcript_" ++ md5_hexdigest lib transcript_text in
  match video_metadata with
  | Some ((_ :: _) as md) =>
      let video_id := get (lit "video_id") (JStr []) md in
      let language := get (lit "language") (JStr (lit "en")) md in
      if truthy video_id
      then lit "video_" ++ format_value lib video_id ++ lit "_" ++ format_value lib language
      else transcript_key
  | _ => transcript_key
  end.

Definition _get_cache_path (cache_key : str) (d : disk) : result (str * disk) :=
  r <- _get_cache_dir d ;;
  let '(cache_dir, d') := r in
  Ok (path_join cache_dir (cache_key ++ lit ".json"), d').

(** Reading and validating the file at [cache_path]: [None] when it does
    not exist, when it does not decode, or when the document has not the
    expected structure. *)
Definition read_entry (d : disk) (cache_path : str) : option (list json) :=
  match files d !! cache_path with
  | None => None
  | Some content =>
      match json_loads lib content with
      | None => None
      | Some (JDict cached_data) =>
          match lookup_key (lit "moments") cached_data with
          | Some (JList moments) => Some moments
          | Some _ => None
          | None => None
          end
      | Some _ => None
      end
  end.

(** The lookup and the state of the disk after it; every exception inside
    the [try] block gives [None]. *)
Definition get_cached_moments (d : disk) (transcript_text : str)
    (video_metadata : option dict) : option (list json) * disk :=
  if negb (CACHE_ENABLED cfg) then (None, d)
  else
    let cache_key := _build_cache_key transcript_text video_metadata in
    match _get_cache_path cache_key d with
    | Raise _ => (None, d)
    | Ok (cache_path, d') => (read_entry d' cache_path, d')
    end.

Definition cache_document (cache_key : str) (moments : list json) : json :=
  JDict [(lit "cache_key", JStr cache_key);
         (lit "moments_count", JInt (Z.of_nat (List.length moments)));
         (lit "moments", JList moments)].

Definition save_moments_to_cache (d : disk) (moments : list json)
    (transcript_text : str) (video_metadata : option dict) : disk :=
  if negb (CACHE_ENABLED cfg) then d
  else
    let cache_key := _build_cache_key transcript_text video_metadata in
    match _get_cache_path cache_key d with
    | Raise _ => d
    | Ok (cache_path, d') =>
        if writable d'
        then write_file cache_path (json_dumps lib (cache_document cache_key moments)) d'
        else d'
    end.

(** The file a lookup or a store with this key material goes to. *)
Definition cache_file (transcript_text : str) (video_metadata : option dict) : str :=
  path_join (CACHE_DIR cfg)
            (_build_cache_key transcript_text video_metadata ++ lit ".json").


End Cache.

End CacheUtils.

(** ** Chunking and orchestration ([src/llm_client.py]) *)

Module LlmClient.
Import Py Json Config Runtime CacheUtils.

Definition nl : str := [10%N].

Section Client.

Variable cfg : settings.
Variable lib : library.

(** The instruction text sent with every chunk (an opaque constant). *)
Variable SYSTEM_PROMPT : str.

Definition build_prompt_for_chunk (transcript_chunk : str) (chunk_index total_chunks : nat) : str :=
  let header :=
    lit "Chunk " ++ str_of_Z (Z.of_nat chunk_index) ++ lit " of "
    ++ str_of_Z (Z.of_nat total_chunks)
    ++ lit ". The text below is a continuous portion of a longer talk." ++ nl in
  let instructions :=
    lit "Find at most " ++ str_of_Z (MAX_MOMENTS_PER_CHUNK cfg)
    ++ lit " of the strongest viral clip moments ONLY from this chunk." ++ nl
    ++ lit "Return them in the JSON format described in the system prompt." ++ nl
    ++ lit "Transcript chunk:" ++ nl in
  header ++ instructions ++ transcript_chunk.

(** The chunking loop of [extract_moments]: [chunks] and [current] are
    the two accumulators of the source. *)
Fixpoint chunk_loop (max_chunk_chars : Z) (lines : list str)
    (chunks : list str) (current : list str) : list str :=
  match lines with
  | [] =>
      match current with
      | [] => chunks
      | _ :: _ => chunks ++ [join nl current]
      end
  | line :: rest =>
      if total_len current + len line + 1 >? max_chunk_chars
      then match current with
           | _ :: _ => chunk_loop max_chunk_chars rest (chunks ++ [join nl current]) [line]
           | [] => chunk_loop max_chunk_chars rest chunks (current ++ [line])
           end
      else chunk_loop max_chunk_chars rest chunks (current ++ [line])
  end.

Definition chunk_transcript (transcript : str) : list str :=
  chunk_loop (CHARS_PER_CHUNK cfg) (splitlines transcript) [] [].

(** The same loop, keeping each flushed [current] as the list of lines it
    is instead of joining it: the lines behind each chunk. *)
Fixpoint group_loop (max_chunk_chars : Z) (lines : list str)
    (current : list str) : list (list str) :=
  match lines with
  | [] =>
      match current with
      | [] => []
      | _ :: _ => [current]
      end
  | line :: rest =>
      if total_len current + len line + 1 >? max_chunk_chars
      then match current with
           | _ :: _ => current :: group_loop max_chunk_chars rest [line]
           | [] => group_loop max_chunk_chars rest (current ++ [line])
           end
      else group_loop max_chunk_chars rest (current ++ [line])
  end.


Section Call.

Variable w : world.

(** [items[:k]] : a negative [k] counts from the end. *)
Definition prefix (k : Z) (items : list json) : list json :=
  if 0 <=? k then firstn (Z.to_nat k) items
  else firstn (List.length items - Z.to_nat (- k)) items.

(** The body of the [try] block of [_process_single_chunk]. *)
Definition chunk_attempt (data : chunk_data) : result (list json) :=
  let '(chunk, idx, total_chunks) := data in
  let user_prompt := build_prompt_for_chunk chunk idx total_chunks in
  raw_response <- call_llm_with_system w SYSTEM_PROMPT user_prompt ;;
  moments <- Extraction.parse_moment_response (json_loads lib) (uuid4_hex8 w idx)
               raw_response ;;
  let moments :=
    if Z.of_nat (List.length moments) >? MOMENT_SAFETY_LIMIT cfg
    then prefix (MOMENT_SAFETY_LIMIT cfg) moments
    else moments in
  Ok moments.

(** [except Exception: return []] *)
Definition _process_single_chunk (data : chunk_data) : list json :=
  try_except (chunk_attempt data) [].

(** [enumerate(chunks, start=1)] paired with the number of chunks. *)
Fixpoint enumerate_chunks (chunks : list str) (idx total_chunks : nat) : list chunk_data :=
  match chunks with
  | [] => []
  | chunk :: rest => (chunk, idx, total_chunks) :: enumerate_chunks rest (S idx) total_chunks
  end.

(** The worker pool refuses a bound that is not positive
    ([ValueError]); otherwise the results are collected in the order of
    completion. *)
Definition _process_chunks_parallel (chunks : list str) : result (list json) :=
  let total_chunks := List.length chunks in
  let chunk_data := enumerate_chunks chunks 1 total_chunks in
  if MAX_PARALLEL_CHUNKS cfg <=? 0 then Raise ValueError
  else
    Ok (fold_left
          (fun all_moments data =>
             match _process_single_chunk data with
             | [] => all_moments
             | chunk_moments => all_moments ++ chunk_moments
             end)
          (as_completed w chunk_data) []).

(** The result and the state of the disk after the call. *)
Definition extract_moments (d : disk) (transcript : str)
    (video_metadata : option dict) : result (list json) * disk :=
  let transcript := strip transcript in
  match transcript with
  | [] => (Raise RuntimeError, d)
  | _ :: _ =>
      match get_cached_moments cfg lib d transcript video_metadata with
      | (Some cached_moments, d1) => (Ok cached_moments, d1)
      | (None, d1) =>
          let chunks := chunk_transcript transcript in
          match _process_chunks_parallel chunks with
          | Raise e => (Raise e, d1)
          | Ok [] => (Ok [], d1)
          | Ok all_moments =>
              (Ok all_moments,
               save_moments_to_cache cfg lib d1 all_moments transcript video_metadata)
          end
      end
  end.

End Call.
End Client.

End LlmClient.

(** ** Clip hand-off ([src/export_utils.py]) *)

Module ExportUtils.
Import Py Json Runtime.

(** *** Floats and their text forms

    Seconds are Python floats.  A finite one is the exact rational it
    denotes: the rounding of IEEE doubles is not modelled, so the model
    agrees with the code wherever no value falls between two doubles in a
    way that changes a rounded digit (in particular on timestamps with at
    most two fractional digits), and magnitudes beyond the range of a
    double are out of its scope. *)

Definition lower (c : char) : char :=
  if ((65 <=? c) && (c <=? 90))%N then (c + 32)%N else c.

Fixpoint span_digits_us (s : str) : str * str :=
  match s with
  | [] => ([], [])
  | c :: r => if isdigit c || N.eqb c 95
              then let '(d, rest) := span_digits_us r in (c :: d, rest)
              else ([], s)
  end.

(** An optional digit group: absent, or well-formed. *)
Definition digit_group (raw : str) : option str :=
  match raw with
  | [] => Some []
  | _ :: _ => digits_us false raw
  end.

(** [float(s)]; [None] is [ValueError]. *)
Definition float_of_str (s : str) : option pyfloat :=
  let '(neg, body) := take_sign (strip s) in
  let low := List.map lower body in
  if str_eqb low (lit "inf") || str_eqb low (lit "infinity") then Some (FInf neg)
  else if str_eqb low (lit "nan") then Some FNaN
  else
    let '(ip_raw, r1) := span_digits_us body in
    let '(fp_raw, r2) :=
      match r1 with
      | c :: r => if N.eqb c 46 then span_digits_us r else ([], r1)
      | [] => ([], [])
      end in
    let exponent :=
      match r2 with
      | [] => Some 0
      | c :: r =>
          if N.eqb (lower c) 101
          then let '(eneg, digits) := take_sign r in
               match digits with
               | [] => None
               | _ :: _ =>
                   match digits_us false digits with
                   | Some ds => Some (if eneg then - Z_of_digits ds else Z_of_digits ds)
                   | None => None
                   end
               end
          else None
      end in
    match digit_group ip_raw, digit_group fp_raw, exponent with
    | Some ip, Some fp, Some ex =>
        match ip ++ fp with
        | [] => None
        | _ :: _ =>
            let mant := Z_of_digits (ip ++ fp) in
            let mant := if neg then - mant else mant in
            let e := ex - Z.of_nat (List.length fp) in
            Some (FFin (Qred (if 0 <=? e
                              then Qmake (mant * 10 ^ e) 1
                              else Qmake mant (Z.to_pos (10 ^ (- e))))))
        end
    | _, _, _ => None
    end.

Definition float_of_Z (z : Z) : pyfloat := FFin (inject_Z z).

(** [a + b] on floats *)
Definition fadd (a b : pyfloat) : pyfloat :=
  match a, b with
  | FNaN, _ | _, FNaN => FNaN
  | FInf x, FInf y => if Bool.eqb x y then FInf x else FNaN
  | FInf x, FFin _ | FFin _, FInf x => FInf x
  | FFin p, FFin q => FFin (Qred (p + q))
  end.

(** [f"{n:02d}"] *)
Definition format_02d (n : Z) : str :=
  if (0 <=? n) && (n <? 10) then lit "0" ++ str_of_Z n else str_of_Z n.

(** The nearest integer to [q * 100], ties to even. *)
Definition round_hundredths (q : Q) : Z :=
  let a := Qnum q * 100 in
  let b := Zpos (Qden q) in
  let fl := a / b in
  let r := a mod b in
  match 2 * r ?= b with
  | Lt => fl
  | Gt => fl + 1
  | Eq => if Z.even fl then fl else fl + 1
  end.

(** [f"{s:05.2f}"] : two decimals, zero-padded to five characters, the
    sign first. *)
Definition format_05_2f (s : pyfloat) : str :=
  match s with
  | FNaN => lit "00nan"
  | FInf false => lit "00inf"
  | FInf true => lit "-0inf"
  | FFin q =>
      let n := Z.abs (round_hundredths q) in
      let whole := n / 100 in
      let cents := n mod 100 in
      let digits := str_of_Z whole ++ lit "." ++ format_02d cents in
      if Qnum q <? 0 then lit "-" ++ digits
      else if whole <? 10 then lit "0" ++ digits else digits
  end.

Definition colon : str := lit ":".

(** Accepts [MM:SS.xx] or [HH:MM:SS.xx], returns [HH:MM:SS.xx]; anything
    else is returned as it is. *)
Definition normalize_timestamp (ts : str) : str :=
  let parts := split_on 58%N (strip ts) in
  let fields :=
    match parts with
    | [m; s] => Some (Some 0, int_of_str m, float_of_str s)
    | [h; m; s] => Some (int_of_str h, int_of_str m, float_of_str s)
    | _ => None
    end in
  match fields with
  | Some (Some h, Some m, Some s) =>
      format_02d h ++ colon ++ format_02d m ++ colon ++ format_05_2f s
  | _ => ts
  end.

(** Seconds of a timestamp, [0.0] when it cannot be read. *)
Definition timestamp_to_seconds (ts : str) : pyfloat :=
  let parts := split_on 58%N (strip ts) in
  match parts with
  | [m; s] =>
      match int_of_str m, float_of_str s with
      | Some m', Some s' => fadd (float_of_Z (m' * 60)) s'
      | _, _ => float_of_Z 0
      end
  | [h; m; s] =>
      match int_of_str h, int_of_str m, float_of_str s with
      | Some h', Some m', Some s' => fadd (float_of_Z (h' * 3600 + m' * 60)) s'
      | _, _, _ => float_of_Z 0
      end
  | _ => float_of_Z 0
  end.

(** [HH:MM:SS.xx] of a number of seconds; [int()] of a NaN or of an
    infinity raises. *)
Definition seconds_to_timestamp (secs : pyfloat) : result str :=
  match secs with
  | FFin q =>
      let h := Qfloor (q / 3600) in
      let rem := (q - inject_Z (3600 * h))%Q in
      let m := Qfloor (rem / 60) in
      let s := (q - inject_Z (60 * Qfloor (q / 60)))%Q in
      Ok (format_02d h ++ colon ++ format_02d m ++ colon ++ format_05_2f (FFin (Qred s)))
  | FInf _ => Raise ValueError
  | FNaN => Raise ValueError
  end.

(** *** The timestamp range of a moment *)

Definition range_char (c : char) : bool :=
  isdigit c || N.eqb c 58 || N.eqb c 46.

Fixpoint span_range (s : str) : str * str :=
  match s with
  | [] => ([], [])
  | c :: r => if range_char c
              then let '(g, rest) := span_range r in (c :: g, rest)
              else ([], s)
  end.

(** [re.match] of digits-colons-dots, a hyphen or an en dash (code point
    8211), digits-colons-dots, at the start of the text: the two
    groups. *)
Definition match_range (timestamps : str) : option (str * str) :=
  match span_range timestamps with
  | ((_ :: _) as start_raw, dash :: after) =>
      if N.eqb dash 45 || N.eqb dash 8211
      then match span_range after with
           | ((_ :: _) as end_raw, _) => Some (start_raw, end_raw)
           | ([], _) => None
           end
      else None
  | _ => None
  end.

(** [v.strip()] for a value that has to be a string. *)
Definition strip_value (v : json) : result str :=
  match v with
  | JStr s => Ok (strip s)
  | _ => Raise AttributeError
  end.

(** [x or default] *)
Definition or_else (x default : json) : json := if truthy x then x else default.

(** [not clip_duration or clip_duration <= 0] : [Ok None] when the test
    holds, [Ok (Some d)] with the duration as a float when it does not;
    comparing a string or a container with 0 raises. *)
Definition usable_duration (clip_duration : json) : result (option pyfloat) :=
  if negb (truthy clip_duration) then Ok None
  else match clip_duration with
       | JInt z => Ok (if z <=? 0 then None else Some (float_of_Z z))
       | JBool b => Ok (Some (float_of_Z 1))
       | JFloat (FFin q) => Ok (if Qle_bool q 0 then None else Some (FFin q))
       | JFloat (FInf true) => Ok None
       | JFloat f => Ok (Some f)
       | _ => Raise TypeError
       end.

Definition buffer : pyfloat := float_of_Z 4.

Definition k_editor_cut_sheet := lit "editor_cut_sheet".
Definition k_clip_label := lit "clip_label".
Definition k_in_point := lit "in_point".
Definition k_out_point := lit "out_point".
Definition k_timestamps := lit "timestamps".
Definition k_clip_duration_seconds := lit "clip_duration_seconds".

Definition clip_record (idx : nat) (label : json) (start_ts end_ts : str) : json :=
  JDict [(lit "index", JInt (Z.of_nat idx)); (lit "label", label);
         (lit "start", JStr start_ts); (lit "end", JStr end_ts)].

(** The body of the loop; [Ok None] is [continue]. *)
Definition clip_of_moment (idx : nat) (moment : dict) : result (option json) :=
  match or_else (get k_editor_cut_sheet JNull moment) (JDict []) with
  | JDict cut_sheet =>
      let label := or_else (get k_clip_label JNull cut_sheet)
                           (JStr (lit "CLIP_" ++ str_of_Z (Z.of_nat idx))) in
      in_point <- strip_value (get k_in_point (JStr []) cut_sheet) ;;
      start <-
        match in_point with
        | _ :: _ => Ok (Some in_point)
        | [] =>
            timestamps <- strip_value (or_else (get k_timestamps JNull moment) (JStr [])) ;;
            Ok (match match_range timestamps with
                | Some (start_raw, _) => Some start_raw
                | None => None
                end)
        end ;;
      match start with
      | None => Ok None
      | Some start_raw =>
          let start_sec := timestamp_to_seconds (normalize_timestamp start_raw) in
          duration <- usable_duration (get k_clip_duration_seconds JNull moment) ;;
          end_opt <-
            match duration with
            | None =>
                out_point <- strip_value (get k_out_point (JStr []) cut_sheet) ;;
                match out_point with
                | _ :: _ =>
                    Ok (Some (timestamp_to_seconds (normalize_timestamp out_point)))
                | [] =>
                    timestamps <- strip_value (or_else (get k_timestamps JNull moment)
                                                       (JStr [])) ;;
                    Ok (match match_range timestamps with
                        | Some (_, end_raw) =>
                            Some (timestamp_to_seconds (normalize_timestamp end_raw))
                        | None => None
                        end)
                end
            | Some clip_duration =>
                Ok (Some (fadd (fadd start_sec clip_duration) buffer))
            end ;;
          match end_opt with
          | None => Ok None
          | Some end_sec =>
              start_ts <- seconds_to_timestamp start_sec ;;
              end_ts <- seconds_to_timestamp end_sec ;;
              Ok (Some (clip_record idx label start_ts end_ts))
          end
      end
  | _ => Raise AttributeError
  end.

(** [for idx, moment in enumerate(moments_with_cuts, 1)] *)
Fixpoint clips_from (idx : nat) (moments : list dict) : result (list json) :=
  match moments with
  | [] => Ok []
  | moment :: rest =>
      clip <- clip_of_moment idx moment ;;
      clips <- clips_from (S idx) rest ;;
      Ok (match clip with
          | Some c => c :: clips
          | None => clips
          end)
  end.

Definition ffmpeg_clips (moments_with_cuts : list dict) : result (list json) :=
  clips_from 1 moments_with_cuts.

Definition to_ffmpeg_json (lib : library) (moments_with_cuts : list dict) : result str :=
  clips <- ffmpeg_clips moments_with_cuts ;;
  Ok (json_dumps lib (JList clips)).

(** *** The hand-off as the specification words it

    A moment is read through typed views: a field that has not the
    expected type reads as absent (the loop raises on such a moment, so
    the views are only compared with it where it returns). *)

Definition cut_sheet_of (moment : dict) : dict :=
  match or_else (get k_editor_cut_sheet JNull moment) (JDict []) with
  | JDict cut_sheet => cut_sheet
  | _ => []
  end.

Definition text_field (k : str) (d : dict) : str :=
  match get k (JStr []) d with
  | JStr s => strip s
  | _ => []
  end.

(** The two ends of the raw timestamp range, when it reads as a range. *)
Definition range_of (moment : dict) : option (str * str) :=
  match or_else (get k_timestamps JNull moment) (JStr []) with
  | JStr s => match_range (strip s)
  | _ => None
  end.

Definition seconds_of (raw : str) : pyfloat :=
  timestamp_to_seconds (normalize_timestamp raw).

(** The cut-sheet in-point when present, otherwise the start of the raw
    range. *)
Definition start_source (moment : dict) : option str :=
  match text_field k_in_point (cut_sheet_of moment) with
  | (_ :: _) as in_point => Some in_point
  | [] => option_map fst (range_of moment)
  end.

(** A positive duration, when one is known. *)
Definition known_duration (moment : dict) : option pyfloat :=
  match usable_duration (get k_clip_duration_seconds JNull moment) with
  | Ok (Some duration) => Some duration
  | _ => None
  end.

(** Start plus duration plus the buffer when a positive duration is
    known, otherwise the out-point, otherwise the end of the raw range. *)
Definition end_seconds (moment : dict) (start_sec : pyfloat) : option pyfloat :=
  match known_duration moment with
  | Some duration => Some (fadd (fadd start_sec duration) buffer)
  | None =>
      match text_field k_out_point (cut_sheet_of moment) with
      | (_ :: _) as out_point => Some (seconds_of out_point)
      | [] => option_map (fun r => seconds_of (snd r)) (range_of moment)
      end
  end.

Definition label_of (position : nat) (moment : dict) : json :=
  or_else (get k_clip_label JNull (cut_sheet_of moment))
          (JStr (lit "CLIP_" ++ str_of_Z (Z.of_nat position))).



Definition index_of (clip : json) : option json :=
  match clip with
  | JDict d => lookup_key (lit "index") d
  | _ => None
  end.

Definition is_finite (f : pyfloat) : Prop :=
  match f with
  | FFin _ => True
  | _ => False
  end.

(** A moment the loop does not raise on: the cut sheet is a dict or
    falsy, the in-point, the out-point and the timestamps are strings (or
    absent, or falsy for the timestamps), the duration compares with 0,
    and the times are finite. *)
Definition export_ready (moment : dict) : Prop :=
  (exists cut_sheet,
      or_else (get k_editor_cut_sheet JNull moment) (JDict []) = JDict cut_sheet
      /\ (exists s, get k_in_point (JStr []) cut_sheet = JStr s)
      /\ (exists s, get k_out_point (JStr []) cut_sheet = JStr s))
  /\ (exists s, or_else (get k_timestamps JNull moment) (JStr []) = JStr s)
  /\ (exists r, usable_duration (get k_clip_duration_seconds JNull moment) = Ok r)
  /\ match start_source moment with
     | Some start_raw =>
         is_finite (seconds_of start_raw)
         /\ match end_seconds moment (seconds_of start_raw) with
            | Some end_sec => is_finite end_sec
            | None => True
            end
     | None => True
     end.

End ExportUtils.

(** ** Vocabulary for further statements about moments *)

Module Moments.
Import Py Json Extraction.


(** A moment with its [id] replaced. *)
Definition with_id (id : str) (m : json) : json :=
  match m with
  | JDict d => JDict (set k_id (JStr id) d)
  | _ => m
  end.

End Moments.

(** ** Clearing the cache ([src/cache_utils.py], [clear_cache]) *)

Module CacheClear.
Import Py Json Config Runtime CacheUtils.
Import stdpp.gmap.

(** The name a path has inside a directory, when the path is
    [os.path.join(directory, name)] for a name without a slash. *)
Definition entry_name (directory path : str) : option str :=
  let stem :=
    match directory with
    | [] => []
    | _ :: _ => if endswith (lit "/") directory then directory
                else directory ++ lit "/"
    end in
  if startswith stem path
  then let name := skipn (List.length stem) path in
       match name with
       | [] => None
       | _ :: _ => if forallb (fun c => negb (N.eqb c 47)) name then Some name else None
       end
  else None.

(** The files [os.listdir] shows whose name ends in [.json]. *)
Definition is_cache_entry (directory path : str) : bool :=
  match entry_name directory path with
  | Some name => endswith (lit ".json") name
  | None => false
  end.

Section Clear.

Variable cfg : settings.

(** Every listed file is removed; on a location that refuses writes the
    first removal raises, the exception is swallowed and nothing has
    been removed.  The directory is taken to hold plain files only. *)
Definition clear_cache (d : disk) : disk :=
  match _get_cache_dir cfg d with
  | Raise _ => d
  | Ok (cache_dir, d') =>
      if writable d'
      then {| dir_exists := dir_exists d';
              files := filter (fun kv => is_cache_entry cache_dir (fst kv) = false)
                              (files d');
              writable := writable d' |}
      else d'
  end.

End Clear.

End CacheClear.

(** ** Subtitle timings ([src/export_utils.py], [srt_to_ffmpeg_json]) *)

Module SrtExport.
Import Py Json.

Definition and_then {A B : Type} (o : option A) (k : A -> option B) : option B :=
  match o with
  | Some a => k a
  | None => None
  end.

Section Srt.

(** [\d] : a decimal digit of any script. *)
Variable is_decimal : char -> bool.

(** [json.dumps(obj, indent=2)] *)
Variable json_dumps : json -> str.

(** [\d{n}] at the start of the text: the digits and what follows. *)
Fixpoint take_decimals (n : nat) (s : str) : option (str * str) :=
  match n with
  | O => Some ([], s)
  | S n' =>
      match s with
      | c :: r =>
          if is_decimal c
          then and_then (take_decimals n' r) (fun dr => Some (c :: fst dr, snd dr))
          else None
      | [] => None
      end
  end.

(** One literal character. *)
Definition expect (c : char) (s : str) : option str :=
  match s with
  | x :: r => if N.eqb x c then Some r else None
  | [] => None
  end.

(** [\s*] before [next]: the longest run of blanks is tried first, then
    the shorter ones. *)
Fixpoint blanks_then {A : Type} (next : str -> option A) (s : str) : option A :=
  match s with
  | c :: r =>
      if isspace c
      then match blanks_then next r with
           | Some x => Some x
           | None => next s
           end
      else next s
  | [] => next s
  end.

(** The four groups of one clock time. *)
Definition clock_groups : Type := (str * str * str * str)%type.

(** Two digits, a colon, two digits, a colon, two digits, a comma, three
    digits. *)
Definition clock (s : str) : option (clock_groups * str) :=
  and_then (take_decimals 2 s) (fun '(h, r) =>
  and_then (expect 58%N r) (fun r =>
  and_then (take_decimals 2 r) (fun '(m, r) =>
  and_then (expect 58%N r) (fun r =>
  and_then (take_decimals 2 r) (fun '(sec, r) =>
  and_then (expect 44%N r) (fun r =>
  and_then (take_decimals 3 r) (fun '(ms, r) =>
  Some ((h, m, sec, ms), r)))))))).

(** The whole pattern at the start of the text: a clock time, blanks,
    an arrow, blanks, a clock time. *)
Definition timing_at (s : str) : option (clock_groups * clock_groups) :=
  and_then (clock s) (fun '(start, r) =>
  blanks_then (fun r =>
    and_then (expect 45%N r) (fun r =>
    and_then (expect 45%N r) (fun r =>
    and_then (expect 62%N r) (fun r =>
    blanks_then (fun r =>
      and_then (clock r) (fun '(finish, _) => Some (start, finish))) r)))) r).

(** [ts_re.search(line)] : the leftmost place where the pattern
    matches. *)
Fixpoint search_timing (line : str) : option (clock_groups * clock_groups) :=
  match timing_at line with
  | Some groups => Some groups
  | None =>
      match line with
      | [] => None
      | _ :: rest => search_timing rest
      end
  end.

(** [f"{h}:{m}:{s}.{ms}"] *)
Definition clock_text (g : clock_groups) : str :=
  let '(h, m, s, ms) := g in
  h ++ lit ":" ++ m ++ lit ":" ++ s ++ lit "." ++ ms.

Definition srt_clip (idx : Z) (start finish : clock_groups) : json :=
  JDict [(lit "index", JInt idx);
         (lit "label", JStr (lit "SRT_CLIP_" ++ str_of_Z idx));
         (lit "start", JStr (clock_text start));
         (lit "end", JStr (clock_text finish))].

(** The loop over the lines; [idx] is the counter of the source. *)
Fixpoint clips_of_lines (idx : Z) (lines : list str) : list json :=
  match lines with
  | [] => []
  | line :: rest =>
      match search_timing line with
      | None => clips_of_lines idx rest
      | Some (start, finish) =>
          let idx := idx + 1 in
          srt_clip idx start finish :: clips_of_lines idx rest
      end
  end.

Definition srt_clips (srt_text : str) : list json :=
  clips_of_lines 0 (splitlines srt_text).

Definition srt_to_ffmpeg_json (srt_text : str) : str :=
  json_dumps (JList (srt_clips srt_text)).

End Srt.


(** The [label] of a record. *)
Definition label_of (clip : json) : option json :=
  match clip with
  | JDict d => lookup_key (lit "label") d
  | _ => None
  end.

(** Whether a line holds a timing. *)
Definition has_timing (is_decimal : char -> bool) (line : str) : bool :=
  match search_timing is_decimal line with
  | Some _ => true
  | None => false
  end.

End SrtExport.

(** ** Cutting the clips ([src/clipping.py])

    Seconds are finite floats throughout this module, kept as the exact
    rationals they denote.  [\d] and [int()] read ASCII digits. *)

Module Clipping.
Import Py Json.

(** [(\d+)] at the start of the text: the digits and what follows. *)
Definition digits1 (s : str) : option (str * str) :=
  match span_digits s with
  | ([], _) => None
  | (c :: ds, rest) => Some (c :: ds, rest)
  end.

(** [(\d+):(\d+)] : the two groups and what follows. *)
Definition two_fields (s : str) : option (str * str * str) :=
  match digits1 s with
  | Some (a, c :: r) =>
      if N.eqb c 58
      then match digits1 r with
           | Some (b, rest) => Some (a, b, rest)
           | None => None
           end
      else None
  | _ => None
  end.

(** [[.,](\d+)] *)
Definition fraction (s : str) : option str :=
  match s with
  | c :: r =>
      if N.eqb c 46 || N.eqb c 44
      then match digits1 r with
           | Some (ds, _) => Some ds
           | None => None
           end
      else None
  | [] => None
  end.

(** [re.match] of an optional hours group, minutes, seconds, a point or
    a comma and a fraction; the four groups, the hours being ["0"] when
    their group did not take part.  The match with the hours group is
    tried first. *)
Definition match_with_fraction (ts : str) : option (str * str * str * str) :=
  match two_fields ts with
  | Some (a, b, rest) =>
      let with_hours :=
        match rest with
        | c :: r =>
            if N.eqb c 58
            then match digits1 r with
                 | Some (s, r') =>
                     match fraction r' with
                     | Some ms => Some (a, b, s, ms)
                     | None => None
                     end
                 | None => None
                 end
            else None
        | [] => None
        end in
      match with_hours with
      | Some groups => Some groups
      | None =>
          match fraction rest with
          | Some ms => Some (lit "0", a, b, ms)
          | None => None
          end
      end
  | None => None
  end.

(** The fallback pattern, without the fraction. *)
Definition match_without_fraction (ts : str) : option (str * str * str) :=
  match two_fields ts with
  | Some (a, b, rest) =>
      let with_hours :=
        match rest with
        | c :: r =>
            if N.eqb c 58
            then match digits1 r with
                 | Some (s, _) => Some (a, b, s)
                 | None => None
                 end
            else None
        | [] => None
        end in
      match with_hours with
      | Some groups => Some groups
      | None => Some (lit "0", a, b)
      end
  | None => None
  end.

(** [h * 3600 + m_ * 60 + s + ms / (1000 if len(str(ms)) == 3 else 100)]
    on the groups, each read by [int()]. *)
Definition seconds_of_groups (h m s ms : str) : Q :=
  let h := Z_of_digits h in
  let m := Z_of_digits m in
  let s := Z_of_digits s in
  let ms := Z_of_digits ms in
  inject_Z (h * 3600 + m * 60 + s)
  + Qmake ms (if len (str_of_Z ms) =? 3 then 1000 else 100).

Definition _timestamp_to_seconds (ts : str) : Q :=
  let ts := strip ts in
  match match_with_fraction ts with
  | Some (h, m, s, ms) => seconds_of_groups h m s ms
  | None =>
      match match_without_fraction ts with
      | Some (h, m, s) => seconds_of_groups h m s (lit "0")
      | None => 0
      end
  end.

(** [round(x)] : the nearest integer, ties to even. *)
Definition round_half_even (q : Q) : Z :=
  let fl := Qfloor q in
  match Qcompare (q - inject_Z fl) (1 # 2) with
  | Lt => fl
  | Gt => fl + 1
  | Eq => if Z.even fl then fl else fl + 1
  end.

(** [f"{n:03d}"] : zero-padded to three characters, the sign first. *)
Definition format_03d (n : Z) : str :=
  if n <? 0
  then let digits := str_of_Z (- n) in
       lit "-" ++ repeat 48%N (2 - List.length digits) ++ digits
  else let digits := str_of_Z n in
       repeat 48%N (3 - List.length digits) ++ digits.

Definition _seconds_to_timestamp (secs : Q) : str :=
  let h := Qfloor (secs / 3600) in
  let m := Qfloor ((secs - inject_Z (3600 * Qfloor (secs / 3600))) / 60) in
  let s := Qtrunc (secs - inject_Z (60 * Qfloor (secs / 60))) in
  let ms := round_half_even ((secs - inject_Z (Qtrunc secs)) * 1000) in
  ExportUtils.format_02d h ++ lit ":" ++ ExportUtils.format_02d m ++ lit ":"
  ++ ExportUtils.format_02d s ++ lit "." ++ format_03d ms.

(** [max(a, b)] of two floats: the first one unless the second is
    greater. *)
Definition fmax (a b : Q) : Q := if Qle_bool b a then a else b.

(** What [ffmpeg] is asked for: seek to [ss] in the input and copy [t]
    seconds of every stream to the output. *)
Record ffmpeg_call : Type := {
  input : str;
  ss : Q;
  t : Q;
  output : str
}.

Definition cut_video (input_video start finish output_path : str) : ffmpeg_call :=
  let start_sec := _timestamp_to_seconds start in
  let end_sec := _timestamp_to_seconds finish in
  let duration := fmax 0 (end_sec - start_sec) in
  {| input := input_video; ss := start_sec; t := duration; output := output_path |}.


(** How [cut_from_ffmpeg_json] can fail. *)
Inductive failure : Type :=
| PyError (e : exn)
| KeyError
| FfmpegError.

Inductive outcome (A : Type) : Type :=
| Done (a : A)
| Failed (f : failure).
Arguments Done {A} a.
Arguments Failed {A} f.

(** [s.replace(" ", "_")] *)
Definition replace_spaces (s : str) : str :=
  List.map (fun c => if N.eqb c 32 then 95%N else c) s.

Section Cutter.

(** [json.loads], with [None] for [JSONDecodeError]. *)
Variable json_loads : str -> option json.

(** [str(v)] for a value that is neither a string nor an integer. *)
Variable repr : json -> str.

(** [str(Path(output_dir) / filename)] *)
Variable child : str -> str -> str.

(** Whether [out_dir.mkdir(parents=True, exist_ok=True)] succeeds. *)
Variable mkdir : str -> bool.

(** Whether [ffmpeg.run] succeeds on a request. *)
Variable run : ffmpeg_call -> bool.

Definition text_of (v : json) : str :=
  match v with
  | JStr s => s
  | JInt z => str_of_Z z
  | _ => repr v
  end.

(** [f"{idx:02d}"] *)
Definition format_index (idx : json) : outcome str :=
  match idx with
  | JInt z => Done (ExportUtils.format_02d z)
  | JBool b => Done (ExportUtils.format_02d (if b then 1 else 0))
  | JFloat _ | JStr _ => Failed (PyError ValueError)
  | JNull | JList _ | JDict _ => Failed (PyError TypeError)
  end.

Definition pre_roll : Q := 1.
Definition post_roll : Q := 2.

(** The body of the loop, up to the request handed to [cut_video]. *)
Definition cut_clip (input_video output_dir : str) (clip : json) : outcome ffmpeg_call :=
  match clip with
  | JDict fields =>
      let idx := get (lit "index") (JInt 0) fields in
      let label :=
        replace_spaces
          (text_of (get (lit "label") (JStr (lit "CLIP_" ++ text_of idx)) fields)) in
      match lookup_key (lit "start") fields, lookup_key (lit "end") fields with
      | None, _ => Failed KeyError
      | Some _, None => Failed KeyError
      | Some (JStr start), Some finish =>
          let start_sec := fmax 0 (_timestamp_to_seconds start - pre_roll) in
          match finish with
          | JStr finish =>
              let end_sec := fmax start_sec (_timestamp_to_seconds finish + post_roll) in
              let start_padded := _seconds_to_timestamp start_sec in
              let end_padded := _seconds_to_timestamp end_sec in
              match format_index idx with
              | Failed f => Failed f
              | Done number =>
                  let filename := number ++ lit "_" ++ label ++ lit ".mp4" in
                  Done (cut_video input_video start_padded end_padded
                          (child output_dir filename))
              end
          | _ => Failed (PyError AttributeError)
          end
      | Some _, Some _ => Failed (PyError AttributeError)
      end
  | _ => Failed (PyError AttributeError)
  end.

(** The loop: the requests made, in order, and the paths returned or the
    failure that ended it. *)
Fixpoint cut_all (input_video output_dir : str) (clips : list json)
    : list ffmpeg_call * outcome (list str) :=
  match clips with
  | [] => ([], Done [])
  | clip :: rest =>
      match cut_clip input_video output_dir clip with
      | Failed f => ([], Failed f)
      | Done call =>
          if run call
          then let '(calls, r) := cut_all input_video output_dir rest in
               (call :: calls,
                match r with
                | Done outputs => Done (output call :: outputs)
                | Failed f => Failed f
                end)
          else ([call], Failed FfmpegError)
      end
  end.

Definition cut_from_ffmpeg_json (input_video ffmpeg_json output_dir : str)
    : list ffmpeg_call * outcome (list str) :=
  match json_loads ffmpeg_json with
  | None => ([], Failed (PyError JSONDecodeError))
  | Some data =>
      if mkdir output_dir
      then match iterate data with
           | Raise e => ([], Failed (PyError e))
           | Ok clips => cut_all input_video output_dir clips
           end
      else ([], Failed (PyError OSError))
  end.

End Cutter.

End Clipping.

(** ** Transcript text ([src/transcript_utils.py]) *)

Module TranscriptUtils.
Import Py Json.

(** [MM:SS.xx] of a number of seconds.  The argument is what the JSON
    held: an integer, a boolean or a float; [int()] of a NaN raises, and
    so does the floor division of anything that is not a number. *)
Definition seconds_to_timestamp (seconds : json) : result str :=
  let of_int (z : Z) :=
    ExportUtils.format_02d (z / 60) ++ lit ":"
    ++ ExportUtils.format_05_2f (FFin (inject_Z (z mod 60))) in
  match seconds with
  | JInt z => Ok (of_int z)
  | JBool b => Ok (of_int (if b then 1 else 0))
  | JFloat (FFin q) =>
      let minutes := Qfloor (q / 60) in
      Ok (ExportUtils.format_02d minutes ++ lit ":"
          ++ ExportUtils.format_05_2f (FFin (Qred (q - inject_Z (60 * minutes)))))
  | JFloat _ => Raise ValueError
  | JNull | JStr _ | JList _ | JDict _ => Raise TypeError
  end.

(** The loop of [flatten_transcript] over the segments. *)
Fixpoint flatten_segments (segments : list json) : result (list str) :=
  match segments with
  | [] => Ok []
  | JDict segment :: rest =>
      match get (lit "text") (JStr []) segment with
      | JStr raw =>
          let text := strip raw in
          let start := get (lit "start") (JInt 0) segment in
          let finish := get (lit "end") (JInt 0) segment in
          match text with
          | [] => flatten_segments rest
          | _ :: _ =>
              start_ts <- seconds_to_timestamp start ;;
              end_ts <- seconds_to_timestamp finish ;;
              lines <- flatten_segments rest ;;
              Ok ((lit "[" ++ start_ts ++ [8211%N] ++ end_ts ++ lit "] " ++ text) :: lines)
          end
      | _ => Raise AttributeError
      end
  | _ :: rest => flatten_segments rest
  end.

(** A missing [transcript] is a [KeyError], which the function turns into
    a [RuntimeError]. *)
Definition flatten_transcript (item : dict) : result str :=
  match lookup_key (lit "transcript") item with
  | Some (JList transcript_segments) =>
      lines <- flatten_segments transcript_segments ;;
      Ok (join [10%N] lines)
  | Some _ => Raise RuntimeError
  | None => Raise RuntimeError
  end.

(** A segment that gives a line: a dict whose text is not blank. *)
Definition has_text (segment : json) : bool :=
  match segment with
  | JDict fields =>
      match get (lit "text") (JStr []) fields with
      | JStr raw => match strip raw with [] => false | _ :: _ => true end
      | _ => false
      end
  | _ => false
  end.

End TranscriptUtils.

(** ** The required settings ([src/config.py], [initialize_config]) *)

Module ConfigInit.
Import Py.

(** The three module globals that hold the keys; [None] until set. *)
Record keys : Type := {
  OPENAI_API_KEY : option str;
  APIFY_TOKEN : option str;
  APIFY_ACTOR_ID : option str
}.

Definition unset : keys :=
  {| OPENAI_API_KEY := None; APIFY_TOKEN := None; APIFY_ACTOR_ID := None |}.

Section Environment.

(** [os.getenv(name)] *)
Variable getenv : str -> option str.

Definition get_required_env (name : str) : result str :=
  match getenv name with
  | Some ((_ :: _) as value) => Ok value
  | Some [] => Raise RuntimeError
  | None => Raise RuntimeError
  end.

Definition get_optional_env (name default : str) : str :=
  match getenv name with
  | Some value => value
  | None => default
  end.

(** The globals are assigned one after the other: a variable that is
    missing stops the function after the assignments before it. *)
Definition initialize_config (st : keys) : keys * result unit :=
  match get_required_env (lit "OPENAI_API_KEY") with
  | Raise e => (st, Raise e)
  | Ok openai =>
      let st1 := {| OPENAI_API_KEY := Some openai;
                    APIFY_TOKEN := APIFY_TOKEN st;
                    APIFY_ACTOR_ID := APIFY_ACTOR_ID st |} in
      match get_required_env (lit "APIFY_TOKEN") with
      | Raise e => (st1, Raise e)
      | Ok token =>
          let st2 := {| OPENAI_API_KEY := OPENAI_API_KEY st1;
                        APIFY_TOKEN := Some token;
                        APIFY_ACTOR_ID := APIFY_ACTOR_ID st1 |} in
          match get_required_env (lit "APIFY_ACTOR_ID") with
          | Raise e => (st2, Raise e)
          | Ok actor =>
              ({| OPENAI_API_KEY := OPENAI_API_KEY st2;
                  APIFY_TOKEN := APIFY_TOKEN st2;
                  APIFY_ACTOR_ID := Some actor |}, Ok tt)
          end
      end
  end.

(** The state the module has once imported: the [RuntimeError] of the
    call at the end of the module is swallowed. *)
Definition imported : keys := fst (initialize_config unset).

End Environment.

(** Truth value of a global: [None] and the empty string are false. *)
Definition is_set (v : option str) : bool :=
  match v with
  | Some (_ :: _) => true
  | _ => false
  end.

Definition validate_config (st : keys) : result unit :=
  if is_set (OPENAI_API_KEY st) && is_set (APIFY_TOKEN st) && is_set (APIFY_ACTOR_ID st)
  then Ok tt
  else Raise RuntimeError.

End ConfigInit.

(** ** Cut sheets ([src/cutsheets.py])

    The reading of the model's answer: [parse_cut_sheet_response] and
    the functions it calls.  A moment is a dict, as the normaliser
    returns it.  [str.lower] and [create_fallback_cut_sheet] are
    parameters: the statements hold whatever they return, and whatever
    the second raises. *)

Module Cutsheets.
Import Py Json.

(** [s.strip(chars)] for the characters that satisfy [p]. *)
Fixpoint lstrip_chars (p : char -> bool) (s : str) : str :=
  match s with
  | [] => []
  | c :: r => if p c then lstrip_chars p r else s
  end.

Definition rstrip_chars (p : char -> bool) (s : str) : str :=
  rev (lstrip_chars p (rev s)).

Definition strip_chars (p : char -> bool) (s : str) : str :=
  rstrip_chars p (lstrip_chars p s).

(** The double quote and the apostrophe. *)
Definition quote_char (c : char) : bool := ((c =? 34) || (c =? 39))%N.

Definition bracket (c : char) : bool := ((c =? 91) || (c =? 93))%N.

(** [needle in s] for two strings. *)
Fixpoint contains_text (needle s : str) : bool :=
  startswith needle s
  || match s with
     | [] => false
     | _ :: r => contains_text needle r
     end.

(** [re.sub(r'^\[|\]$', '', value)] for a value that does not end with a
    line feed: a bracket that opens the value and a bracket that closes
    it are removed. *)
Definition remove_outer_brackets (value : str) : str :=
  let opened := match value with
                | c :: r => if (c =? 91)%N then r else value
                | [] => []
                end in
  if endswith [93%N] opened then drop_last 1 opened else opened.

(** The brackets are removed, the text is split at the commas, each
    piece is stripped of blanks and then of quotes, and the empty pieces
    are dropped. *)
Definition parse_caps_list (caps_text : str) : list str :=
  match caps_text with
  | [] => []
  | _ :: _ =>
      let caps_text := List.filter (fun c => negb (bracket c)) caps_text in
      List.filter (fun word => match word with [] => false | _ :: _ => true end)
        (List.map (fun word => strip_chars quote_char (strip word))
           (split_on 44%N caps_text))
  end.

(** A word that [parse_caps_list] gives back as it is: no comma, no
    bracket, neither blank nor quote at either end. *)
Definition plain_word (word : str) : bool :=
  match word, rev word with
  | c :: _, e :: _ =>
      negb (isspace c) && negb (quote_char c) && negb (isspace e) && negb (quote_char e)
      && forallb (fun x => negb (x =? 44)%N && negb (bracket x)) word
  | _, _ => false
  end.

(** The sheet [parse_single_cut_sheet_block] starts from. *)
Definition default_cut_sheet : dict :=
  [(lit "clip_label", JStr []);
   (lit "in_point", JStr []);
   (lit "out_point", JStr []);
   (lit "aspect_ratio", JStr (lit "9:16"));
   (lit "crop_note", JStr []);
   (lit "opening_hook_subtitle", JStr []);
   (lit "emphasis_words_caps", JList []);
   (lit "pacing_note", JStr []);
   (lit "b_roll_ideas", JStr []);
   (lit "text_on_screen_idea", JStr []);
   (lit "silence_handling", JStr (lit "none"));
   (lit "thumbnail_text", JStr []);
   (lit "thumbnail_face_cue", JStr []);
   (lit "platform_priority", JStr (lit "All"));
   (lit "use_persona_caption", JStr [])].

(** The fields whose value is stored as it is read. *)
Definition text_fields : list str :=
  [lit "clip_label"; lit "in_point"; lit "out_point"; lit "aspect_ratio";
   lit "crop_note"; lit "opening_hook_subtitle"; lit "pacing_note";
   lit "b_roll_ideas"; lit "text_on_screen_idea"; lit "silence_handling";
   lit "thumbnail_text"; lit "thumbnail_face_cue"; lit "platform_priority";
   lit "use_persona_caption"].

Definition k_emphasis_words_caps : str := lit "emphasis_words_caps".

(** The chain of comparisons on the field name: each branch stores under
    the name it compares with, the list field through [parse_caps_list];
    a name that is none of the fifteen stores nothing. *)
Definition assign_field (field_name field_value : str) (cut_sheet : dict) : dict :=
  if existsb (str_eqb field_name) text_fields
  then set field_name (JStr field_value) cut_sheet
  else if str_eqb field_name k_emphasis_words_caps
       then set k_emphasis_words_caps
              (JList (List.map JStr (parse_caps_list field_value))) cut_sheet
       else cut_sheet.

(** What a sheet holds under a key: a list of strings for the emphasis
    words, a string for the others. *)
Definition field_typed (kv : str * json) : Prop :=
  if str_eqb (fst kv) k_emphasis_words_caps
  then exists words, snd kv = JList (List.map JStr words)
  else exists s, snd kv = JStr s.

(** A sheet with the keys of the template, each with a value of its
    type. *)
Definition sheet_shape (d : dict) : Prop :=
  List.map fst d = List.map fst default_cut_sheet /\ Forall field_typed d.

(** The marker of the section, and the header that opens a block. *)
Definition section_marker : str := lit "editor cut sheet".
Definition block_header : str := lit "moment header".

(** The header at the start of a text, letters in either case: with
    [re.IGNORECASE] a letter of the header is matched by itself and by
    its capital, and by no other character. *)
Definition at_header (s : str) : bool :=
  startswith block_header (List.map ExportUtils.lower (firstn (List.length block_header) s)).

(** [re.split(r'\n\s*(?=MOMENT HEADER)', text, flags=re.IGNORECASE)]: a
    line feed and the white space after it separate two blocks when the
    header follows that white space.  [skipping] is set while the white
    space of a separator is passed over. *)
Fixpoint split_blocks_from (skipping : bool) (cur : str) (s : str) : list str :=
  match s with
  | [] => [rev cur]
  | c :: r =>
      if skipping && isspace c then split_blocks_from true cur r
      else if (c =? 10)%N && at_header (lstrip r)
           then rev cur :: split_blocks_from true [] r
           else split_blocks_from false (c :: cur) r
  end.

Definition split_blocks (text : str) : list str := split_blocks_from false [] text.

Section Parsing.

(** [str.lower] *)
Variable str_lower : str -> str.

(** [create_fallback_cut_sheet]: what it returns or raises for a
    moment. *)
Variable create_fallback_cut_sheet : dict -> result json.

(** The bullet and the blanks after it are removed
    ([re.sub(r'^-\s*', '', line.strip())]); the name is what comes before
    the first colon, the value what comes after it. *)
Definition extract_field_value (line : str) : str * str :=
  let line := match strip line with
              | c :: r => if (c =? 45)%N then lstrip r else c :: r
              | [] => []
              end in
  match find 58%N line with
  | Some i =>
      let field_name := str_lower (strip (firstn i line)) in
      let field_value := strip (skipn (S i) line) in
      let field_value := remove_outer_brackets field_value in
      let field_value := strip_chars quote_char field_value in
      (field_name, field_value)
  | None => ([], [])
  end.

(** A line that opens the section of the cut sheet. *)
Definition opens_section (line : str) : bool :=
  match strip line with
  | [] => false
  | (_ :: _) as line => contains_text section_marker (str_lower line)
  end.

(** The loop over the lines of a block. *)
Fixpoint parse_lines (lines : list str) (in_cut_sheet_section : bool) (cut_sheet : dict)
    : dict :=
  match lines with
  | [] => cut_sheet
  | line :: rest =>
      match strip line with
      | [] => parse_lines rest in_cut_sheet_section cut_sheet
      | (_ :: _) as line =>
          if contains_text section_marker (str_lower line)
          then parse_lines rest true cut_sheet
          else if in_cut_sheet_section && existsb (N.eqb 45) line
               then let '(field_name, field_value) := extract_field_value line in
                    parse_lines rest in_cut_sheet_section
                      (assign_field field_name field_value cut_sheet)
               else parse_lines rest in_cut_sheet_section cut_sheet
      end
  end.

Definition parse_single_cut_sheet_block (block_text : str) : dict :=
  parse_lines (split_on 10%N block_text) false default_cut_sheet.

(** The moment with the sheet read from a block. *)
Definition with_sheet (block : str) (moment : dict) : dict :=
  set ExportUtils.k_editor_cut_sheet (JDict (parse_single_cut_sheet_block block)) moment.

(** The loop of [parse_cut_sheet_response]: [blocks] are the blocks from
    the position of the moment on. *)
Fixpoint merge_blocks (blocks : list str) (moments : list dict) : result (list dict) :=
  match moments with
  | [] => Ok []
  | moment :: rest =>
      let updated_moment :=
        match blocks with
        | block :: _ =>
            let cut_sheet := parse_single_cut_sheet_block block in
            if truthy (JDict cut_sheet)
            then set ExportUtils.k_editor_cut_sheet (JDict cut_sheet) moment
            else moment
        | [] => moment
        end in
      updated_moment <-
        (if contains ExportUtils.k_editor_cut_sheet updated_moment
         then Ok updated_moment
         else fallback <- create_fallback_cut_sheet moment ;;
              Ok (set ExportUtils.k_editor_cut_sheet fallback updated_moment)) ;;
      updated_moments <- merge_blocks (List.tl blocks) rest ;;
      Ok (updated_moment :: updated_moments)
  end.

Definition parse_cut_sheet_response (response_text : str) (original_moments : list dict)
    : result (list dict) :=
  merge_blocks (split_blocks response_text) original_moments.

End Parsing.

End Cutsheets.

(** ** Reference instances of the library and of the environment

    They give the examples something to run on: the decoder of [Json], an
    encoder that writes what [json.dumps(..., indent=2,
    ensure_ascii=False)] writes, and stand-ins for the digest and for
    [str()] of exotic values, on which no theorem depends. *)

Module Reference.
Import Py Json Runtime.

Definition hex_digit (n : N) : char :=
  if (n <? 10)%N then (48 + n)%N else (87 + n)%N.

(** A string literal of the encoder. *)
Definition quote_string (s : str) : str :=
  [34%N]
  ++ flat_map (fun c =>
       if (c =? 34)%N then [92; 34]%N
       else if (c =? 92)%N then [92; 92]%N
       else if (c =? 10)%N then [92; 110]%N
       else if (c =? 13)%N then [92; 114]%N
       else if (c =? 9)%N then [92; 116]%N
       else if (c =? 8)%N then [92; 98]%N
       else if (c =? 12)%N then [92; 102]%N
       else if (c <? 32)%N
            then [92; 117; 48; 48; hex_digit (c / 16); hex_digit (c mod 16)]%N
            else [c]) s
  ++ [34%N].

(** The least number of decimals, at least one and at most [fuel], with
    which [q] is written exactly. *)
Fixpoint decimals_for (fuel : nat) (q : Q) (k : nat) : nat :=
  match fuel with
  | O => k
  | S f =>
      if (Qnum q * 10 ^ Z.of_nat k) mod Zpos (Qden q) =? 0
      then k
      else decimals_for f q (S k)
  end.

Fixpoint pad_zeros (width : nat) (digits : str) : str :=
  match width with
  | O => digits
  | S w => if (List.length digits <? width)%nat
           then pad_zeros w (48%N :: digits)
           else digits
  end.

(** Positional notation of a float; the shortest round-tripping form
    Python chooses is the same for the values met in the examples. *)
Definition float_repr (f : pyfloat) : str :=
  match f with
  | FNaN => lit "NaN"
  | FInf false => lit "Infinity"
  | FInf true => lit "-Infinity"
  | FFin q =>
      let k := decimals_for 20 q 1 in
      let scaled := Z.abs (Z.quot (Qnum q * 10 ^ Z.of_nat k) (Zpos (Qden q))) in
      let whole := scaled / 10 ^ Z.of_nat k in
      let frac := scaled mod 10 ^ Z.of_nat k in
      (if Qnum q <? 0 then lit "-" else [])
      ++ str_of_Z whole ++ lit "." ++ pad_zeros k (str_of_Z frac)
  end.

Fixpoint spaces (n : nat) : str :=
  match n with
  | O => []
  | S k => 32%N :: spaces k
  end.

Definition indent (level : nat) : str := spaces (2 * level).

Fixpoint dumps_at (level : nat) (v : json) {struct v} : str :=
  match v with
  | JNull => lit "null"
  | JBool true => lit "true"
  | JBool false => lit "false"
  | JInt z => str_of_Z z
  | JFloat f => float_repr f
  | JStr s => quote_string s
  | JList [] => lit "[]"
  | JList items =>
      lit "[" ++ [10%N]
      ++ (fix each (l : list json) : str :=
            match l with
            | [] => []
            | [x] => indent (S level) ++ dumps_at (S level) x
            | x :: rest =>
                indent (S level) ++ dumps_at (S level) x ++ lit "," ++ [10%N] ++ each rest
            end) items
      ++ [10%N] ++ indent level ++ lit "]"
  | JDict [] => lit "{}"
  | JDict fields =>
      lit "{" ++ [10%N]
      ++ (fix each (l : list (str * json)) : str :=
            match l with
            | [] => []
            | [(k, x)] =>
                indent (S level) ++ quote_string k ++ lit ": " ++ dumps_at (S level) x
            | (k, x) :: rest =>
                indent (S level) ++ quote_string k ++ lit ": " ++ dumps_at (S level) x
                ++ lit "," ++ [10%N] ++ each rest
            end) fields
      ++ [10%N] ++ indent level ++ lit "}"
  end.

Definition dumps (v : json) : str := dumps_at 0 v.

(** A stand-in for the digest: the code points, in decimal, separated by
    dots. *)
Definition digest (text : str) : str :=
  flat_map (fun c => str_of_Z (Z.of_N c) ++ lit ".") text.

Definition lib : library := {|
  json_loads := loads;
  json_dumps := dumps;
  md5_hexdigest := digest;
  repr := dumps
|}.

(** An identifier stream: [c<idx>m<k>]. *)
Definition ids (idx k : nat) : str :=
  lit "c" ++ str_of_Z (Z.of_nat idx) ++ lit "m" ++ str_of_Z (Z.of_nat k).

(** The identifiers of the first chunk. *)
Definition ids0 : nat -> str := ids 1.

(** An environment whose endpoint answers with [answer] and whose workers
    complete in the order of submission. *)
Definition world_of (answer : str -> str -> result str) : world := {|
  call_llm_with_system := answer;
  uuid4_hex8 := ids;
  as_completed := fun futures => futures;
  as_completed_perm := fun futures => Permutation_refl futures
|}.

(** The same, with the workers completing in the reverse order. *)
Definition world_reversed (answer : str -> str -> result str) : world := {|
  call_llm_with_system := answer;
  uuid4_hex8 := ids;
  as_completed := fun futures => rev futures;
  as_completed_perm := fun futures => Permutation_sym (Permutation_rev futures)
|}.

Definition empty_disk : CacheUtils.disk := {|
  CacheUtils.dir_exists := false;
  CacheUtils.files := stdpp.base.empty;
  CacheUtils.writable := true
|}.

End Reference.

(** ** Inputs of the worked examples *)

Module Examples.
Import Py Json Config Runtime.


(** A model answer holding: a number, a moment with an empty quote, a
    moment without quote, and two usable moments. *)
Definition mixed_candidates_text : str :=
  jlit "[5, {'quote': ''}, {'timestamps': '00:01.00-00:09.00'}, {'quote': 'first one kept', 'clip_duration_seconds': 3, 'persona_captions': {'thomist': 'x'}}, {'quote': 'second'}]".

Definition mixed_candidates : list json :=
  match loads mixed_candidates_text with
  | Some (JList l) => l
  | _ => []
  end.



(** The example of section 8 of the specification. *)
Definition pipeline_answer : str :=
  jlit "{'moments':[{'timestamps':'00:00.00-00:12.50','quote':'Hello World, this is a test of the pipeline','clip_duration_seconds':3,'viral_trigger':'HOPE'}]}".

(** An answer whose [moments] is a number. *)
Definition scalar_moments_text : str := jlit "{'moments': 5}".

(** A valid object between two pieces of prose without braces. *)
Definition prose_before : str := lit "Sure! Here is the JSON you asked for: ".
Definition embedded_body : str := jlit "'moments': [{'quote': 'hi'}]".
Definition embedded_object : str := [123%N] ++ embedded_body ++ [125%N].
Definition prose_after : str := lit " Hope this helps.".

(** The same object after prose that itself holds a pair of braces. *)
Definition prose_with_braces : str := lit "Use {braces} like this: ".

(** A fenced answer and what is inside the fence. *)
Definition fence_tag : str := lit "json".
Definition fenced_body : str := pipeline_answer ++ [10%N].

(** The moment the normaliser makes of that example. *)
Definition stored_moments : list json :=
  match Extraction.parse_moment_response loads Reference.ids0 pipeline_answer with
  | Ok l => l
  | Raise _ => []
  end.

(** A configuration with a budget of twelve characters per chunk. *)
Definition small_chunks : Config.settings := {|
  CHARS_PER_CHUNK := 12;
  MAX_MOMENTS_PER_CHUNK := 3;
  MAX_PARALLEL_CHUNKS := 3;
  MOMENT_SAFETY_LIMIT := 5;
  CACHE_ENABLED := true;
  CACHE_DIR := lit ".nio_cache"
|}.

(** Two lines of ten characters: two chunks under [small_chunks]. *)
Definition two_lines : str := lit "first line" ++ [10%N] ++ lit "other line".

Definition other_transcript : str := lit "another talk".

(** An endpoint that fails on the first chunk and answers the second;
    the user prompt starts with [Chunk <idx> of]. *)
Definition second_chunk_only (system_prompt user_prompt : str) : result str :=
  if startswith (lit "Chunk 2 ") user_prompt
  then Ok (jlit "{'moments': [{'quote': 'other line'}]}")
  else Raise LLMError.

Definition always_answers (system_prompt user_prompt : str) : result str :=
  Ok (jlit "{'moments': [{'quote': 'first line'}]}").

Definition no_moments (system_prompt user_prompt : str) : result str :=
  Ok (jlit "{'moments': []}").

(** Three moments for the hand-off: one without timestamps, one with a
    raw range and a duration of three seconds, one with a cut sheet and
    no duration. *)
Definition moment_of (text : str) : dict :=
  match loads text with
  | Some (JDict d) => d
  | _ => []
  end.


Definition timed_moment : dict :=
  moment_of (jlit "{'timestamps': '00:01.00-00:05.00', 'clip_duration_seconds': 3}").


End Examples.

(** ** More examples *)

Module MoreExamples.
Import Py Json Config Runtime.

(** Metadata of a video, and metadata that names a language only. *)
Definition video_metadata : dict :=
  Examples.moment_of (jlit "{'video_id': 'dQw4w9WgXcQ', 'language': 'en'}").



(** A disk that holds a cache file for [two_lines], a note in the cache
    directory and a file elsewhere. *)
Definition used_disk : CacheUtils.disk :=
  let stored :=
    CacheUtils.save_moments_to_cache shipped Reference.lib Reference.empty_disk
      Examples.stored_moments Examples.two_lines None in
  {| CacheUtils.dir_exists := CacheUtils.dir_exists stored;
     CacheUtils.files :=
       stdpp.base.insert (lit ".nio_cache/notes.txt") (lit "keep")
         (stdpp.base.insert (lit "elsewhere/clip.json") (lit "{}")
            (CacheUtils.files stored));
     CacheUtils.writable := true |}.

(** A line of a subtitle file whose start is 50 milliseconds after the
    first second. *)
Definition srt_line : str := lit "00:00:01,050 --> 00:01:04,500".

(** A subtitle file of two records. *)
Definition srt_file : str :=
  lit "1" ++ [10%N] ++ srt_line ++ [10%N] ++ lit "Hello" ++ [10%N] ++ [10%N]
  ++ lit "2" ++ [10%N] ++ lit "00:01:05,000 --> 00:01:09,250" ++ [10%N] ++ lit "World".

(** What the export makes of that file. *)
Definition srt_json : str :=
  SrtExport.srt_to_ffmpeg_json isdigit Reference.dumps srt_file.

(** An item of the transcript service: a segment with text, a number, a
    segment whose text is blank. *)
Definition transcript_item : dict :=
  Examples.moment_of
    (jlit "{'transcript': [{'text': ' hello there ', 'start': 0, 'end': 1.5}, 5, {'text': '  '}]}").

Definition transcript_segments : list json :=
  match lookup_key (lit "transcript") transcript_item with
  | Some (JList l) => l
  | _ => []
  end.

(** An item whose segments have no text. *)
Definition silent_item : dict :=
  Examples.moment_of (jlit "{'transcript': [5, {'text': '  '}, {'start': 3}]}").

Definition silent_segments : list json :=
  match lookup_key (lit "transcript") silent_item with
  | Some (JList l) => l
  | _ => []
  end.

(** An environment with the three keys, and one without the token. *)
Definition full_environment (name : str) : option str :=
  if str_eqb name (lit "OPENAI_API_KEY") then Some (lit "sk-test")
  else if str_eqb name (lit "APIFY_TOKEN") then Some (lit "apify-test")
  else if str_eqb name (lit "APIFY_ACTOR_ID") then Some (lit "actor")
  else None.

Definition no_token (name : str) : option str :=
  if str_eqb name (lit "APIFY_TOKEN") then Some [] else full_environment name.

(** Lower case of the letters A to Z. *)
Definition ascii_lower (s : str) : str := List.map ExportUtils.lower s.

(** A fallback that always fails. *)
Definition no_fallback (moment : dict) : result json := Raise TypeError.

Definition emphasis_words : list str := [lit "GOD"; lit "HOLY MASS"; lit "NOW"].

(** The header of a block, with fields that look like those of a cut
    sheet, and the section of its cut sheet. *)
Definition block_preamble : str :=
  lit "MOMENT HEADER" ++ [10%N] ++ lit "- clip_label: EARLY" ++ [10%N]
  ++ lit "- in_point: 00:00.50".

Definition block_section : str :=
  lit "EDITOR CUT SHEET" ++ [10%N] ++ lit "- clip_label: LATE" ++ [10%N]
  ++ lit "- In_Point: [00:01.00]" ++ [10%N]
  ++ lit "- emphasis_words_caps: [GOD, HOLY MASS, NOW]".

(** A response of two blocks; the second has no cut sheet. *)
Definition two_blocks : str :=
  block_preamble ++ [10%N] ++ block_section ++ [10%N; 10%N]
  ++ lit "Moment Header" ++ [10%N] ++ lit "- quote: nothing else".

(** Two moments; the second comes with a sheet of its own. *)
Definition plain_moment : dict := Examples.moment_of (jlit "{'quote': 'first'}").

Definition moment_with_sheet : dict :=
  Examples.moment_of (jlit "{'quote': 'second', 'editor_cut_sheet': {'in_point': '00:09.00'}}").

End MoreExamples.

(* ===================================================================== *)
(** * Part II: properties                                                 *)
(* ===================================================================== *)

(** ** Strings *)

Section StringFacts.
Import Py.

Lemma str_eqb_refl (a : str) : str_eqb a a = true.
Proof.
  induction a as [|x a IH]; simpl; [reflexivity|].
  now rewrite N.eqb_refl, IH.
Qed.

Lemma str_eqb_eq (a b : str) : str_eqb a b = true <-> a = b.
Proof.
  split.
  - revert b; induction a as [|x a IH]; intros [|y b] H; simpl in H;
      try discriminate; [reflexivity|].
    apply andb_true_iff in H as [Hx Hab].
    apply N.eqb_eq in Hx. apply IH in Hab. congruence.
  - intros ->. apply str_eqb_refl.
Qed.

Lemma str_eqb_neq (a b : str) : str_eqb a b = false <-> a <> b.
Proof.
  split.
  - intros H ->. rewrite str_eqb_refl in H. discriminate.
  - intros H. destruct (str_eqb a b) eqn:E; [|reflexivity].
    apply str_eqb_eq in E. contradiction.
Qed.


Lemma len_nonneg (a : str) : 0 <= len a.
Proof. unfold len. lia. Qed.

Lemma total_len_app (xs ys : list str) :
  total_len (xs ++ ys) = total_len xs + total_len ys.
Proof.
  induction xs as [|x xs IH]; simpl; [reflexivity|].
  unfold total_len in *. simpl. rewrite IH. lia.
Qed.

Lemma total_len_nonneg (xs : list str) : 0 <= total_len xs.
Proof.
  induction xs as [|x xs IH]; unfold total_len in *; simpl; [lia|].
  pose proof (len_nonneg x). lia.
Qed.

(** *** Stripping *)

Lemma rstrip_cons (c : char) (s : str) :
  rstrip (c :: s) =
  match rstrip s with
  | [] => if isspace c then [] else [c]
  | _ :: _ => c :: rstrip s
  end.
Proof. reflexivity. Qed.

Lemma rstrip_app_space (s : str) (c : char) :
  isspace c = true -> rstrip (s ++ [c]) = rstrip s.
Proof.
  intros Hc. induction s as [|x s IH].
  - simpl. now rewrite Hc.
  - simpl app. rewrite !rstrip_cons, IH. reflexivity.
Qed.

Lemma rstrip_app_nonspace (s : str) (c : char) :
  isspace c = false -> rstrip (s ++ [c]) = s ++ [c].
Proof.
  intros Hc. induction s as [|x s IH].
  - simpl. now rewrite Hc.
  - simpl app. rewrite rstrip_cons, IH. destruct (s ++ [c]) eqn:E.
    + destruct s; discriminate.
    + reflexivity.
Qed.

Lemma rstrip_idem (s : str) : rstrip (rstrip s) = rstrip s.
Proof.
  induction s as [|x s IH]; [reflexivity|].
  rewrite rstrip_cons. destruct (rstrip s) as [|y t] eqn:E.
  - destruct (isspace x) eqn:Hx; [reflexivity|].
    simpl. now rewrite Hx.
  - rewrite rstrip_cons, IH. reflexivity.
Qed.

Lemma lstrip_head (s : str) :
  match lstrip s with
  | [] => True
  | c :: _ => isspace c = false
  end.
Proof.
  induction s as [|x s IH]; simpl; [exact I|].
  destruct (isspace x) eqn:Hx; [exact IH | exact Hx].
Qed.

Lemma lstrip_nonspace (c : char) (s : str) :
  isspace c = false -> lstrip (c :: s) = c :: s.
Proof. intros H. simpl. now rewrite H. Qed.

(** The right strip keeps the first character of a text that starts with
    a non-blank. *)
Lemma rstrip_keeps_head (c : char) (s : str) :
  isspace c = false -> exists t, rstrip (c :: s) = c :: t.
Proof.
  intros Hc. rewrite rstrip_cons. destruct (rstrip s).
  - rewrite Hc. now exists [].
  - eexists. reflexivity.
Qed.

Lemma strip_head (s : str) :
  match strip s with
  | [] => True
  | c :: _ => isspace c = false
  end.
Proof.
  unfold strip. pose proof (lstrip_head s) as H.
  destruct (lstrip s) as [|c t]; [exact I|].
  destruct (rstrip_keeps_head c t H) as [u ->]. exact H.
Qed.

Lemma strip_idem (s : str) : strip (strip s) = strip s.
Proof.
  unfold strip at 1. pose proof (strip_head s) as H.
  destruct (strip s) as [|c t] eqn:E; [reflexivity|].
  rewrite lstrip_nonspace by exact H. rewrite <- E. unfold strip.
  apply rstrip_idem.
Qed.

(** A text that starts and ends with a non-blank is its own strip. *)
Lemma strip_fixed (c : char) (s : str) (e : char) :
  isspace c = false -> isspace e = false ->
  strip (c :: s ++ [e]) = c :: s ++ [e].
Proof.
  intros Hc He. unfold strip. rewrite lstrip_nonspace by exact Hc.
  change (c :: s ++ [e]) with ((c :: s) ++ [e]).
  now apply rstrip_app_nonspace.
Qed.

Lemma lstrip_blank_prefix (ws x : str) :
  Forall (fun c => isspace c = true) ws -> lstrip (ws ++ x) = lstrip x.
Proof.
  induction 1 as [|c ws Hc _ IH]; simpl; [reflexivity|]. now rewrite Hc.
Qed.

Lemma rstrip_blank_suffix (ws : str) :
  Forall (fun c => isspace c = true) ws ->
  forall x, rstrip (x ++ ws) = rstrip x.
Proof.
  induction 1 as [|c ws Hc _ IH]; intros x; [now rewrite app_nil_r|].
  change (x ++ c :: ws) with (x ++ [c] ++ ws). rewrite app_assoc, IH.
  now apply rstrip_app_space.
Qed.

(** Blanks around a text that starts and ends with a non-blank are
    stripped, and nothing else. *)
Lemma strip_blank_around (lead trail : str) (c : char) (s : str) (e : char) :
  Forall (fun x => isspace x = true) lead ->
  Forall (fun x => isspace x = true) trail ->
  isspace c = false -> isspace e = false ->
  strip (lead ++ (c :: s ++ [e]) ++ trail) = c :: s ++ [e].
Proof.
  intros Hlead Htrail Hc He. unfold strip.
  rewrite (lstrip_blank_prefix _ _ Hlead).
  change ((c :: s ++ [e]) ++ trail) with (c :: (s ++ [e]) ++ trail).
  rewrite lstrip_nonspace by exact Hc.
  change (c :: (s ++ [e]) ++ trail) with ((c :: s ++ [e]) ++ trail).
  rewrite (rstrip_blank_suffix _ Htrail).
  change (c :: s ++ [e]) with ((c :: s) ++ [e]).
  now apply rstrip_app_nonspace.
Qed.

(** *** Prefixes, suffixes, search *)

Lemma startswith_app (p s : str) : startswith p (p ++ s) = true.
Proof.
  induction p as [|x p IH]; simpl; [now destruct s|].
  now rewrite N.eqb_refl, IH.
Qed.

Lemma endswith_app (p s : str) : endswith p (s ++ p) = true.
Proof. unfold endswith. rewrite rev_app_distr. apply startswith_app. Qed.

Lemma drop_last_app (p s : str) : drop_last (List.length p) (s ++ p) = s.
Proof.
  unfold drop_last. rewrite length_app.
  replace (List.length s + List.length p - List.length p)%nat with (List.length s + 0)%nat by lia.
  rewrite firstn_app_2. simpl. apply app_nil_r.
Qed.

Lemma find_app_absent (c : char) (a b : str) :
  Forall (fun x => x <> c) a ->
  find c (a ++ c :: b) = Some (List.length a).
Proof.
  induction 1 as [|x a Hx Ha IH]; simpl.
  - now rewrite N.eqb_refl.
  - apply N.eqb_neq in Hx. rewrite Hx, IH. reflexivity.
Qed.

Lemma skipn_succ_app (a : str) (c : char) (b : str) :
  skipn (S (List.length a)) (a ++ c :: b) = b.
Proof.
  induction a as [|x a IH]; simpl; [reflexivity|]. exact IH.
Qed.

(** *** Lines *)



Lemma split_on_from_line (sep : char) (line : str) :
  Forall (fun c => c <> sep) line ->
  forall cur rest,
    split_on_from sep cur (line ++ rest) = split_on_from sep (rev line ++ cur) rest.
Proof.
  induction 1 as [|x line Hx Hl IH]; intros cur rest; simpl; [reflexivity|].
  apply N.eqb_neq in Hx. rewrite Hx, IH. now rewrite <- app_assoc.
Qed.




End StringFacts.

(** ** Chunking *)

Section ChunkFacts.
Import Py Json Config Runtime LlmClient.

Lemma chunk_loop_groups (max : Z) (lines : list str) :
  forall chunks current,
    chunk_loop max lines chunks current
    = chunks ++ List.map (join nl) (group_loop max lines current).
Proof.
  induction lines as [|line rest IH]; intros chunks current; simpl.
  - destruct current; simpl; [now rewrite app_nil_r | reflexivity].
  - destruct (total_len current + len line + 1 >? max).
    + destruct current as [|c cs].
      * apply IH.
      * rewrite IH. simpl. now rewrite <- app_assoc.
    + apply IH.
Qed.

Lemma group_loop_concat (max : Z) (lines : list str) :
  forall current, List.concat (group_loop max lines current) = current ++ lines.
Proof.
  induction lines as [|line rest IH]; intros current; simpl.
  - destruct current; simpl; [reflexivity | now rewrite !app_nil_r].
  - destruct (total_len current + len line + 1 >? max).
    + destruct current as [|c cs].
      * rewrite IH. reflexivity.
      * simpl. rewrite IH. simpl. reflexivity.
    + rewrite IH, <- app_assoc. reflexivity.
Qed.





End ChunkFacts.

Section ChunkClaims.
Import Py Json Config Runtime LlmClient.




End ChunkClaims.

(** ** Dictionaries *)

Section DictFacts.
Import Py Json.

Lemma lookup_key_set (k k' : str) (v : json) (d : dict) :
  lookup_key k (set k' v d) = if str_eqb k k' then Some v else lookup_key k d.
Proof.
  induction d as [|[k0 v0] r IH]; simpl; [reflexivity|].
  destruct (str_eqb k' k0) eqn:E0; simpl.
  - apply str_eqb_eq in E0. subst k0.
    destruct (str_eqb k k'); reflexivity.
  - rewrite IH. destruct (str_eqb k k0) eqn:E1; [|reflexivity].
    apply str_eqb_eq in E1. subst k0.
    destruct (str_eqb k k') eqn:E2; [|reflexivity].
    apply str_eqb_eq in E2. subst k'. rewrite str_eqb_refl in E0. discriminate.
Qed.

Lemma lookup_key_setdefault (k k' : str) (v : json) (d : dict) :
  lookup_key k (setdefault k' v d)
  = match lookup_key k d with
    | Some x => Some x
    | None => if str_eqb k k' then Some v else None
    end.
Proof.
  unfold setdefault, contains.
  destruct (lookup_key k' d) as [y|] eqn:E'.
  - destruct (lookup_key k d) eqn:E; [reflexivity|].
    destruct (str_eqb k k') eqn:Ek; [|reflexivity].
    apply str_eqb_eq in Ek. subst k'. congruence.
  - rewrite lookup_key_set.
    destruct (str_eqb k k') eqn:Ek.
    + apply str_eqb_eq in Ek. subst k'. now rewrite E'.
    + now destruct (lookup_key k d).
Qed.

Lemma get_lookup (k : str) (default : json) (d : dict) :
  get k default d = match lookup_key k d with Some v => v | None => default end.
Proof. reflexivity. Qed.

Lemma contains_lookup (k : str) (d : dict) :
  contains k d = match lookup_key k d with Some _ => true | None => false end.
Proof. reflexivity. Qed.

Lemma contains_setdefault_same (k : str) (v : json) (d : dict) :
  contains k (setdefault k v d) = true.
Proof.
  rewrite contains_lookup, lookup_key_setdefault, str_eqb_refl.
  now destruct (lookup_key k d).
Qed.

Lemma contains_setdefault_mono (k k' : str) (v : json) (d : dict) :
  contains k d = true -> contains k (setdefault k' v d) = true.
Proof.
  rewrite !contains_lookup, lookup_key_setdefault.
  now destruct (lookup_key k d).
Qed.

Lemma lookup_setdefault_mono (k k' : str) (v x : json) (d : dict) :
  lookup_key k d = Some x -> lookup_key k (setdefault k' v d) = Some x.
Proof. intros H. now rewrite lookup_key_setdefault, H. Qed.

End DictFacts.

(** ** The normaliser *)

Section NormaliserFacts.
Import Py Json Extraction.

(** Decide the comparisons between two known keys. *)
Ltac eval_keys :=
  repeat match goal with
         | |- context [str_eqb ?a ?b] =>
             let v := eval vm_compute in (str_eqb a b) in
             match v with
             | true => change (str_eqb a b) with true
             | false => change (str_eqb a b) with false
             end
         end;
  cbv iota.

Ltac split_key k key :=
  let E := fresh "E" in
  destruct (str_eqb k key) eqn:E;
  [apply str_eqb_eq in E; subst k; eval_keys|].

Lemma fill_captions_lookup (keys : list str) :
  forall (m m' : dict) (pc : dict),
    lookup_key k_persona_captions m = Some (JDict pc) ->
    fill_captions keys m = Ok m' ->
    forall k, lookup_key k m'
              = if str_eqb k k_persona_captions
                then Some (JDict (fill_all keys pc))
                else lookup_key k m.
Proof.
  induction keys as [|key rest IH]; intros m m' pc Hpc Hrun k.
  - simpl in Hrun. injection Hrun as <-. simpl.
    destruct (str_eqb k k_persona_captions) eqn:E; [|reflexivity].
    apply str_eqb_eq in E. now subst k.
  - simpl in Hrun. unfold fill_caption in Hrun at 1.
    rewrite get_lookup, Hpc in Hrun. simpl in Hrun.
    erewrite IH; [| |exact Hrun].
    + simpl. rewrite lookup_key_set.
      destruct (str_eqb k k_persona_captions); reflexivity.
    + rewrite lookup_key_set, str_eqb_refl. reflexivity.
Qed.

Lemma fill_captions_total (keys : list str) :
  forall (m : dict) (pc : dict),
    lookup_key k_persona_captions m = Some (JDict pc) ->
    exists m', fill_captions keys m = Ok m'.
Proof.
  induction keys as [|key rest IH]; intros m pc Hpc.
  - now exists m.
  - simpl. unfold fill_caption at 1. rewrite get_lookup, Hpc. simpl.
    eapply IH. rewrite lookup_key_set, str_eqb_refl. reflexivity.
Qed.

Lemma fill_all_keeps (keys : list str) :
  forall (pc : dict) (k : str),
    contains k pc = true -> contains k (fill_all keys pc) = true.
Proof.
  induction keys as [|key rest IH]; intros pc k H; simpl; [exact H|].
  apply IH. now apply contains_setdefault_mono.
Qed.

Lemma fill_all_covers (keys : list str) :
  forall pc, Forall (fun key => contains key (fill_all keys pc) = true) keys.
Proof.
  induction keys as [|key rest IH]; intros pc; constructor.
  - simpl. apply fill_all_keeps. apply contains_setdefault_same.
  - apply IH.
Qed.

Lemma ensure_timestamps_lookup (m : dict) (k : str) :
  lookup_key k (ensure_timestamps m)
  = match lookup_key k m with
    | Some x => Some x
    | None => if str_eqb k k_timestamps then Some (JStr []) else None
    end.
Proof.
  unfold ensure_timestamps. rewrite get_lookup.
  destruct (lookup_key k_timestamps m) as [t|] eqn:Ht.
  - destruct (truthy t); simpl negb; cbv iota.
    + destruct (lookup_key k m) eqn:Hk; [reflexivity|].
      destruct (str_eqb k k_timestamps) eqn:E; [|reflexivity].
      apply str_eqb_eq in E. subst k. congruence.
    + apply lookup_key_setdefault.
  - simpl. apply lookup_key_setdefault.
Qed.

Lemma ensure_optional_lookup (m : dict) (k : str) :
  lookup_key k (ensure_optional m)
  = match lookup_key k m with
    | Some x => Some x
    | None =>
        if str_eqb k k_viral_trigger then Some (JStr [])
        else if str_eqb k k_why_it_hits then Some (JStr [])
        else if str_eqb k k_energy_tag then Some (JStr [])
        else if str_eqb k k_flags then Some (JList [])
        else if str_eqb k k_persona_captions then Some (JDict [])
        else None
    end.
Proof.
  unfold ensure_optional. cbv zeta. rewrite !lookup_key_setdefault.
  destruct (lookup_key k m); [reflexivity|].
  destruct (str_eqb k k_viral_trigger); [reflexivity|].
  destruct (str_eqb k k_why_it_hits); [reflexivity|].
  destruct (str_eqb k k_energy_tag); [reflexivity|].
  destruct (str_eqb k k_flags); reflexivity.
Qed.

Lemma count_words_ok (v : json) (n : Z) :
  truthy v = true -> count_words v = Ok n ->
  exists q, v = JStr q /\ q <> [] /\ n = Z.of_nat (List.length (split_ws q)).
Proof.
  unfold count_words. intros Hv. rewrite Hv.
  destruct v; try discriminate. intros [= <-].
  exists s. repeat split. destruct s; [discriminate|discriminate].
Qed.

(** The fields of an emitted moment, key by key. *)
Lemma enrich_moment_emits (d : dict) (id : str) (m : dict) :
  enrich_moment d id = Ok (Some m) ->
  exists q pc,
    lookup_key k_quote d = Some (JStr q) /\ q <> []
    /\ match lookup_key k_persona_captions d with
       | Some v => v = JDict pc
       | None => pc = []
       end
    /\ forall k,
        lookup_key k m =
        if str_eqb k k_id then Some (JStr id)
        else if str_eqb k k_clip_duration_seconds then
          Some (JInt (Z.max (coerce_duration (get k_clip_duration_seconds (JInt 0) d))
                            (word_based_duration (Z.of_nat (List.length (split_ws q))))))
        else if str_eqb k k_persona_captions then Some (JDict (fill_all persona_keys pc))
        else match lookup_key k d with
             | Some x => Some x
             | None => default_of k
             end.
Proof.
  unfold enrich_moment. cbv zeta. intros H.
  rewrite !get_lookup in H.
  rewrite !ensure_timestamps_lookup, !lookup_key_set in H.
  change (str_eqb k_quote k_id) with false in H.
  change (str_eqb k_clip_duration_seconds k_id) with false in H.
  cbv iota in H.
  destruct (lookup_key k_quote d) as [v|] eqn:Hq; [|discriminate].
  destruct (truthy v) eqn:Hv; [|discriminate]. simpl negb in H. cbv iota in H.
  destruct (count_words v) as [n|] eqn:Hn; [|discriminate].
  cbv beta iota delta [bind] in H.
  destruct (count_words_ok v n Hv Hn) as (q & -> & Hne & ->).
  match type of H with
  | context [fill_captions _ ?x] => set (m5 := x) in H
  end.
  destruct (fill_captions persona_keys m5) as [m'|] eqn:Hfill; [|discriminate].
  injection H as ->.
  exists q.
  assert (Hpc : exists pc,
             lookup_key k_persona_captions m5 = Some (JDict pc)
             /\ match lookup_key k_persona_captions d with
                | Some v => v = JDict pc
                | None => pc = []
                end).
  { destruct persona_keys as [|key rest] eqn:Hkeys; [discriminate|].
    simpl in Hfill. unfold fill_caption in Hfill at 1.
    rewrite get_lookup in Hfill.
    subst m5. rewrite ensure_optional_lookup, lookup_key_set,
      ensure_timestamps_lookup, lookup_key_set in *.
    change (str_eqb k_persona_captions k_clip_duration_seconds) with false in *.
    change (str_eqb k_persona_captions k_id) with false in *.
    change (str_eqb k_persona_captions k_timestamps) with false in *.
    cbv iota in *.
    destruct (lookup_key k_persona_captions d) as [v|].
    - destruct v; try discriminate. eexists; split; reflexivity.
    - simpl. eexists; split; reflexivity. }
  destruct Hpc as (pc & Hpc5 & Hpcd).
  exists pc. repeat split; try assumption.
  intros k. rewrite (fill_captions_lookup _ _ _ _ Hpc5 Hfill).
  subst m5. rewrite ensure_optional_lookup, lookup_key_set,
    ensure_timestamps_lookup, lookup_key_set. rewrite !get_lookup.
  unfold default_of. eval_keys.
  split_key k k_id; [reflexivity|].
  split_key k k_clip_duration_seconds.
  { destruct (lookup_key k_clip_duration_seconds d); reflexivity. }
  split_key k k_persona_captions; [reflexivity|].
  destruct (lookup_key k d); [reflexivity|].
  destruct (str_eqb k k_timestamps); [reflexivity|].
  destruct (str_eqb k k_viral_trigger); [reflexivity|].
  destruct (str_eqb k k_why_it_hits); [reflexivity|].
  destruct (str_eqb k k_energy_tag); [reflexivity|].
  destruct (str_eqb k k_flags); reflexivity.
Qed.

Lemma enrich_moment_skips (d : dict) (id : str) :
  survives (JDict d) = false -> enrich_moment d id = Ok None.
Proof.
  unfold survives, enrich_moment. cbv zeta. rewrite !get_lookup, lookup_key_set.
  change (str_eqb k_quote k_id) with false. cbv iota.
  intros ->. reflexivity.
Qed.

Lemma enrich_moment_survives (d : dict) (id : str) (r : option dict) :
  enrich_moment d id = Ok r ->
  survives (JDict d) = match r with Some _ => true | None => false end.
Proof.
  intros H. destruct (survives (JDict d)) eqn:Hs.
  - destruct r; [reflexivity|]. exfalso.
    unfold survives, enrich_moment in *. cbv zeta in H.
    rewrite !get_lookup, lookup_key_set in *.
    change (str_eqb k_quote k_id) with false in H. cbv iota in H.
    rewrite Hs in H. simpl negb in H. cbv iota in H.
    cbv beta iota delta [bind] in H.
    destruct (count_words _); [|discriminate].
    destruct (fill_captions _ _); discriminate.
  - rewrite (enrich_moment_skips d id Hs) in H. now injection H as <-.
Qed.

(** The candidates that survive are the dicts that have a [quote] whose
    value is truthy: a candidate that is not a dict, or has no quote, or
    an empty, null, zero or false one, is left out. *)
Lemma survives_iff (candidate : json) :
  survives candidate = true <->
  exists d v,
    candidate = JDict d /\ lookup_key k_quote d = Some v /\ truthy v = true.
Proof.
  split.
  - destruct candidate as [| | | | | |d]; try discriminate.
    unfold survives. rewrite get_lookup.
    destruct (lookup_key k_quote d) as [v|] eqn:E; [|discriminate].
    intros Hv. now exists d, v.
  - intros (d & v & -> & Hq & Hv). unfold survives. now rewrite get_lookup, Hq.
Qed.

(** The loop emits, in order, one moment for each candidate that
    survives. *)
Lemma process_moments_emits (ids : nat -> str) (candidates : list json) :
  forall drawn out,
    process_moments ids candidates drawn = Ok out ->
    Forall2 (fun candidate m =>
               exists d j d',
                 candidate = JDict d /\ m = JDict d'
                 /\ enrich_moment d (ids j) = Ok (Some d'))
            (List.filter survives candidates) out.
Proof.
  induction candidates as [|c rest IH]; intros drawn out H.
  - simpl in H. injection H as <-. constructor.
  - destruct c as [| | | | | |d];
      try (simpl in H |- *; eapply IH; exact H).
    simpl in H. cbv beta iota delta [bind] in H.
    destruct (enrich_moment d (ids drawn)) as [r|] eqn:Hr; [|discriminate].
    destruct (process_moments ids rest (S drawn)) as [tail|] eqn:Ht; [|discriminate].
    injection H as <-.
    pose proof (enrich_moment_survives _ _ _ Hr) as Hs.
    cbn [List.filter]. rewrite Hs. destruct r as [m|].
    + constructor; [|eapply IH; exact Ht].
      exists d, drawn, m. auto.
    + eapply IH; exact Ht.
Qed.

End NormaliserFacts.

Section NormaliserClaims.
Import Py Json Extraction.

Ltac eval_keys :=
  repeat match goal with
         | |- context [str_eqb ?a ?b] =>
             let v := eval vm_compute in (str_eqb a b) in
             match v with
             | true => change (str_eqb a b) with true
             | false => change (str_eqb a b) with false
             end
         end;
  cbv iota.

Lemma word_based_duration_nonneg (n : Z) : 0 <= word_based_duration n.
Proof.
  unfold word_based_duration. destruct (0 <? n) eqn:E; [|lia].
  apply Z.ltb_lt in E. apply Z.div_pos; lia.
Qed.



(** C5.  Whenever the normaliser returns, every moment it emits has a
    non-empty string as [quote], a [persona_captions] dict holding all six
    keys, and a non-negative integer [clip_duration_seconds]; and the
    emitted moments are, in the order of the input, the candidates that
    are dicts with a non-empty quote (the others are left out, not given
    a default), each with the fields it came with. *)
Theorem normaliser_output_well_formed
    (ids : nat -> str) (candidates : list json) (drawn : nat) (out : list json) :
  process_moments ids candidates drawn = Ok out ->
  Forall well_formed_moment out
  /\ Forall2 enriched_from (List.filter survives candidates) out.
Proof.
  intros H. apply process_moments_emits in H.
  induction H as [|c m cs ms (d & j & d' & -> & -> & He) _ [IHw IHe]].
  - split; constructor.
  - destruct (enrich_moment_emits _ _ _ He) as (q & pc & Hq & Hne & _ & Hm).
    split; constructor; try assumption.
    + exists d'. split; [reflexivity|]. repeat split.
      * exists q. split; [|exact Hne]. rewrite Hm. eval_keys. now rewrite Hq.
      * exists (fill_all persona_keys pc). split.
        -- rewrite Hm. eval_keys. reflexivity.
        -- apply fill_all_covers.
      * eexists. split.
        -- rewrite Hm. eval_keys. reflexivity.
        -- pose proof (word_based_duration_nonneg
                         (Z.of_nat (List.length (split_ws q)))). lia.
    + exists d, d'. repeat split. intros k x Hk E1 E2 E3.
      now rewrite Hm, E1, E2, E3, Hk.
Qed.

(** The normaliser at work on a list holding a number, a moment with an
    empty quote, a moment without quote and two usable moments. *)
Lemma normaliser_output_well_formed_witness :
  exists out,
    process_moments Reference.ids0 Examples.mixed_candidates 0 = Ok out
    /\ List.length out = 2%nat
    /\ Forall well_formed_moment out
    /\ Forall2 enriched_from (List.filter survives Examples.mixed_candidates) out.
Proof.
  eexists. split; [vm_compute; reflexivity|]. split; [reflexivity|].
  apply (normaliser_output_well_formed Reference.ids0 Examples.mixed_candidates 0).
  vm_compute. reflexivity.
Defined.

(** It returns whenever no candidate has a truthy quote that is not a
    string or captions that are not a dict. *)
Lemma normaliser_returns (ids : nat -> str) (candidates : list json) :
  Forall (fun c =>
            forall d, c = JDict d ->
              (forall v, lookup_key k_quote d = Some v -> truthy v = true ->
                         exists q, v = JStr q)
              /\ (forall v, lookup_key k_persona_captions d = Some v ->
                            exists pc, v = JDict pc))
         candidates ->
  forall drawn, exists out, process_moments ids candidates drawn = Ok out.
Proof.
  induction 1 as [|c rest Hc _ IH]; intros drawn; [now exists []|].
  destruct c as [| | | | | |d]; try (simpl; apply IH).
  destruct (Hc d eq_refl) as [Hquote Hcaps].
  simpl. destruct (IH (S drawn)) as [tail Htail]. rewrite Htail.
  destruct (survives (JDict d)) eqn:Hs.
  2:{ rewrite (enrich_moment_skips d _ Hs). simpl. now exists tail. }
  unfold survives in Hs. rewrite get_lookup in Hs.
  destruct (lookup_key k_quote d) as [v|] eqn:Hq; [|discriminate].
  destruct (Hquote v eq_refl Hs) as [q ->].
  unfold enrich_moment. cbv zeta.
  rewrite !get_lookup, !ensure_timestamps_lookup, !lookup_key_set.
  change (str_eqb k_quote k_id) with false.
  change (str_eqb k_clip_duration_seconds k_id) with false. cbv iota.
  rewrite Hq, Hs. simpl negb. cbv iota.
  unfold count_words. rewrite Hs. cbv beta iota delta [bind].
  match goal with
  | |- context [fill_captions _ ?x] => set (m5 := x)
  end.
  assert (Hpc : exists pc, lookup_key k_persona_captions m5 = Some (JDict pc)).
  { subst m5. rewrite ensure_optional_lookup, lookup_key_set,
      ensure_timestamps_lookup, lookup_key_set.
    change (str_eqb k_persona_captions k_clip_duration_seconds) with false.
    change (str_eqb k_persona_captions k_id) with false.
    change (str_eqb k_persona_captions k_timestamps) with false.
    cbv iota.
    destruct (lookup_key k_persona_captions d) as [v|] eqn:Hv.
    - destruct (Hcaps v eq_refl) as [pc ->]. now exists pc.
    - simpl. now eexists. }
  destruct Hpc as [pc Hpc].
  destruct (fill_captions_total persona_keys m5 pc Hpc) as [m' ->].
  eexists. reflexivity.
Qed.




End NormaliserClaims.

(** ** The response parser *)

Section ParserFacts.
Import Py Json Extraction.

Variable json_loads : str -> option json.
Variable ids : nat -> str.

Lemma upto_last_absent (close : char) (s : str) :
  Forall (fun c => c <> close) s -> upto_last close s = None.
Proof.
  induction 1 as [|x s Hx _ IH]; simpl; [reflexivity|].
  rewrite IH. apply N.eqb_neq in Hx. now rewrite Hx.
Qed.

Lemma upto_last_app (close : char) (a post : str) :
  Forall (fun c => c <> close) post ->
  upto_last close (a ++ close :: post) = Some (a ++ [close]).
Proof.
  intros Hpost. induction a as [|x a IH]; simpl.
  - rewrite (upto_last_absent _ _ Hpost), N.eqb_refl. reflexivity.
  - now rewrite IH.
Qed.

Lemma upto_last_present (close : char) (s : str) :
  In close s -> upto_last close s <> None.
Proof.
  induction s as [|x s IH]; simpl; [contradiction|].
  intros [->|Hin].
  - destruct (upto_last close s); [discriminate|].
    rewrite N.eqb_refl. discriminate.
  - destruct (upto_last close s); [discriminate|]. now apply IH in Hin.
Qed.

(** The search returns the span from the first opening character to the
    last closing one. *)
Lemma search_span_widest (open close : char) (pre body post : str) :
  Forall (fun c => c <> open) pre ->
  Forall (fun c => c <> close) post ->
  search_span open close (pre ++ open :: body ++ close :: post)
  = Some (open :: body ++ [close]).
Proof.
  intros Hpre Hpost. induction Hpre as [|x pre Hx _ IH]; simpl.
  - rewrite N.eqb_refl, (upto_last_app _ _ _ Hpost). reflexivity.
  - apply N.eqb_neq in Hx. now rewrite Hx.
Qed.

(** It finds nothing exactly when no opening character is followed,
    however far, by a closing one. *)
Lemma search_span_none (open close : char) (s : str) :
  search_span open close s = None <->
  ~ exists pre body post, s = pre ++ open :: body ++ close :: post.
Proof.
  split.
  - intros Hnone (pre & body & post & ->).
    revert Hnone. induction pre as [|x pre IH]; simpl.
    + rewrite N.eqb_refl.
      destruct (upto_last close (body ++ close :: post)) eqn:E; [discriminate|].
      exfalso. eapply upto_last_present; [|exact E].
      apply in_or_app. right. now left.
    + destruct (N.eqb x open); [|exact IH].
      destruct (upto_last close (pre ++ open :: body ++ close :: post)) eqn:E;
        [discriminate|].
      intros _. eapply upto_last_present; [|exact E].
      apply in_or_app. right. right. apply in_or_app. right. now left.
  - intros Hno. induction s as [|x s IH]; simpl; [reflexivity|].
    destruct (N.eqb x open) eqn:Ex.
    + apply N.eqb_eq in Ex. subst x.
      destruct (upto_last close s) eqn:E.
      * exfalso. apply Hno. clear IH Hno.
        assert (Hin : exists body post, s = body ++ close :: post).
        { revert s0 E. induction s as [|y s IHs]; intros p E; simpl in E;
            [discriminate|].
          destruct (upto_last close s) eqn:E'.
          - destruct (IHs _ eq_refl) as (b & q & ->). now exists (y :: b), q.
          - destruct (N.eqb y close) eqn:Ey; [|discriminate].
            apply N.eqb_eq in Ey. subst y. now exists [], s. }
        destruct Hin as (body & post & ->). now exists [], body, post.
      * apply IH. intros (pre & body & post & ->). apply Hno.
        now exists (open :: pre), body, post.
    + apply IH. intros (pre & body & post & ->). apply Hno.
      now exists (x :: pre), body, post.
Qed.

(** C8, as amended.  When the direct parse of the cleaned text gives
    nothing: the candidate is the span from the first opening brace to the
    last closing brace, so an object is recovered when no brace stands
    before it and none after it; only when there is no such span is the
    candidate the span from the first opening bracket to the last closing
    one; the candidate is then given to the decoder; with neither span
    there is no data. *)
Theorem fallback_takes_widest_span (clean : str) :
  try_load_json json_loads clean = JNull ->
  (forall pre body post,
      clean = pre ++ 123%N :: body ++ 125%N :: post ->
      Forall (fun c => c <> 123%N) pre ->
      Forall (fun c => c <> 125%N) post ->
      load_data json_loads clean
      = try_load_json json_loads (123%N :: body ++ [125%N]))
  /\ (search_span 123%N 125%N clean = None ->
      forall pre body post,
        clean = pre ++ 91%N :: body ++ 93%N :: post ->
        Forall (fun c => c <> 91%N) pre ->
        Forall (fun c => c <> 93%N) post ->
        load_data json_loads clean
        = try_load_json json_loads (91%N :: body ++ [93%N]))
  /\ (search_span 123%N 125%N clean = None ->
      search_span 91%N 93%N clean = None ->
      load_data json_loads clean = JNull).
Proof.
  intros Hdirect. unfold load_data. rewrite Hdirect. cbv zeta.
  split; [|split].
  - intros pre body post -> Hpre Hpost.
    now rewrite (search_span_widest _ _ _ _ _ Hpre Hpost).
  - intros Hnone pre body post -> Hpre Hpost.
    now rewrite Hnone, (search_span_widest _ _ _ _ _ Hpre Hpost).
  - intros -> ->. reflexivity.
Qed.

(** An answer the decoder makes nothing of gives the empty list. *)
Lemma undecodable_gives_empty (text : str) :
  load_data json_loads (strip_code_fences text) = JNull ->
  parse_moment_response json_loads ids text = Ok [].
Proof. unfold parse_moment_response. now intros ->. Qed.

(** *** Code fences *)

Lemma fence_not_space : isspace 96%N = false.
Proof. reflexivity. Qed.

Lemma strip_code_fences_plain (body : str) :
  startswith fence (strip body) = false ->
  strip_code_fences body = strip body.
Proof.
  intros H. unfold strip_code_fences. cbv zeta. rewrite H. apply strip_idem.
Qed.

Lemma strip_code_fences_wrapped (lead tag body trail : str) :
  Forall (fun c => isspace c = true) lead ->
  Forall (fun c => isspace c = true) trail ->
  Forall (fun c => c <> 10%N) tag ->
  strip_code_fences (lead ++ (fence ++ tag ++ [10%N] ++ body ++ fence) ++ trail)
  = strip body.
Proof.
  intros Hlead Htrail Htag. unfold strip_code_fences. cbv zeta.
  assert (Hfix : strip (lead ++ (fence ++ tag ++ [10%N] ++ body ++ fence) ++ trail)
                 = fence ++ tag ++ [10%N] ++ body ++ fence).
  { replace (fence ++ tag ++ [10%N] ++ body ++ fence)
      with (96%N :: ([96; 96]%N ++ tag ++ [10%N] ++ body ++ [96; 96]%N) ++ [96%N])
      by (rewrite <- !app_assoc; reflexivity).
    apply strip_blank_around; try assumption; apply fence_not_space. }
  rewrite Hfix, startswith_app.
  replace (fence ++ tag ++ [10%N] ++ body ++ fence)
    with ((fence ++ tag) ++ 10%N :: (body ++ fence))
    by (now rewrite <- !app_assoc).
  rewrite find_app_absent.
  2:{ apply Forall_app. split; [|exact Htag].
      repeat constructor; discriminate. }
  unfold slice_from. rewrite skipn_succ_app, endswith_app.
  change 3%nat with (List.length fence). now rewrite drop_last_app.
Qed.

(** C9.  A response that is an opening fence line (three backquotes and
    any tag up to the end of the line), a content and a closing fence,
    with or without blanks around the whole, gives the same result as the
    content alone, the content not being itself fenced (its first
    non-blank characters are not a fence). *)
Theorem fenced_response_parses_as_content (lead tag body trail : str) :
  Forall (fun c => isspace c = true) lead ->
  Forall (fun c => isspace c = true) trail ->
  Forall (fun c => c <> 10%N) tag ->
  startswith fence (strip body) = false ->
  parse_moment_response json_loads ids
    (lead ++ (fence ++ tag ++ [10%N] ++ body ++ fence) ++ trail)
  = parse_moment_response json_loads ids body.
Proof.
  intros Hlead Htrail Htag Hbody. unfold parse_moment_response.
  now rewrite (strip_code_fences_wrapped _ _ _ _ Hlead Htrail Htag),
    (strip_code_fences_plain _ Hbody).
Qed.

End ParserFacts.

Section ParserExamples.
Import Py Json Extraction.

(** C1 fails on the code: an answer whose [moments] is a number is valid
    JSON, it is not a list, and iterating over it raises [TypeError]. *)
Theorem parse_raises_on_scalar_moments :
  loads Examples.scalar_moments_text = Some (JDict [(k_moments, JInt 5)])
  /\ parse_moment_response loads Reference.ids0 Examples.scalar_moments_text
     = Raise TypeError.
Proof. split; vm_compute; reflexivity. Qed.

(** An object between two pieces of prose without braces is recovered. *)
Lemma fallback_takes_widest_span_witness :
  let clean := Examples.prose_before ++ Examples.embedded_object ++ Examples.prose_after in
  try_load_json loads clean = JNull
  /\ load_data loads clean = try_load_json loads Examples.embedded_object
  /\ loads Examples.embedded_object
     = Some (JDict [(k_moments, JList [JDict [(k_quote, JStr (lit "hi"))]])]).
Proof.
  cbv zeta. split; [vm_compute; reflexivity|]. split; [|vm_compute; reflexivity].
  apply (proj1 (fallback_takes_widest_span loads
                  (Examples.prose_before ++ Examples.embedded_object
                   ++ Examples.prose_after)
                  ltac:(vm_compute; reflexivity))
           Examples.prose_before Examples.embedded_body Examples.prose_after).
  - unfold Examples.embedded_object. now rewrite <- !app_assoc.
  - vm_compute. repeat constructor; discriminate.
  - vm_compute. repeat constructor; discriminate.
Defined.

(** C8 as stated fails: a valid object that follows prose holding a pair
    of braces is not recovered; the candidate starts at the first brace
    of the prose and does not decode. *)
Lemma embedded_object_not_recovered :
  let clean := Examples.prose_with_braces ++ Examples.embedded_object in
  loads Examples.embedded_object
  = Some (JDict [(k_moments, JList [JDict [(k_quote, JStr (lit "hi"))]])])
  /\ try_load_json loads clean = JNull
  /\ search_span 123%N 125%N clean
     = Some (lit "{braces} like this: " ++ Examples.embedded_object)
  /\ load_data loads clean = JNull
  /\ parse_moment_response loads Reference.ids0 clean = Ok [].
Proof. cbv zeta. repeat split; vm_compute; reflexivity. Qed.

(** The example of the specification inside a fence tagged [json],
    followed by a line feed. *)
Lemma fenced_response_parses_as_content_witness :
  Forall (fun c => c <> 10%N) Examples.fence_tag
  /\ startswith fence (strip Examples.fenced_body) = false
  /\ parse_moment_response loads Reference.ids0
       ([] ++ (fence ++ Examples.fence_tag ++ [10%N] ++ Examples.fenced_body ++ fence)
        ++ [10%N])
     = parse_moment_response loads Reference.ids0 Examples.fenced_body
  /\ exists m, parse_moment_response loads Reference.ids0 Examples.fenced_body = Ok [m].
Proof.
  assert (Htag : Forall (fun c => c <> 10%N) Examples.fence_tag)
    by (vm_compute; repeat constructor; discriminate).
  assert (Hbody : startswith fence (strip Examples.fenced_body) = false)
    by (vm_compute; reflexivity).
  split; [exact Htag|]. split; [exact Hbody|]. split.
  - apply (fenced_response_parses_as_content loads Reference.ids0
             [] Examples.fence_tag Examples.fenced_body [10%N]);
      try assumption; repeat constructor.
  - eexists. vm_compute. reflexivity.
Defined.

(** Other answers that decode and still make the parser raise: a quote
    that is a number has no [split], captions that are [null] have no
    [setdefault]. *)
Lemma parse_raises_on_other_shapes :
  parse_moment_response loads Reference.ids0 (jlit "[{'quote': 5}]")
  = Raise AttributeError
  /\ parse_moment_response loads Reference.ids0
       (jlit "[{'quote': 'a', 'persona_captions': null}]")
     = Raise AttributeError
  /\ parse_moment_response loads Reference.ids0 (jlit "{'moments': null}")
     = Raise TypeError.
Proof. repeat split; vm_compute; reflexivity. Qed.

End ParserExamples.

(** ** The cache *)

Section CacheFacts.
Import Py Json Config Runtime CacheUtils.
Import stdpp.gmap.

Variable cfg : settings.
Variable lib : library.

Lemma _get_cache_dir_ok (d : disk) (dir : str) (d' : disk) :
  _get_cache_dir cfg d = Ok (dir, d') ->
  dir = CACHE_DIR cfg /\ files d' = files d /\ writable d' = writable d
  /\ dir_exists d' = true.
Proof.
  unfold _get_cache_dir. destruct (dir_exists d) eqn:E.
  - intros [= <- <-]. repeat split; assumption.
  - destruct (writable d) eqn:W; [|discriminate]. intros [= <- <-].
    simpl. repeat split; exact W.
Qed.

Lemma _get_cache_path_ok (key : str) (d : disk) (path : str) (d' : disk) :
  _get_cache_path cfg key d = Ok (path, d') ->
  path = path_join (CACHE_DIR cfg) (key ++ lit ".json")
  /\ files d' = files d /\ writable d' = writable d /\ dir_exists d' = true.
Proof.
  unfold _get_cache_path. destruct (_get_cache_dir cfg d) as [[dir d1]|] eqn:E;
    [|discriminate].
  simpl. intros [= <- <-].
  destruct (_get_cache_dir_ok _ _ _ E) as (-> & ? & ? & ?). repeat split; assumption.
Qed.

Lemma _get_cache_path_ready (key : str) (d : disk) :
  dir_exists d = true ->
  _get_cache_path cfg key d = Ok (path_join (CACHE_DIR cfg) (key ++ lit ".json"), d).
Proof. intros H. unfold _get_cache_path, _get_cache_dir. now rewrite H. Qed.

Lemma _get_cache_path_writable (key : str) (d : disk) :
  writable d = true ->
  exists d', _get_cache_path cfg key d
             = Ok (path_join (CACHE_DIR cfg) (key ++ lit ".json"), d').
Proof.
  intros H. unfold _get_cache_path, _get_cache_dir.
  destruct (dir_exists d); [|rewrite H]; simpl; eexists; reflexivity.
Qed.

(** A lookup never changes the files. *)
Lemma get_cached_moments_frame (d : disk) (t : str) (md : option dict) :
  files (snd (get_cached_moments cfg lib d t md)) = files d
  /\ writable (snd (get_cached_moments cfg lib d t md)) = writable d.
Proof.
  unfold get_cached_moments. destruct (CACHE_ENABLED cfg); simpl; [|auto].
  destruct (_get_cache_path cfg _ d) as [[path d']|] eqn:E; [|auto].
  destruct (_get_cache_path_ok _ _ _ _ E) as (_ & Hf & Hw & _). auto.
Qed.

Lemma read_entry_files (d d' : disk) (path : str) :
  files d' = files d -> read_entry lib d' path = read_entry lib d path.
Proof. unfold read_entry. now intros ->. Qed.

(** A lookup of a key whose file does not exist gives nothing. *)
Lemma get_cached_moments_absent (d : disk) (t : str) (md : option dict) :
  files d !! cache_file cfg lib t md = None ->
  fst (get_cached_moments cfg lib d t md) = None.
Proof.
  intros Habsent. unfold get_cached_moments.
  destruct (CACHE_ENABLED cfg); simpl; [|reflexivity].
  destruct (_get_cache_path cfg _ d) as [[path d']|] eqn:E; [|reflexivity].
  destruct (_get_cache_path_ok _ _ _ _ E) as (-> & Hf & _ & _).
  simpl. rewrite (read_entry_files _ _ _ Hf). unfold read_entry.
  unfold cache_file in Habsent. unfold str, char in *.
  now rewrite Habsent.
Qed.

(** A lookup that gave nothing gives nothing again on the disk it
    leaves. *)
Lemma get_cached_moments_again (d : disk) (t : str) (md : option dict) :
  fst (get_cached_moments cfg lib d t md) = None ->
  get_cached_moments cfg lib (snd (get_cached_moments cfg lib d t md)) t md
  = (None, snd (get_cached_moments cfg lib d t md)).
Proof.
  unfold get_cached_moments. destruct (CACHE_ENABLED cfg) eqn:En; simpl.
  2:{ intros _. reflexivity. }
  destruct (_get_cache_path cfg _ d) as [[path d']|] eqn:E; simpl.
  2:{ intros _. now rewrite E. }
  destruct (_get_cache_path_ok _ _ _ _ E) as (-> & Hf & Hw & Hd).
  intros Hmiss. rewrite (_get_cache_path_ready _ _ Hd). now rewrite Hmiss.
Qed.




End CacheFacts.

Section CacheExamples.
Import Py Json Config Runtime CacheUtils.
Import stdpp.gmap.


End CacheExamples.

(** ** The orchestrator *)

Section ClientFacts.
Import Py Json Config Runtime CacheUtils LlmClient.

Variable cfg : settings.
Variable lib : library.
Variable SYSTEM_PROMPT : str.

Lemma strip_empty_iff_blank (s : str) :
  strip s = [] <-> Forall (fun c => isspace c = true) s.
Proof.
  unfold strip. split.
  - induction s as [|c s IH]; intros H; [constructor|].
    simpl in H. destruct (isspace c) eqn:Hc.
    + constructor; [exact Hc | exact (IH H)].
    + destruct (rstrip_keeps_head c s Hc) as [t Ht]. rewrite Ht in H. discriminate.
  - induction 1 as [|c s Hc _ IH]; [reflexivity|].
    simpl. now rewrite Hc.
Qed.

Section OneCall.

Variable w : world.

Local Abbreviation process_single := (_process_single_chunk cfg lib SYSTEM_PROMPT w).
Local Abbreviation process_parallel := (_process_chunks_parallel cfg lib SYSTEM_PROMPT w).
Local Abbreviation attempt := (chunk_attempt cfg lib SYSTEM_PROMPT w).

Lemma collect_fold (l : list chunk_data) :
  forall acc,
    fold_left
      (fun all_moments data =>
         match process_single data with
         | [] => all_moments
         | chunk_moments => all_moments ++ chunk_moments
         end) l acc
    = acc ++ flat_map process_single l.
Proof.
  induction l as [|data l IH]; intros acc; simpl; [now rewrite app_nil_r|].
  rewrite IH. destruct (process_single data) as [|m ms]; simpl.
  - reflexivity.
  - now rewrite <- app_assoc.
Qed.

(** With a positive bound on the workers the aggregate is the results
    of the chunks, one after the other in the order of completion. *)
Lemma process_parallel_flat (chunks : list str) :
  0 < MAX_PARALLEL_CHUNKS cfg ->
  process_parallel chunks
  = Ok (flat_map process_single
          (as_completed w (enumerate_chunks chunks 1 (List.length chunks)))).
Proof.
  intros Hpool. unfold _process_chunks_parallel. cbv zeta.
  destruct (MAX_PARALLEL_CHUNKS cfg <=? 0) eqn:E; [apply Z.leb_le in E; lia|].
  now rewrite collect_fold.
Qed.

Lemma process_parallel_member (chunks : list str) (all_moments : list json) (m : json) :
  process_parallel chunks = Ok all_moments ->
  (In m all_moments <->
   exists data,
     In data (enumerate_chunks chunks 1 (List.length chunks))
     /\ In m (process_single data)).
Proof.
  unfold _process_chunks_parallel. cbv zeta.
  destruct (MAX_PARALLEL_CHUNKS cfg <=? 0); [discriminate|].
  rewrite collect_fold. intros [= <-]. simpl.
  rewrite in_flat_map. split; intros (data & Hin & Hm);
    exists data; (split; [|exact Hm]).
  - eapply Permutation_in; [apply as_completed_perm | exact Hin].
  - eapply Permutation_in; [apply Permutation_sym, as_completed_perm | exact Hin].
Qed.

Lemma process_parallel_all_empty (chunks : list str) :
  0 < MAX_PARALLEL_CHUNKS cfg ->
  (forall data, In data (enumerate_chunks chunks 1 (List.length chunks)) ->
                process_single data = []) ->
  process_parallel chunks = Ok [].
Proof.
  intros Hpool Hall. pose proof (process_parallel_flat chunks Hpool) as Hflat.
  rewrite Hflat. f_equal.
  destruct (flat_map process_single _) as [|m ms] eqn:E; [reflexivity|].
  assert (Hin : In m (m :: ms)) by now left.
  apply (process_parallel_member chunks (m :: ms) m) in Hin as (data & Hd & Hm);
    [|exact Hflat].
  rewrite (Hall data Hd) in Hm. contradiction.
Qed.

Lemma extract_moments_outcome (d : disk) (transcript : str) (md : option dict) :
  0 < MAX_PARALLEL_CHUNKS cfg ->
  match strip transcript with
  | [] => extract_moments cfg lib SYSTEM_PROMPT w d transcript md
          = (Raise RuntimeError, d)
  | _ :: _ =>
      exists moments d',
        extract_moments cfg lib SYSTEM_PROMPT w d transcript md = (Ok moments, d')
  end.
Proof.
  intros Hpool.
  unfold extract_moments. cbv zeta. destruct (strip transcript) as [|c s]; [reflexivity|].
  destruct (get_cached_moments cfg lib d (c :: s) md) as [[cached|] d1].
  - now exists cached, d1.
  - rewrite (process_parallel_flat _ Hpool).
    destruct (flat_map _ _) as [|m ms].
    + now exists [], d1.
    + eexists. eexists. reflexivity.
Qed.

(** C3.  With a positive bound on the worker pool (the shipped one is
    3), the orchestrator raises exactly when the transcript is empty once
    stripped, that is when it holds only blanks, and otherwise returns a
    list.  An exception raised anywhere in the processing of a chunk (by
    the endpoint or by the parser) gives the empty list for that chunk,
    and a moment of any chunk is in the aggregate whatever the other
    chunks did.  When every chunk gives the empty list the aggregate is
    empty, and on a cache miss the orchestrator then returns the empty
    list. *)
Theorem extract_moments_raises_only_on_empty_input
    (d : disk) (transcript : str) (md : option dict) :
  0 < MAX_PARALLEL_CHUNKS cfg ->
  ((exists e, fst (extract_moments cfg lib SYSTEM_PROMPT w d transcript md) = Raise e)
   <-> Forall (fun c => isspace c = true) transcript)
  /\ (~ Forall (fun c => isspace c = true) transcript ->
      exists moments,
        fst (extract_moments cfg lib SYSTEM_PROMPT w d transcript md) = Ok moments)
  /\ (forall data e, attempt data = Raise e -> process_single data = [])
  /\ (forall chunks data m,
        In data (enumerate_chunks chunks 1 (List.length chunks)) ->
        In m (process_single data) ->
        exists all_moments,
          process_parallel chunks = Ok all_moments /\ In m all_moments)
  /\ (forall chunks,
        (forall data, In data (enumerate_chunks chunks 1 (List.length chunks)) ->
                      process_single data = []) ->
        process_parallel chunks = Ok [])
  /\ (~ Forall (fun c => isspace c = true) transcript ->
      fst (get_cached_moments cfg lib d (strip transcript) md) = None ->
      (forall data,
          In data (enumerate_chunks (chunk_transcript cfg (strip transcript)) 1
                     (List.length (chunk_transcript cfg (strip transcript)))) ->
          process_single data = []) ->
      fst (extract_moments cfg lib SYSTEM_PROMPT w d transcript md) = Ok []).
Proof.
  intros Hpool.
  pose proof (extract_moments_outcome d transcript md Hpool) as Hout.
  pose proof (strip_empty_iff_blank transcript) as Hblank.
  repeat split.
  - intros [e Hraise]. apply Hblank.
    destruct (strip transcript); [reflexivity|].
    destruct Hout as (ms & d' & E). rewrite E in Hraise. discriminate.
  - intros Hall. apply Hblank in Hall. rewrite Hall in Hout.
    exists RuntimeError. now rewrite Hout.
  - intros Hnot. destruct (strip transcript).
    + exfalso. apply Hnot. now apply Hblank.
    + destruct Hout as (ms & d' & E). exists ms. now rewrite E.
  - intros data e Hfail. unfold _process_single_chunk. now rewrite Hfail.
  - intros chunks data m Hd Hm. eexists. split.
    + apply process_parallel_flat. exact Hpool.
    + apply in_flat_map. exists data. split; [|exact Hm].
      eapply Permutation_in; [apply Permutation_sym, as_completed_perm | exact Hd].
  - intros chunks. now apply process_parallel_all_empty.
  - intros Hnot Hmiss Hall. unfold extract_moments. cbv zeta.
    destruct (strip transcript) as [|c s] eqn:Es.
    + exfalso. apply Hnot. now apply Hblank.
    + destruct (get_cached_moments cfg lib d (c :: s) md) as [cached d1].
      simpl in Hmiss. subst cached.
      now rewrite (process_parallel_all_empty _ Hpool Hall).
Qed.

End OneCall.

(** C10.  On a cache miss, when the chunks yield no moment at all, the
    orchestrator returns the empty list and leaves every file as it was
    (the lookup may have created the cache directory; nothing is stored in
    it), so a later call with the same transcript and metadata, whatever
    the endpoint then answers, misses again and returns what processing
    the chunks gives.  In general the files change only when the call
    returns at least one moment that it has just extracted. *)
Theorem empty_result_is_not_cached
    (w : world) (d : disk) (transcript : str) (md : option dict) :
  strip transcript <> [] ->
  fst (get_cached_moments cfg lib d (strip transcript) md) = None ->
  _process_chunks_parallel cfg lib SYSTEM_PROMPT w
    (chunk_transcript cfg (strip transcript)) = Ok [] ->
  fst (extract_moments cfg lib SYSTEM_PROMPT w d transcript md) = Ok []
  /\ files (snd (extract_moments cfg lib SYSTEM_PROMPT w d transcript md)) = files d
  /\ (forall w2,
        fst (extract_moments cfg lib SYSTEM_PROMPT w2
               (snd (extract_moments cfg lib SYSTEM_PROMPT w d transcript md))
               transcript md)
        = _process_chunks_parallel cfg lib SYSTEM_PROMPT w2
            (chunk_transcript cfg (strip transcript)))
  /\ (forall w0 d0 t0 md0,
        files (snd (extract_moments cfg lib SYSTEM_PROMPT w0 d0 t0 md0)) <> files d0 ->
        fst (get_cached_moments cfg lib d0 (strip t0) md0) = None
        /\ exists m ms,
             _process_chunks_parallel cfg lib SYSTEM_PROMPT w0
               (chunk_transcript cfg (strip t0)) = Ok (m :: ms)
             /\ fst (extract_moments cfg lib SYSTEM_PROMPT w0 d0 t0 md0) = Ok (m :: ms)).
Proof.
  intros Hne Hmiss Hempty.
  pose proof (get_cached_moments_frame cfg lib d (strip transcript) md) as [Hf _].
  pose proof (get_cached_moments_again cfg lib d (strip transcript) md Hmiss) as Hagain.
  assert (Hrun : extract_moments cfg lib SYSTEM_PROMPT w d transcript md
                 = (Ok [], snd (get_cached_moments cfg lib d (strip transcript) md))).
  { unfold extract_moments. cbv zeta.
    destruct (strip transcript) as [|c s] eqn:Es; [contradiction|].
    destruct (get_cached_moments cfg lib d (c :: s) md) as [cached d1].
    simpl in Hmiss. subst cached. now rewrite Hempty. }
  rewrite Hrun. simpl. split; [reflexivity|]. split; [exact Hf|]. split.
  - intros w2. unfold extract_moments. cbv zeta.
    destruct (strip transcript) as [|c s] eqn:Es; [contradiction|].
    rewrite Hagain.
    now destruct (_process_chunks_parallel cfg lib SYSTEM_PROMPT w2 _) as [[|m ms]|].
  - intros w0 d0 t0 md0. unfold extract_moments. cbv zeta.
    destruct (strip t0) as [|c s]; [intros H; now contradiction H|].
    pose proof (get_cached_moments_frame cfg lib d0 (c :: s) md0) as [Hf0 _].
    destruct (get_cached_moments cfg lib d0 (c :: s) md0) as [[cached|] d1];
      simpl in *; [intros H; now contradiction H|].
    destruct (_process_chunks_parallel cfg lib SYSTEM_PROMPT w0 _) as [[|m ms]|];
      simpl; try (intros H; now contradiction H).
    intros _. split; [reflexivity|]. now exists m, ms.
Qed.

End ClientFacts.

Section ClientExamples.
Import Py Json Config Runtime CacheUtils LlmClient.

(** Two chunks, the endpoint failing on the first: the call returns the
    moment of the second; a transcript of blanks raises. *)
Lemma extract_moments_raises_only_on_empty_input_witness :
  let w := Reference.world_of Examples.second_chunk_only in
  chunk_transcript Examples.small_chunks Examples.two_lines
  = [lit "first line"; lit "other line"]
  /\ chunk_attempt Examples.small_chunks Reference.lib [] w (lit "first line", 1%nat, 2%nat)
     = Raise LLMError
  /\ _process_single_chunk Examples.small_chunks Reference.lib [] w
       (lit "first line", 1%nat, 2%nat) = []
  /\ (exists m,
        fst (extract_moments Examples.small_chunks Reference.lib [] w
               Reference.empty_disk Examples.two_lines None) = Ok [m])
  /\ (exists e,
        fst (extract_moments Examples.small_chunks Reference.lib [] w
               Reference.empty_disk (lit "  ") None) = Raise e).
Proof.
  cbv zeta.
  pose proof (extract_moments_raises_only_on_empty_input
                Examples.small_chunks Reference.lib []
                (Reference.world_of Examples.second_chunk_only)
                Reference.empty_disk (lit "  ") None eq_refl)
    as (Hraise & _ & Habsorb & _).
  assert (Hfail : chunk_attempt Examples.small_chunks Reference.lib []
                    (Reference.world_of Examples.second_chunk_only)
                    (lit "first line", 1%nat, 2%nat) = Raise LLMError)
    by (vm_compute; reflexivity).
  split; [vm_compute; reflexivity|].
  split; [exact Hfail|].
  split; [exact (Habsorb _ _ Hfail)|].
  split; [eexists; vm_compute; reflexivity|].
  apply Hraise. vm_compute. repeat constructor.
Defined.

(** A first call in which the endpoint finds nothing, then a second call
    in which it finds a moment: the first leaves no file, the second
    computes. *)
Lemma empty_result_is_not_cached_witness :
  let first := extract_moments Examples.small_chunks Reference.lib []
                 (Reference.world_of Examples.no_moments)
                 Reference.empty_disk Examples.two_lines None in
  fst first = Ok []
  /\ files (snd first) = files Reference.empty_disk
  /\ exists m1 m2,
       fst (extract_moments Examples.small_chunks Reference.lib []
              (Reference.world_of Examples.always_answers)
              (snd first) Examples.two_lines None) = Ok [m1; m2].
Proof.
  cbv zeta.
  destruct (empty_result_is_not_cached Examples.small_chunks Reference.lib []
              (Reference.world_of Examples.no_moments)
              Reference.empty_disk Examples.two_lines None
              ltac:(vm_compute; discriminate)
              ltac:(vm_compute; reflexivity)
              ltac:(vm_compute; reflexivity)) as (Hres & Hfiles & Hagain & _).
  split; [exact Hres|]. split; [exact Hfiles|].
  eexists. eexists.
  rewrite (Hagain (Reference.world_of Examples.always_answers)).
  vm_compute. reflexivity.
Defined.

(** Two chunks that both yield a moment: the aggregate holds the two
    moments, in the order in which the workers complete. *)
Lemma completion_order_shows :
  exists m1 m2,
    m1 <> m2
    /\ fst (extract_moments Examples.small_chunks Reference.lib []
              (Reference.world_of Examples.always_answers)
              Reference.empty_disk Examples.two_lines None) = Ok [m1; m2]
    /\ fst (extract_moments Examples.small_chunks Reference.lib []
              (Reference.world_reversed Examples.always_answers)
              Reference.empty_disk Examples.two_lines None) = Ok [m2; m1].
Proof.
  do 2 eexists. split; [|split; vm_compute; reflexivity].
  vm_compute. discriminate.
Qed.

End ClientExamples.

(** ** The clip hand-off *)

Section ExportFacts.
Import Py Json Runtime ExportUtils.










(** The export returns on moments whose fields have the expected types. *)
Lemma clip_of_moment_returns (idx : nat) (moment : dict) :
  export_ready moment -> exists r, clip_of_moment idx moment = Ok r.
Proof.
  intros ((cut_sheet & Hcs & (sin & Hin) & (sout & Hout)) & (sts & Hts) & (dur & Hdur)
          & Hfin).
  unfold start_source, end_seconds, known_duration, cut_sheet_of, text_field,
    range_of, seconds_of in Hfin.
  unfold clip_of_moment. rewrite Hcs in *. rewrite Hin, Hout, Hts, Hdur in *.
  cbv beta iota delta [bind strip_value] in *.
  destruct (strip sin) as [|c p].
  - destruct (match_range (strip sts)) as [[start_raw end_raw]|]; simpl in *;
      [|now eexists].
    destruct Hfin as [Hs He].
    destruct dur as [d|]; simpl in *.
    + destruct (timestamp_to_seconds (normalize_timestamp start_raw)); try contradiction.
      destruct (fadd (fadd (FFin q) d) buffer); try contradiction.
      simpl. now eexists.
    + destruct (strip sout) as [|c' p']; simpl in *.
      * destruct (timestamp_to_seconds (normalize_timestamp start_raw)); try contradiction.
        destruct (timestamp_to_seconds (normalize_timestamp end_raw)); try contradiction.
        simpl. now eexists.
      * destruct (timestamp_to_seconds (normalize_timestamp start_raw)); try contradiction.
        destruct (timestamp_to_seconds (normalize_timestamp (c' :: p')));
          try contradiction.
        simpl. now eexists.
  - destruct Hfin as [Hs He].
    destruct dur as [d|]; simpl in *.
    + destruct (timestamp_to_seconds (normalize_timestamp (c :: p))); try contradiction.
      destruct (fadd (fadd (FFin q) d) buffer); try contradiction.
      simpl. now eexists.
    + destruct (strip sout) as [|c' p']; simpl in *.
      * destruct (match_range (strip sts)) as [[start_raw end_raw]|]; simpl in *;
          [|now eexists].
        destruct (timestamp_to_seconds (normalize_timestamp (c :: p))); try contradiction.
        destruct (timestamp_to_seconds (normalize_timestamp end_raw)); try contradiction.
        simpl. now eexists.
      * destruct (timestamp_to_seconds (normalize_timestamp (c :: p))); try contradiction.
        destruct (timestamp_to_seconds (normalize_timestamp (c' :: p')));
          try contradiction.
        simpl. now eexists.
Qed.

Lemma ffmpeg_clips_returns (moments : list dict) :
  Forall export_ready moments -> exists clips, ffmpeg_clips moments = Ok clips.
Proof.
  unfold ffmpeg_clips. intros Hall. generalize 1%nat.
  induction Hall as [|m rest Hm _ IH]; intros n; simpl; [now eexists|].
  destruct (clip_of_moment_returns n m Hm) as [r ->].
  destruct (IH (S n)) as [tail ->]. simpl. now eexists.
Qed.

End ExportFacts.

Section ExportExamples.
Import Py Json Runtime ExportUtils.



(** A range written with an en dash reads like one written with a
    hyphen. *)
Lemma match_range_en_dash :
  match_range (lit "01:10.50" ++ [8211%N] ++ lit "01:20.00")
  = Some (lit "01:10.50", lit "01:20.00").
Proof. vm_compute. reflexivity. Qed.

End ExportExamples.

(** ** Decimal digits *)

Section DigitFacts.
Import Py.

Lemma isdigit_cases (c : char) :
  isdigit c = true ->
  c = 48%N \/ c = 49%N \/ c = 50%N \/ c = 51%N \/ c = 52%N \/ c = 53%N \/ c = 54%N
  \/ c = 55%N \/ c = 56%N \/ c = 57%N.
Proof.
  unfold isdigit. intros H. apply andb_true_iff in H as [H1 H2].
  apply N.leb_le in H1, H2. lia.
Qed.

Ltac digit_cases H :=
  apply isdigit_cases in H;
  repeat (destruct H as [H|H]); subst.

Lemma isdigit_not_space (c : char) : isdigit c = true -> isspace c = false.
Proof. intros H. digit_cases H; reflexivity. Qed.

Lemma isdigit_value (c : char) : isdigit c = true -> 0 <= Z.of_N c - 48 <= 9.
Proof. intros H. digit_cases H; simpl; lia. Qed.

(** A text without blanks at its ends is its own [strip()]. *)
Lemma rstrip_no_space (s : str) :
  Forall (fun c => isspace c = false) s -> rstrip s = s.
Proof.
  induction 1 as [|c s Hc _ IH]; [reflexivity|].
  rewrite rstrip_cons, IH. destruct s; [now rewrite Hc|reflexivity].
Qed.

Lemma strip_no_space (s : str) :
  Forall (fun c => isspace c = false) s -> strip s = s.
Proof.
  intros H. unfold strip.
  assert (Hl : lstrip s = s) by (destruct H as [|c s Hc]; simpl; [|rewrite Hc]; reflexivity).
  rewrite Hl. now apply rstrip_no_space.
Qed.

Lemma span_digits_app (ds rest : str) :
  Forall (fun c => isdigit c = true) ds ->
  match rest with [] => True | c :: _ => isdigit c = false end ->
  span_digits (ds ++ rest) = (ds, rest).
Proof.
  intros Hds Hrest. induction Hds as [|c ds Hc _ IH]; simpl.
  - destruct rest as [|c r]; [reflexivity|]. simpl. now rewrite Hrest.
  - now rewrite Hc, IH.
Qed.

Lemma span_digits_all (ds : str) :
  Forall (fun c => isdigit c = true) ds -> span_digits ds = (ds, []).
Proof.
  intros H. rewrite <- (app_nil_r ds) at 1. now apply span_digits_app.
Qed.

(** The digits a span takes are digits, and what it leaves does not
    start with one. *)
Lemma span_digits_spec (s : str) :
  s = fst (span_digits s) ++ snd (span_digits s)
  /\ Forall (fun c => isdigit c = true) (fst (span_digits s))
  /\ match snd (span_digits s) with [] => True | c :: _ => isdigit c = false end.
Proof.
  induction s as [|c s IH]; simpl; [repeat split; constructor|].
  destruct (isdigit c) eqn:Hc.
  - destruct (span_digits s) as [d rest]. simpl in *.
    destruct IH as (-> & Hd & Hrest). repeat split; [now constructor|exact Hrest].
  - simpl. repeat split; [constructor|exact Hc].
Qed.

Lemma digits_us_digits (ds : str) :
  Forall (fun c => isdigit c = true) ds ->
  forall prev, ds <> [] \/ prev = true -> digits_us prev ds = Some ds.
Proof.
  induction 1 as [|c ds Hc _ IH]; intros prev Hne; simpl.
  - destruct Hne as [Hne| ->]; [contradiction|reflexivity].
  - rewrite Hc. rewrite IH by now right. reflexivity.
Qed.

Lemma Z_of_digits_from (ds : str) :
  forall acc,
    fold_left (fun acc c => 10 * acc + (Z.of_N c - 48)) ds acc
    = acc * 10 ^ Z.of_nat (List.length ds) + Z_of_digits ds.
Proof.
  unfold Z_of_digits. induction ds as [|c ds IH]; intros acc.
  - simpl. lia.
  - cbn [fold_left List.length]. rewrite IH. rewrite (IH (10 * 0 + _)).
    rewrite Nat2Z.inj_succ, Z.pow_succ_r by lia. ring.
Qed.

Lemma Z_of_digits_app (a b : str) :
  Z_of_digits (a ++ b) = Z_of_digits a * 10 ^ Z.of_nat (List.length b) + Z_of_digits b.
Proof.
  unfold Z_of_digits at 1. rewrite fold_left_app. rewrite Z_of_digits_from.
  reflexivity.
Qed.

Lemma Z_of_digits_bounds (ds : str) :
  Forall (fun c => isdigit c = true) ds ->
  0 <= Z_of_digits ds < 10 ^ Z.of_nat (List.length ds).
Proof.
  induction ds as [|c ds IH] using rev_ind; intros H.
  - simpl. unfold Z_of_digits. simpl. lia.
  - apply Forall_app in H as [Hds Hc]. specialize (IH Hds).
    apply Forall_inv in Hc. apply isdigit_value in Hc.
    rewrite Z_of_digits_app, length_app. simpl List.length.
    replace (Z.of_nat (List.length ds + 1)) with (Z.succ (Z.of_nat (List.length ds))) by lia.
    rewrite Z.pow_succ_r by lia.
    change (Z.of_nat 1) with 1. rewrite Z.pow_1_r.
    change (Z_of_digits [c]) with (10 * 0 + (Z.of_N c - 48)). lia.
Qed.

(** [int()] of a run of digits. *)
Lemma int_of_str_digits (ds : str) :
  Forall (fun c => isdigit c = true) ds -> ds <> [] ->
  int_of_str ds = Some (Z_of_digits ds).
Proof.
  intros H Hne. unfold int_of_str.
  rewrite strip_no_space
    by (eapply Forall_impl; [|exact H]; intros c Hc; now apply isdigit_not_space).
  destruct ds as [|c ds]; [contradiction|].
  pose proof (Forall_inv H) as Hc. simpl in Hc.
  assert (Hsign : take_sign (c :: ds) = (false, c :: ds)).
  { digit_cases Hc; reflexivity. }
  rewrite Hsign. now rewrite digits_us_digits by (auto; left; discriminate).
Qed.

(** The digits of a number. *)
Lemma uint_digits (u : Decimal.uint) :
  Forall (fun c => isdigit c = true) (lit (NilEmpty.string_of_uint u)).
Proof. induction u; simpl; constructor; auto. Qed.

Lemma uint_value_acc (u : Decimal.uint) :
  forall acc,
    fold_left (fun acc c => 10 * acc + (Z.of_N c - 48)) (lit (NilEmpty.string_of_uint u))
              (Zpos acc)
    = Zpos (Pos.of_uint_acc u acc).
Proof.
  induction u; intros acc; [reflexivity|..];
    cbn [NilEmpty.string_of_uint lit list_ascii_of_string List.map fold_left Pos.of_uint_acc];
    rewrite <- IHu; f_equal; simpl; lia.
Qed.

Lemma uint_value (u : Decimal.uint) :
  Z_of_digits (lit (NilEmpty.string_of_uint u)) = Z.of_N (Pos.of_uint u).
Proof.
  unfold Z_of_digits. induction u; [reflexivity|exact IHu|..];
    cbn [NilEmpty.string_of_uint lit list_ascii_of_string List.map fold_left Pos.of_uint];
    apply uint_value_acc.
Qed.

Lemma str_of_Z_digits (z : Z) :
  0 <= z -> Forall (fun c => isdigit c = true) (str_of_Z z).
Proof.
  intros Hz. destruct z as [|p|p]; [repeat constructor| |lia].
  apply uint_digits.
Qed.

Lemma str_of_Z_value (z : Z) : 0 <= z -> Z_of_digits (str_of_Z z) = z.
Proof.
  intros Hz. destruct z as [|p|p]; [reflexivity| |lia].
  unfold str_of_Z. simpl Z.to_int. cbn [NilEmpty.string_of_int].
  now rewrite uint_value, DecimalPos.Unsigned.of_to.
Qed.

Lemma str_of_Z_nonempty (z : Z) : 0 <= z -> str_of_Z z <> [].
Proof.
  intros Hz E. destruct z as [|p|p]; [discriminate E| |lia].
  pose proof (str_of_Z_value (Zpos p) Hz) as V. rewrite E in V. discriminate V.
Qed.

(** [int(str(n)) == n] *)
Lemma int_of_str_of_Z (z : Z) : 0 <= z -> int_of_str (str_of_Z z) = Some z.
Proof.
  intros Hz. rewrite int_of_str_digits.
  - now rewrite str_of_Z_value.
  - now apply str_of_Z_digits.
  - now apply str_of_Z_nonempty.
Qed.

End DigitFacts.

(** ** More on the cache *)

Section CacheMore.
Import Py Json Config Runtime CacheUtils.
Import stdpp.gmap.

Variable cfg : settings.
Variable lib : library.

(** With the cache enabled and a directory that exists or can be made, a
    lookup is the reading of the file of the key. *)
Lemma get_cached_moments_reads (d : disk) (t : str) (md : option dict) :
  CACHE_ENABLED cfg = true ->
  dir_exists d = true \/ writable d = true ->
  fst (get_cached_moments cfg lib d t md) = read_entry lib d (cache_file cfg lib t md).
Proof.
  intros En Hdir. unfold get_cached_moments. rewrite En. simpl.
  destruct (_get_cache_path cfg (_build_cache_key lib t md) d) as [[path d']|e] eqn:E.
  - destruct (_get_cache_path_ok _ _ _ _ _ E) as (-> & Hf & _ & _).
    simpl. now rewrite (read_entry_files _ _ _ _ Hf).
  - exfalso. unfold _get_cache_path, _get_cache_dir in E.
    destruct (dir_exists d); [discriminate|].
    destruct Hdir as [Hdir|Hdir]; [discriminate|]. rewrite Hdir in E. discriminate.
Qed.

(** Without a directory that exists or can be made, and with the cache
    disabled, a lookup gives nothing. *)
Lemma get_cached_moments_off (d : disk) (t : str) (md : option dict) :
  CACHE_ENABLED cfg = false \/ (dir_exists d = false /\ writable d = false) ->
  fst (get_cached_moments cfg lib d t md) = None.
Proof.
  unfold get_cached_moments. intros [En|[Hd Hw]].
  - now rewrite En.
  - destruct (CACHE_ENABLED cfg); [|reflexivity]. simpl.
    unfold _get_cache_path, _get_cache_dir. now rewrite Hd, Hw.
Qed.


(** What a store does on a disk that accepts writes. *)
Lemma save_moments_to_cache_written (d : disk) (ms : list json) (t : str)
    (md : option dict) :
  CACHE_ENABLED cfg = true ->
  writable d = true ->
  files (save_moments_to_cache cfg lib d ms t md)
  = <[cache_file cfg lib t md :=
        json_dumps lib (cache_document (_build_cache_key lib t md) ms)]> (files d)
  /\ writable (save_moments_to_cache cfg lib d ms t md) = true
  /\ dir_exists (save_moments_to_cache cfg lib d ms t md) = true.
Proof.
  intros En Hw. unfold save_moments_to_cache. rewrite En. simpl.
  destruct (_get_cache_path_writable cfg (_build_cache_key lib t md) d Hw) as [d' E].
  rewrite E. destruct (_get_cache_path_ok _ _ _ _ _ E) as (_ & Hf & Hw' & Hd).
  rewrite Hw', Hw. simpl. rewrite Hf, Hw', Hw. unfold cache_file. auto.
Qed.

(** A store never changes whether the location accepts writes. *)
Lemma save_moments_to_cache_keeps_writable (d : disk) (ms : list json) (t : str)
    (md : option dict) :
  writable (save_moments_to_cache cfg lib d ms t md) = writable d.
Proof.
  unfold save_moments_to_cache. destruct (CACHE_ENABLED cfg); simpl; [|reflexivity].
  destruct (_get_cache_path cfg _ d) as [[path d']|] eqn:E; [|reflexivity].
  destruct (_get_cache_path_ok _ _ _ _ _ E) as (_ & _ & Hw & _).
  destruct (writable d') eqn:W; [simpl|]; congruence.
Qed.



(** A store leaves the lookup of every key that goes to another file as
    it was. *)
Theorem cache_store_keeps_other_keys (d : disk) (ms : list json) (t t' : str)
    (md md' : option dict) :
  cache_file cfg lib t' md' <> cache_file cfg lib t md ->
  fst (get_cached_moments cfg lib (save_moments_to_cache cfg lib d ms t md) t' md')
  = fst (get_cached_moments cfg lib d t' md').
Proof.
  intros Hne.
  destruct (CACHE_ENABLED cfg) eqn:En.
  2:{ now rewrite !get_cached_moments_off by auto. }
  destruct (writable d) eqn:Hw.
  - destruct (save_moments_to_cache_written d ms t md En Hw) as (Hf & Hw' & Hd').
    rewrite !get_cached_moments_reads by auto.
    unfold read_entry. rewrite Hf. unfold str, char in *.
    now rewrite lookup_insert_ne by congruence.
  - destruct (dir_exists d) eqn:Hd.
    + unfold save_moments_to_cache. rewrite En. simpl.
      rewrite _get_cache_path_ready by exact Hd. now rewrite Hw.
    + unfold save_moments_to_cache. rewrite En. simpl.
      unfold _get_cache_path, _get_cache_dir. now rewrite Hd, Hw.
Qed.





End CacheMore.

(** ** Clearing the cache *)

Section ClearFacts.
Import Py Json Config Runtime CacheUtils CacheClear.
Import stdpp.gmap.

Variable cfg : settings.
Variable lib : library.

Lemma startswith_slash (b : str) :
  startswith (lit "/") b = match b with c :: _ => N.eqb 47 c | [] => false end.
Proof. destruct b as [|c b]; [reflexivity|]. simpl. now rewrite andb_true_r. Qed.

Lemma forallb_no_slash (s : str) :
  Forall (fun c => c <> 47%N) s -> forallb (fun c => negb (N.eqb c 47)) s = true.
Proof.
  induction 1 as [|c s Hc _ IH]; [reflexivity|]. simpl. rewrite IH, andb_true_r.
  apply negb_true_iff. now apply N.eqb_neq.
Qed.

(** The file of a key without a slash is one of the files the listing
    shows. *)
Lemma cache_file_is_entry (directory key : str) :
  Forall (fun c => c <> 47%N) key ->
  is_cache_entry directory (path_join directory (key ++ lit ".json")) = true.
Proof.
  intros Hkey.
  assert (Hname : Forall (fun c => c <> 47%N) (key ++ lit ".json")).
  { apply Forall_app. split; [exact Hkey|]. repeat constructor; discriminate. }
  assert (Hstart : startswith (lit "/") (key ++ lit ".json") = false).
  { rewrite startswith_slash. destruct key as [|c key]; [reflexivity|].
    cbn [app]. apply Forall_inv in Hkey. apply N.eqb_neq. congruence. }
  assert (Hne : key ++ lit ".json" <> []) by (destruct key; discriminate).
  unfold is_cache_entry, entry_name, path_join. rewrite Hstart.
  assert (Hentry : forall stem,
             (if startswith stem (stem ++ key ++ lit ".json")
              then let name := skipn (List.length stem) (stem ++ key ++ lit ".json") in
                   match name with
                   | [] => None
                   | _ :: _ =>
                       if forallb (fun c => negb (N.eqb c 47)) name then Some name else None
                   end
              else None) = Some (key ++ lit ".json")).
  { intros stem. rewrite startswith_app. cbv zeta.
    rewrite skipn_app, skipn_all, Nat.sub_diag, skipn_O. cbn [app].
    rewrite (forallb_no_slash _ Hname).
    destruct (key ++ lit ".json"); [contradiction|reflexivity]. }
  assert (Hend : endswith (lit ".json") (key ++ lit ".json") = true)
    by apply endswith_app.
  destruct directory as [|c0 directory].
  - match goal with |- match ?X with _ => _ end = true =>
      replace X with (Some (key ++ lit ".json")) by (symmetry; exact (Hentry []))
    end. exact Hend.
  - destruct (endswith (lit "/") (c0 :: directory)).
    + match goal with |- match ?X with _ => _ end = true =>
        replace X with (Some (key ++ lit ".json"))
          by (symmetry; exact (Hentry (c0 :: directory)))
      end. exact Hend.
    + pose proof (Hentry ((c0 :: directory) ++ lit "/")) as H0.
      rewrite <- app_assoc in H0.
      match goal with |- match ?X with _ => _ end = true =>
        replace X with (Some (key ++ lit ".json")) by (symmetry; exact H0)
      end. exact Hend.
Qed.

Lemma clear_cache_files (d : disk) :
  writable d = true ->
  files (clear_cache cfg d)
  = filter (fun kv => is_cache_entry (CACHE_DIR cfg) (fst kv) = false) (files d)
  /\ writable (clear_cache cfg d) = true.
Proof.
  intros Hw. unfold clear_cache, _get_cache_dir.
  destruct (dir_exists d); simpl; rewrite Hw; simpl; rewrite ?Hw; simpl; auto.
Qed.

(** Clearing the cache on a location that accepts writes: whatever was
    stored, every lookup whose key has no slash misses afterwards; the
    files that are not [.json] files of the cache directory stay as they
    are.  On a location that refuses writes nothing is removed. *)
Theorem clear_cache_empties_the_cache (d : disk) :
  (writable d = true ->
   forall t md,
     Forall (fun c => c <> 47%N) (_build_cache_key lib t md) ->
     fst (get_cached_moments cfg lib (clear_cache cfg d) t md) = None)
  /\ (forall path,
        is_cache_entry (CACHE_DIR cfg) path = false ->
        files (clear_cache cfg d) !! path = files d !! path)
  /\ (writable d = false -> files (clear_cache cfg d) = files d).
Proof.
  split; [|split].
  - intros Hw t md Hkey. apply get_cached_moments_absent.
    destruct (clear_cache_files d Hw) as [-> _].
    apply map_lookup_filter_None. right. intros content _ Hkeep. simpl in Hkeep.
    unfold cache_file in Hkeep. rewrite cache_file_is_entry in Hkeep by exact Hkey.
    discriminate.
  - intros path Hpath. destruct (writable d) eqn:Hw.
    + destruct (clear_cache_files d Hw) as [-> _].
      destruct (files d !! path) as [content|] eqn:E.
      * apply map_lookup_filter_Some. split; [exact E|exact Hpath].
      * apply map_lookup_filter_None. now left.
    + unfold clear_cache, _get_cache_dir.
      destruct (dir_exists d); simpl; rewrite Hw; reflexivity.
  - intros Hw. unfold clear_cache, _get_cache_dir.
    destruct (dir_exists d); simpl; rewrite Hw; reflexivity.
Qed.

End ClearFacts.

Section CacheMoreExamples.
Import Py Json Config Runtime CacheUtils CacheClear.
Import stdpp.gmap.
Local Open Scope Z_scope.

(** Storing for [two_lines] leaves the miss of [other_transcript] a
    miss. *)
Lemma cache_store_keeps_other_keys_witness :
  fst (get_cached_moments shipped Reference.lib
         (save_moments_to_cache shipped Reference.lib Reference.empty_disk
            Examples.stored_moments Examples.two_lines None)
         Examples.other_transcript None)
  = None.
Proof.
  rewrite (cache_store_keeps_other_keys shipped Reference.lib Reference.empty_disk
             Examples.stored_moments Examples.two_lines Examples.other_transcript
             None None ltac:(vm_compute; discriminate)).
  vm_compute. reflexivity.
Defined.



(** A disk with a cache file, a note beside it and a file elsewhere: the
    lookup hits before the clearing and misses after it, and the two
    other files are still there. *)
Lemma clear_cache_empties_the_cache_witness :
  fst (get_cached_moments shipped Reference.lib MoreExamples.used_disk
         Examples.two_lines None) = Some Examples.stored_moments
  /\ fst (get_cached_moments shipped Reference.lib
            (clear_cache shipped MoreExamples.used_disk) Examples.two_lines None) = None
  /\ files (clear_cache shipped MoreExamples.used_disk) !! lit ".nio_cache/notes.txt"
     = Some (lit "keep")
  /\ files (clear_cache shipped MoreExamples.used_disk) !! lit "elsewhere/clip.json"
     = Some (lit "{}").
Proof.
  destruct (clear_cache_empties_the_cache shipped Reference.lib MoreExamples.used_disk)
    as (Hmiss & Hframe & _).
  split; [vm_compute; reflexivity|]. split.
  - apply Hmiss; [reflexivity|].
    vm_compute. repeat constructor; discriminate.
  - split.
    + rewrite Hframe by (vm_compute; reflexivity). vm_compute. reflexivity.
    + rewrite Hframe by (vm_compute; reflexivity). vm_compute. reflexivity.
Defined.

End CacheMoreExamples.

(** ** More on chunking *)

Section ChunkMore.
Import Py Json Config Runtime LlmClient.

Lemma splitlines_from_open (s cur : str) :
  cur <> [] -> splitlines_from cur s <> [].
Proof.
  revert cur. induction s as [|c r IH]; intros cur Hcur; simpl.
  - destruct cur; [contradiction|discriminate].
  - destruct (islinebreak c); [discriminate|]. apply IH. discriminate.
Qed.

(** Only the empty text has no line. *)
Lemma splitlines_nil_iff (s : str) : splitlines s = [] <-> s = [].
Proof.
  unfold splitlines. split.
  - destruct s as [|c r]; [reflexivity|]. simpl.
    destruct (islinebreak c); [discriminate|].
    intros H. exfalso. revert H. apply splitlines_from_open. discriminate.
  - intros ->. reflexivity.
Qed.

(** The lines of a text are not longer than the text. *)
Lemma splitlines_from_total (n : nat) :
  forall (s cur : str),
    (List.length s <= n)%nat ->
    total_len (splitlines_from cur s) <= len cur + len s.
Proof.
  induction n as [|n IH]; intros s cur Hn.
  - destruct s; [|simpl in Hn; lia]. simpl.
    destruct cur; simpl; unfold len; simpl; [lia|].
    rewrite length_app, length_rev. simpl. lia.
  - destruct s as [|c r].
    + simpl. destruct cur; simpl; unfold len; simpl; [lia|].
      rewrite length_app, length_rev. simpl. lia.
    + simpl in Hn. simpl splitlines_from.
      destruct (islinebreak c).
      * assert (Hcur : len (rev cur) = len cur) by (unfold len; now rewrite length_rev).
        destruct r as [|c' r'].
        -- simpl. unfold len in *. simpl. lia.
        -- destruct (N.eqb c 13 && N.eqb c' 10).
           ++ simpl total_len. specialize (IH r' [] ltac:(simpl in *; lia)).
              unfold len in *. simpl in *. lia.
           ++ simpl total_len. specialize (IH (c' :: r') [] ltac:(simpl in *; lia)).
              unfold len in *. simpl in *. lia.
      * specialize (IH r (c :: cur) ltac:(lia)).
        unfold len in *. simpl in *. lia.
Qed.

Lemma splitlines_total (s : str) : total_len (splitlines s) <= len s.
Proof.
  unfold splitlines.
  pose proof (splitlines_from_total (List.length s) s [] (Nat.le_refl _)) as H.
  unfold len in *. simpl in *. lia.
Qed.

(** Lines that fit together are never flushed. *)
Lemma group_loop_fits (max : Z) (lines : list str) :
  forall current,
    total_len (current ++ lines) + 1 <= max ->
    group_loop max lines current
    = match current ++ lines with [] => [] | _ :: _ => [current ++ lines] end.
Proof.
  induction lines as [|line rest IH]; intros current Hfit; simpl.
  - rewrite app_nil_r. destruct current; reflexivity.
  - assert (Hstep : (total_len current + len line + 1 >? max) = false).
    { rewrite total_len_app in Hfit. simpl in Hfit.
      pose proof (total_len_nonneg rest). rewrite Z.gtb_ltb. apply Z.ltb_ge. lia. }
    rewrite Hstep. rewrite IH by now rewrite <- app_assoc.
    rewrite <- app_assoc. reflexivity.
Qed.

Lemma group_loop_count (max : Z) (lines : list str) :
  forall current,
    (List.length (group_loop max lines current)
     <= List.length lines + match current with [] => 0 | _ :: _ => 1 end)%nat.
Proof.
  induction lines as [|line rest IH]; intros current; simpl.
  - destruct current; simpl; lia.
  - destruct (total_len current + len line + 1 >? max).
    + destruct current as [|c0 current].
      * specialize (IH [line]). simpl in *. lia.
      * specialize (IH [line]). simpl in *. lia.
    + specialize (IH (current ++ [line])).
      destruct (current ++ [line]) eqn:E; [destruct current; discriminate|].
      destruct current; simpl in *; lia.
Qed.

Variable cfg : settings.

(** The number of chunks: none for the empty text only, and never more
    than there are lines. *)
Theorem chunk_count_bounds (transcript : str) :
  (chunk_transcript cfg transcript = [] <-> transcript = [])
  /\ (List.length (chunk_transcript cfg transcript)
      <= List.length (splitlines transcript))%nat.
Proof.
  unfold chunk_transcript. rewrite chunk_loop_groups. simpl.
  split.
  - rewrite <- splitlines_nil_iff. split.
    + intros H. apply map_eq_nil in H.
      pose proof (group_loop_concat (CHARS_PER_CHUNK cfg) (splitlines transcript) []) as C.
      rewrite H in C. simpl in C. now symmetry.
    + intros ->. reflexivity.
  - rewrite length_map.
    pose proof (group_loop_count (CHARS_PER_CHUNK cfg) (splitlines transcript) []).
    simpl in *. lia.
Qed.

(** A text shorter than the budget is one chunk: its lines, joined. *)
Theorem short_transcript_is_one_chunk (transcript : str) :
  transcript <> [] ->
  len transcript < CHARS_PER_CHUNK cfg ->
  chunk_transcript cfg transcript = [join nl (splitlines transcript)].
Proof.
  intros Hne Hshort. unfold chunk_transcript. rewrite chunk_loop_groups. simpl.
  rewrite group_loop_fits.
  - simpl. destruct (splitlines transcript) eqn:E; [|reflexivity].
    apply splitlines_nil_iff in E. contradiction.
  - simpl. pose proof (splitlines_total transcript). lia.
Qed.

End ChunkMore.

Section ChunkMoreExamples.
Import Py Json Config Runtime LlmClient.

(** The two lines of the example are one chunk under the shipped budget. *)
Lemma short_transcript_is_one_chunk_witness :
  chunk_transcript shipped Examples.two_lines = [Examples.two_lines].
Proof.
  rewrite (short_transcript_is_one_chunk shipped Examples.two_lines).
  - vm_compute. reflexivity.
  - vm_compute. discriminate.
  - vm_compute. reflexivity.
Defined.

End ChunkMoreExamples.

(** ** More on the orchestrator *)

Section ClientMore.
Import Py Json Config Runtime CacheUtils LlmClient.
Import stdpp.gmap.
Local Open Scope Z_scope.

Variable cfg : settings.
Variable lib : library.
Variable SYSTEM_PROMPT : str.

(** What a chunk that is answered and parsed contributes: the parsed
    moments, cut after the first [MOMENT_SAFETY_LIMIT] of them. *)
Lemma chunk_attempt_ok (w : world) (chunk : str) (idx total : nat) (ms : list json) :
  0 <= MOMENT_SAFETY_LIMIT cfg ->
  chunk_attempt cfg lib SYSTEM_PROMPT w (chunk, idx, total) = Ok ms ->
  exists raw parsed,
    call_llm_with_system w SYSTEM_PROMPT
      (build_prompt_for_chunk cfg chunk idx total) = Ok raw
    /\ Extraction.parse_moment_response (json_loads lib) (uuid4_hex8 w idx) raw = Ok parsed
    /\ ms = firstn (Z.to_nat (MOMENT_SAFETY_LIMIT cfg)) parsed.
Proof.
  intros Hk. unfold chunk_attempt.
  destruct (call_llm_with_system w _ _) as [raw|e] eqn:C; [|discriminate].
  cbv beta iota delta [bind].
  destruct (Extraction.parse_moment_response _ _ raw) as [parsed|e] eqn:P; [|discriminate].
  intros [= <-]. exists raw, parsed. split; [reflexivity|]. split; [exact P|].
  destruct (Z.of_nat (List.length parsed) >? MOMENT_SAFETY_LIMIT cfg) eqn:E.
  - unfold LlmClient.prefix.
    destruct (0 <=? MOMENT_SAFETY_LIMIT cfg) eqn:E0; [reflexivity|].
    apply Z.leb_gt in E0. lia.
  - rewrite Z.gtb_ltb, Z.ltb_ge in E. symmetry. apply firstn_all2. lia.
Qed.

Lemma process_single_length (w : world) (data : chunk_data) :
  0 <= MOMENT_SAFETY_LIMIT cfg ->
  Z.of_nat (List.length (_process_single_chunk cfg lib SYSTEM_PROMPT w data))
  <= MOMENT_SAFETY_LIMIT cfg.
Proof.
  intros Hk. unfold _process_single_chunk.
  destruct data as [[chunk idx] total].
  destruct (chunk_attempt cfg lib SYSTEM_PROMPT w (chunk, idx, total)) as [ms|e] eqn:E.
  - simpl. destruct (chunk_attempt_ok _ _ _ _ _ Hk E) as (raw & parsed & _ & _ & ->).
    rewrite length_firstn. lia.
  - simpl. exact Hk.
Qed.

Lemma flat_map_length_bound (w : world) (l : list chunk_data) :
  0 <= MOMENT_SAFETY_LIMIT cfg ->
  Z.of_nat (List.length (flat_map (_process_single_chunk cfg lib SYSTEM_PROMPT w) l))
  <= Z.of_nat (List.length l) * MOMENT_SAFETY_LIMIT cfg.
Proof.
  intros Hk. induction l as [|data l IH]; simpl; [lia|].
  rewrite length_app. pose proof (process_single_length w data Hk). lia.
Qed.

Lemma enumerate_chunks_length (chunks : list str) :
  forall idx total, List.length (enumerate_chunks chunks idx total) = List.length chunks.
Proof.
  induction chunks as [|c chunks IH]; intros idx total; simpl; [reflexivity|].
  now rewrite IH.
Qed.

(** The safety limit: a chunk contributes the first [MOMENT_SAFETY_LIMIT]
    parsed moments at most, and a transcript of [n] chunks yields at most
    [n] times as many. *)
Theorem safety_limit_caps_the_result (w : world) :
  0 <= MOMENT_SAFETY_LIMIT cfg ->
  (forall chunk idx total ms,
      chunk_attempt cfg lib SYSTEM_PROMPT w (chunk, idx, total) = Ok ms ->
      exists raw parsed,
        call_llm_with_system w SYSTEM_PROMPT
          (build_prompt_for_chunk cfg chunk idx total) = Ok raw
        /\ Extraction.parse_moment_response (json_loads lib) (uuid4_hex8 w idx) raw
           = Ok parsed
        /\ ms = firstn (Z.to_nat (MOMENT_SAFETY_LIMIT cfg)) parsed)
  /\ (forall data,
        Z.of_nat (List.length (_process_single_chunk cfg lib SYSTEM_PROMPT w data))
        <= MOMENT_SAFETY_LIMIT cfg)
  /\ (forall chunks all_moments,
        _process_chunks_parallel cfg lib SYSTEM_PROMPT w chunks = Ok all_moments ->
        Z.of_nat (List.length all_moments)
        <= Z.of_nat (List.length chunks) * MOMENT_SAFETY_LIMIT cfg).
Proof.
  intros Hk. split; [|split].
  - intros chunk idx total ms. now apply chunk_attempt_ok.
  - intros data. now apply process_single_length.
  - intros chunks all_moments. unfold _process_chunks_parallel. cbv zeta.
    destruct (MAX_PARALLEL_CHUNKS cfg <=? 0); [discriminate|].
    rewrite collect_fold. intros [= <-]. simpl.
    pose proof (flat_map_length_bound w
                  (as_completed w (enumerate_chunks chunks 1 (List.length chunks))) Hk) as B.
    rewrite (Permutation_length (as_completed_perm w _)) in B.
    now rewrite enumerate_chunks_length in B.
Qed.

(** The order of completion rearranges whole chunks and nothing else:
    the aggregate is the concatenation of the results of the chunks in
    some order of the chunks, so it has the moments of the concatenation
    in the order of submission, each as often. *)
Theorem completion_order_only_rearranges (w : world) (chunks : list str)
    (all_moments : list json) :
  _process_chunks_parallel cfg lib SYSTEM_PROMPT w chunks = Ok all_moments ->
  (exists order,
      Permutation order (enumerate_chunks chunks 1 (List.length chunks))
      /\ all_moments = flat_map (_process_single_chunk cfg lib SYSTEM_PROMPT w) order)
  /\ Permutation all_moments
       (flat_map (_process_single_chunk cfg lib SYSTEM_PROMPT w)
          (enumerate_chunks chunks 1 (List.length chunks))).
Proof.
  unfold _process_chunks_parallel. cbv zeta.
  destruct (MAX_PARALLEL_CHUNKS cfg <=? 0); [discriminate|].
  rewrite collect_fold. intros [= <-]. simpl. split.
  - eexists. split; [apply as_completed_perm|reflexivity].
  - apply Permutation_flat_map, as_completed_perm.
Qed.






End ClientMore.

Section ClientMoreExamples.
Import Py Json Config Runtime CacheUtils LlmClient.

(** One chunk under the shipped limit of five. *)
Lemma safety_limit_caps_the_result_witness :
  Z.of_nat (List.length
              (_process_single_chunk shipped Reference.lib []
                 (Reference.world_of Examples.always_answers)
                 (lit "first line", 1%nat, 1%nat)))
  <= 5.
Proof.
  exact (proj1 (proj2 (safety_limit_caps_the_result shipped Reference.lib []
                         (Reference.world_of Examples.always_answers)
                         ltac:(vm_compute; discriminate)))
           (lit "first line", 1%nat, 1%nat)).
Defined.

(** Two chunks whose workers complete in the reverse order. *)
Lemma completion_order_only_rearranges_witness :
  exists all_moments,
    _process_chunks_parallel Examples.small_chunks Reference.lib []
      (Reference.world_reversed Examples.always_answers)
      [lit "first line"; lit "other line"] = Ok all_moments
    /\ Permutation all_moments
         (flat_map (_process_single_chunk Examples.small_chunks Reference.lib []
                      (Reference.world_reversed Examples.always_answers))
            (enumerate_chunks [lit "first line"; lit "other line"] 1 2)).
Proof.
  eexists. split; [vm_compute; reflexivity|].
  apply (completion_order_only_rearranges Examples.small_chunks Reference.lib []
           (Reference.world_reversed Examples.always_answers)
           [lit "first line"; lit "other line"]).
  vm_compute. reflexivity.
Defined.


End ClientMoreExamples.

(** ** More on the normaliser *)

Section NormaliserMore.
Import Py Json Extraction Moments.

Ltac eval_keys :=
  repeat match goal with
         | |- context [str_eqb ?a ?b] =>
             let v := eval vm_compute in (str_eqb a b) in
             match v with
             | true => change (str_eqb a b) with true
             | false => change (str_eqb a b) with false
             end
         end;
  cbv iota.

(** Writing the value a key already has changes nothing. *)
Lemma set_same (k : str) (v : json) (d : dict) :
  lookup_key k d = Some v -> set k v d = d.
Proof.
  induction d as [|[k' v'] d IH]; simpl; [discriminate|].
  destruct (str_eqb k k') eqn:E.
  - now intros [= ->].
  - intros H. now rewrite IH.
Qed.

Lemma setdefault_present (k : str) (v x : json) (d : dict) :
  lookup_key k d = Some x -> setdefault k v d = d.
Proof. intros H. unfold setdefault. now rewrite contains_lookup, H. Qed.

Lemma fill_captions_fixed (keys : list str) (m : dict) (captions : dict) :
  lookup_key k_persona_captions m = Some (JDict captions) ->
  Forall (fun key => contains key captions = true) keys ->
  fill_captions keys m = Ok m.
Proof.
  intros Hpc. induction 1 as [|key rest Hkey _ IH]; simpl; [reflexivity|].
  unfold fill_caption. rewrite get_lookup, Hpc.
  unfold setdefault. rewrite Hkey.
  rewrite (set_same _ _ _ Hpc). exact IH.
Qed.

Lemma coerce_duration_int (z : Z) : coerce_duration (JInt z) = z.
Proof.
  unfold coerce_duration. simpl. destruct (z =? 0) eqn:E; simpl; [|reflexivity].
  apply Z.eqb_eq in E. now subst.
Qed.

(** An emitted moment is in normal form: normalising it again keeps it,
    and gives it the identifier drawn then. *)
Lemma enrich_moment_again (d : dict) (id id' : str) (m : dict) :
  enrich_moment d id = Ok (Some m) ->
  enrich_moment m id' = Ok (Some (set k_id (JStr id') m)).
Proof.
  intros H. destruct (enrich_moment_emits d id m H) as (q & pc & Hq & Hne & _ & Hm).
  set (m1 := set k_id (JStr id') m).
  assert (Hm1 : forall k, str_eqb k k_id = false -> lookup_key k m1 = lookup_key k m).
  { intros k Hk. unfold m1. now rewrite lookup_key_set, Hk. }
  assert (Hquote : lookup_key k_quote m1 = Some (JStr q)).
  { rewrite Hm1 by reflexivity. rewrite Hm. eval_keys. now rewrite Hq. }
  assert (Hts : exists x, lookup_key k_timestamps m1 = Some x).
  { rewrite Hm1 by reflexivity. rewrite Hm. eval_keys.
    destruct (lookup_key k_timestamps d); eexists; reflexivity. }
  assert (Hdur : exists z,
             lookup_key k_clip_duration_seconds m1 = Some (JInt z)
             /\ word_based_duration (Z.of_nat (List.length (split_ws q))) <= z).
  { rewrite Hm1 by reflexivity. rewrite Hm. eval_keys.
    eexists. split; [reflexivity|]. lia. }
  assert (Hopt : forall k,
             In k [k_viral_trigger; k_why_it_hits; k_energy_tag; k_flags] ->
             exists x, lookup_key k m1 = Some x).
  { intros k Hk. simpl in Hk.
    destruct Hk as [<-|[<-|[<-|[<-|[]]]]]; rewrite Hm1 by reflexivity; rewrite Hm;
      eval_keys;
      match goal with
      | |- context [lookup_key ?key d] => destruct (lookup_key key d)
      end; eexists; reflexivity. }
  assert (Hcap : lookup_key k_persona_captions m1
                 = Some (JDict (fill_all persona_keys pc))).
  { rewrite Hm1 by reflexivity. rewrite Hm. eval_keys. reflexivity. }
  unfold enrich_moment. cbv zeta. fold m1.
  rewrite !get_lookup.
  assert (Hens : ensure_timestamps m1 = m1).
  { unfold ensure_timestamps. destruct Hts as [x Hx].
    destruct (negb _); [|reflexivity]. exact (setdefault_present _ _ _ _ Hx). }
  rewrite Hens, Hquote.
  destruct q as [|c q]; [contradiction|]. cbn [truthy negb count_words].
  cbv beta iota delta [bind].
  destruct Hdur as (z & Hz & Hle). rewrite Hz, coerce_duration_int.
  rewrite Z.max_l by exact Hle.
  rewrite (set_same _ _ _ Hz).
  assert (Hoptional : ensure_optional m1 = m1).
  { unfold ensure_optional. cbv zeta.
    destruct (Hopt k_viral_trigger ltac:(simpl; auto)) as [x1 H1].
    destruct (Hopt k_why_it_hits ltac:(simpl; auto)) as [x2 H2].
    destruct (Hopt k_energy_tag ltac:(simpl; auto)) as [x3 H3].
    destruct (Hopt k_flags ltac:(simpl; auto)) as [x4 H4].
    rewrite (setdefault_present _ _ _ _ H1), (setdefault_present _ _ _ _ H2),
      (setdefault_present _ _ _ _ H3), (setdefault_present _ _ _ _ H4).
    exact (setdefault_present _ _ _ _ Hcap). }
  rewrite Hoptional.
  rewrite (fill_captions_fixed persona_keys m1 _ Hcap (fill_all_covers _ _)).
  reflexivity.
Qed.

Variable ids : nat -> str.




Variable json_loads : str -> option json.


(** Normalising a normalised list again: nothing is dropped, nothing
    raises, and every moment comes back as it was but for its
    identifier. *)
Theorem normalised_moments_are_stable (candidates : list json) (drawn : nat)
    (out : list json) (ids' : nat -> str) :
  process_moments ids candidates drawn = Ok out ->
  forall drawn',
    process_moments ids' out drawn'
    = Ok (List.map (fun jm => with_id (ids' (fst jm)) (snd jm))
            (List.combine (List.seq drawn' (List.length out)) out)).
Proof.
  intros H.
  pose proof (process_moments_emits ids candidates drawn out H) as Hall.
  clear H. induction Hall as [|c m cs out' Hm _ IH]; intros drawn'; [reflexivity|].
  destruct Hm as (d & j & d' & -> & -> & Hd).
  simpl. rewrite (enrich_moment_again _ _ (ids' drawn') _ Hd).
  cbv beta iota delta [bind]. now rewrite IH.
Qed.

End NormaliserMore.

Section NormaliserMoreExamples.
Import Py Json Extraction Moments.


(** The two moments kept of the mixed candidates, normalised again. *)
Lemma normalised_moments_are_stable_witness :
  exists out,
    process_moments Reference.ids0 Examples.mixed_candidates 0 = Ok out
    /\ List.length out = 2%nat
    /\ process_moments Reference.ids0 out 2 = Ok out.
Proof.
  eexists. split; [vm_compute; reflexivity|]. split; [reflexivity|].
  rewrite (normalised_moments_are_stable Reference.ids0 Examples.mixed_candidates 0 _
             Reference.ids0 ltac:(vm_compute; reflexivity) 2%nat).
  vm_compute. reflexivity.
Defined.

End NormaliserMoreExamples.

(** ** Timestamps of the export *)

Section TimestampFacts.
Import Py Json Runtime ExportUtils.

Ltac digit_cases H :=
  apply isdigit_cases in H;
  repeat (destruct H as [H|H]); subst.













End TimestampFacts.

(** ** The cutter *)

Section ClippingFacts.
Import Py Json Clipping.

Ltac digit_cases H :=
  apply isdigit_cases in H;
  repeat (destruct H as [H|H]); subst.


Lemma digits1_spec (s ds rest : str) :
  digits1 s = Some (ds, rest) ->
  Forall (fun c => isdigit c = true) ds /\ ds <> [].
Proof.
  unfold digits1. pose proof (span_digits_spec s) as (_ & Hd & _).
  destruct (span_digits s) as [[|c d] r]; [discriminate|].
  intros [= <- <-]. split; [exact Hd|discriminate].
Qed.

Lemma fraction_spec (s ms : str) :
  fraction s = Some ms -> Forall (fun c => isdigit c = true) ms /\ ms <> [].
Proof.
  unfold fraction. destruct s as [|c r]; [discriminate|].
  destruct (N.eqb c 46 || N.eqb c 44); [|discriminate].
  destruct (digits1 r) as [[ds rest]|] eqn:E; [|discriminate].
  intros [= <-]. exact (digits1_spec _ _ _ E).
Qed.

Lemma two_fields_spec (s a b rest : str) :
  two_fields s = Some (a, b, rest) ->
  (Forall (fun c => isdigit c = true) a /\ a <> [])
  /\ (Forall (fun c => isdigit c = true) b /\ b <> []).
Proof.
  unfold two_fields. destruct (digits1 s) as [[a' [|c r]]|] eqn:Ea; try discriminate.
  destruct (N.eqb c 58); [|discriminate].
  destruct (digits1 r) as [[b' rest']|] eqn:Eb; [|discriminate].
  intros [= <- <- <-]. split; eapply digits1_spec; eassumption.
Qed.

Lemma seconds_of_groups_nonneg (h m s ms : str) :
  Forall (fun c => isdigit c = true) h -> Forall (fun c => isdigit c = true) m ->
  Forall (fun c => isdigit c = true) s -> Forall (fun c => isdigit c = true) ms ->
  (0 <= seconds_of_groups h m s ms)%Q.
Proof.
  intros Hh Hm Hs Hms. unfold seconds_of_groups. cbv zeta.
  apply Z_of_digits_bounds in Hh, Hm, Hs, Hms.
  unfold Qle, Qplus, inject_Z. simpl.
  destruct (len (str_of_Z (Z_of_digits ms)) =? 3); nia.
Qed.

Lemma zero_digits : Forall (fun c => isdigit c = true) (lit "0").
Proof. repeat constructor. Qed.

(** The cutter never reads a negative time. *)
Lemma _timestamp_to_seconds_nonneg (ts : str) : (0 <= _timestamp_to_seconds ts)%Q.
Proof.
  unfold _timestamp_to_seconds. cbv zeta.
  destruct (match_with_fraction (strip ts)) as [[[[h m] s] ms]|] eqn:E.
  - unfold match_with_fraction in E.
    destruct (two_fields (strip ts)) as [[[a b] rest]|] eqn:Et; [|discriminate].
    destruct (two_fields_spec _ _ _ _ Et) as [[Ha _] [Hb _]].
    cbv zeta in E.
    assert (Hcase :
              (exists r s' r',
                  digits1 r = Some (s', r') /\ fraction r' = Some ms
                  /\ (h, m, s) = (a, b, s'))
              \/ (fraction rest = Some ms /\ (h, m, s) = (lit "0", a, b))).
    { destruct rest as [|c r].
      - simpl in E. discriminate.
      - destruct (N.eqb c 58).
        + destruct (digits1 r) as [[s' r']|] eqn:Es.
          * destruct (fraction r') as [ms'|] eqn:Ef.
            -- injection E as <- <- <- <-. left. exists r, s', r'. auto.
            -- destruct (fraction (c :: r)) as [ms'|] eqn:Ef'; [|discriminate].
               injection E as <- <- <- <-. right. auto.
          * destruct (fraction (c :: r)) as [ms'|] eqn:Ef'; [|discriminate].
            injection E as <- <- <- <-. right. auto.
        + destruct (fraction (c :: r)) as [ms'|] eqn:Ef'; [|discriminate].
          injection E as <- <- <- <-. right. auto. }
    destruct Hcase as [(r & s' & r' & Hs & Hf & [= -> -> ->])|[Hf [= -> -> ->]]].
    + apply seconds_of_groups_nonneg; try assumption.
      * exact (proj1 (digits1_spec _ _ _ Hs)).
      * exact (proj1 (fraction_spec _ _ Hf)).
    + apply seconds_of_groups_nonneg; try assumption.
      * exact zero_digits.
      * exact (proj1 (fraction_spec _ _ Hf)).
  - destruct (match_without_fraction (strip ts)) as [[[h m] s]|] eqn:E'.
    2:{ unfold Qle. simpl. lia. }
    unfold match_without_fraction in E'.
    destruct (two_fields (strip ts)) as [[[a b] rest]|] eqn:Et; [|discriminate].
    destruct (two_fields_spec _ _ _ _ Et) as [[Ha _] [Hb _]].
    cbv zeta in E'.
    assert (Hcase :
              (exists r s' r', digits1 r = Some (s', r') /\ (h, m, s) = (a, b, s'))
              \/ (h, m, s) = (lit "0", a, b)).
    { destruct rest as [|c r].
      - injection E' as <- <- <-. now right.
      - destruct (N.eqb c 58).
        + destruct (digits1 r) as [[s' r']|] eqn:Es.
          * injection E' as <- <- <-. left. exists r, s', r'. auto.
          * injection E' as <- <- <-. now right.
        + injection E' as <- <- <-. now right. }
    destruct Hcase as [(r & s' & r' & Hs & [= -> -> ->])|[= -> -> ->]].
    + apply seconds_of_groups_nonneg; try assumption.
      * exact (proj1 (digits1_spec _ _ _ Hs)).
      * exact zero_digits.
    + apply seconds_of_groups_nonneg; try assumption; exact zero_digits.
Qed.













Lemma fmax_ge_l (a b : Q) : (a <= fmax a b)%Q.
Proof.
  unfold fmax. destruct (Qle_bool b a) eqn:E; [apply Qle_refl|].
  destruct (Qlt_le_dec a b) as [H|H]; [now apply Qlt_le_weak|].
  apply Qle_bool_iff in H. congruence.
Qed.

(** A request never seeks before the start of the video and never asks
    for a negative duration. *)
Lemma cut_video_well_formed (input_video start finish output_path : str) :
  (0 <= ss (cut_video input_video start finish output_path))%Q
  /\ (0 <= t (cut_video input_video start finish output_path))%Q.
Proof.
  unfold cut_video. simpl. split.
  - apply _timestamp_to_seconds_nonneg.
  - apply fmax_ge_l.
Qed.

Section Cutter.

Variable json_loads : str -> option json.
Variable repr : json -> str.
Variable child : str -> str -> str.
Variable mkdir : str -> bool.
Variable run : ffmpeg_call -> bool.

Lemma cut_clip_well_formed (input_video output_dir : str) (clip : json)
    (call : ffmpeg_call) :
  cut_clip repr child input_video output_dir clip = Done call ->
  (0 <= ss call)%Q /\ (0 <= t call)%Q.
Proof.
  unfold cut_clip. destruct clip as [| | | | | |fields]; try discriminate.
  cbv zeta.
  destruct (lookup_key (lit "start") fields) as [[| | | |start| |]|]; try discriminate;
    destruct (lookup_key (lit "end") fields) as [[| | | |finish| |]|]; try discriminate.
  destruct (format_index _) as [number|]; [|discriminate].
  intros [= <-]. apply cut_video_well_formed.
Qed.

Lemma cut_all_well_formed (input_video output_dir : str) (clips : list json) :
  Forall (fun call => (0 <= ss call)%Q /\ (0 <= t call)%Q)
         (fst (cut_all repr child run input_video output_dir clips))
  /\ (forall outputs,
        snd (cut_all repr child run input_video output_dir clips) = Done outputs ->
        outputs = List.map output (fst (cut_all repr child run input_video output_dir clips))
        /\ List.length outputs = List.length clips).
Proof.
  induction clips as [|clip rest IH]; simpl.
  - split; [constructor|]. intros outputs [= <-]. auto.
  - destruct (cut_clip repr child input_video output_dir clip) as [call|f] eqn:E; simpl.
    2:{ split; [constructor|discriminate]. }
    pose proof (cut_clip_well_formed _ _ _ _ E) as Hcall.
    destruct (run call); simpl.
    2:{ split; [repeat constructor; apply Hcall|discriminate]. }
    destruct (cut_all repr child run input_video output_dir rest) as [calls r].
    simpl in *. destruct IH as [IHcalls IHouts]. split.
    + constructor; assumption.
    + intros outputs. destruct r as [outs|f]; [|discriminate].
      intros [= <-]. destruct (IHouts outs eq_refl) as [-> Hlen].
      split; [reflexivity|]. simpl. now rewrite Hlen.
Qed.

(** What [ffmpeg] is asked for.  Whatever the JSON holds, every request
    made seeks to a time that is not negative and asks for a duration
    that is not negative; and when the function returns, it returns the
    output path of each request, one for each clip of the JSON, in
    order. *)
Theorem cut_requests_are_well_formed (input_video ffmpeg_json output_dir : str) :
  let run_ := cut_from_ffmpeg_json json_loads repr child mkdir run
                input_video ffmpeg_json output_dir in
  Forall (fun call => (0 <= ss call)%Q /\ (0 <= t call)%Q) (fst run_)
  /\ (forall outputs,
        snd run_ = Done outputs ->
        outputs = List.map output (fst run_)
        /\ exists data clips,
             json_loads ffmpeg_json = Some data /\ iterate data = Ok clips
             /\ List.length outputs = List.length clips).
Proof.
  cbv zeta. unfold cut_from_ffmpeg_json.
  destruct (json_loads ffmpeg_json) as [data|]; simpl.
  2:{ split; [constructor|discriminate]. }
  destruct (mkdir output_dir); simpl.
  2:{ split; [constructor|discriminate]. }
  destruct (iterate data) as [clips|e] eqn:E; simpl.
  2:{ split; [constructor|discriminate]. }
  destruct (cut_all_well_formed input_video output_dir clips) as [Hcalls Houts].
  split; [exact Hcalls|].
  intros outputs Hdone. destruct (Houts outputs Hdone) as [Hmap Hlen].
  split; [exact Hmap|]. exists data, clips. auto.
Qed.







End Cutter.

End ClippingFacts.

(** ** Subtitle timings *)

Section SrtFacts.
Import Py Json SrtExport.

Variable is_decimal : char -> bool.
Variable json_dumps : json -> str.

Lemma clips_of_lines_numbered (lines : list str) :
  forall idx,
    let clips := clips_of_lines is_decimal idx lines in
    List.map ExportUtils.index_of clips
    = List.map (fun j => Some (JInt (idx + Z.of_nat j))) (List.seq 1 (List.length clips))
    /\ List.map label_of clips
       = List.map (fun j => Some (JStr (lit "SRT_CLIP_" ++ str_of_Z (idx + Z.of_nat j))))
                  (List.seq 1 (List.length clips))
    /\ List.length clips = List.length (List.filter (has_timing is_decimal) lines).
Proof.
  induction lines as [|line rest IH]; intros idx; cbv zeta; [repeat split|].
  cbn [clips_of_lines List.filter]. unfold has_timing at 1.
  destruct (search_timing is_decimal line) as [[start finish]|].
  - cbv zeta. destruct (IH (idx + 1)) as (Hidx & Hlabel & Hlen).
    cbn [List.map List.length List.seq]. rewrite <- seq_shift, !List.map_map.
    repeat split.
    + change (ExportUtils.index_of (srt_clip (idx + 1) start finish))
        with (Some (JInt (idx + Z.of_nat 1))).
      rewrite Hidx. f_equal. apply List.map_ext. intros j.
      replace (idx + 1 + Z.of_nat j) with (idx + Z.of_nat (S j)) by lia. reflexivity.
    + change (label_of (srt_clip (idx + 1) start finish))
        with (Some (JStr (lit "SRT_CLIP_" ++ str_of_Z (idx + Z.of_nat 1)))).
      rewrite Hlabel. f_equal. apply List.map_ext. intros j.
      replace (idx + 1 + Z.of_nat j) with (idx + Z.of_nat (S j)) by lia. reflexivity.
    + now rewrite Hlen.
  - apply IH.
Qed.

(** The records made of a subtitle file are numbered 1, 2, 3, ... in
    the order of the lines that hold a timing, one record for each such
    line, and labelled [SRT_CLIP_] and their number. *)
Theorem srt_clips_are_numbered_in_sequence (srt_text : str) :
  let clips := srt_clips is_decimal srt_text in
  List.map ExportUtils.index_of clips
  = List.map (fun j => Some (JInt (Z.of_nat j))) (List.seq 1 (List.length clips))
  /\ List.map label_of clips
     = List.map (fun j => Some (JStr (lit "SRT_CLIP_" ++ str_of_Z (Z.of_nat j))))
                (List.seq 1 (List.length clips))
  /\ List.length clips
     = List.length (List.filter (has_timing is_decimal) (splitlines srt_text)).
Proof. exact (clips_of_lines_numbered (splitlines srt_text) 0). Qed.








End SrtFacts.

(** ** The transcript text *)

Section TranscriptFacts.
Import Py Json Config Runtime CacheUtils LlmClient TranscriptUtils.

(** The lines of the flattened transcript: one for each segment that has
    text, each opening with a bracket. *)
Lemma flatten_segments_lines (segments : list json) :
  forall lines,
    flatten_segments segments = Ok lines ->
    List.length lines = List.length (List.filter has_text segments)
    /\ Forall (fun line => exists rest, line = 91%N :: rest) lines.
Proof.
  induction segments as [|segment rest IH]; intros lines H.
  - simpl in H. injection H as <-. split; [reflexivity|constructor].
  - destruct segment as [| | | | | |fields]; try (simpl in H |- *; now apply IH).
    cbn [flatten_segments] in H. cbn [List.filter has_text].
    destruct (get (lit "text") (JStr []) fields) as [| | | |raw| |]; try discriminate.
    destruct (strip raw) as [|c text].
    + now apply IH.
    + cbv beta iota delta [bind] in H.
      destruct (seconds_to_timestamp _) as [start_ts|]; [|discriminate].
      destruct (seconds_to_timestamp _) as [end_ts|]; [|discriminate].
      destruct (flatten_segments rest) as [tail|]; [|discriminate].
      injection H as <-. destruct (IH tail eq_refl) as [Hlen Hall].
      split; [simpl; now rewrite Hlen|].
      constructor; [|exact Hall]. eexists. reflexivity.
Qed.

Lemma join_opens (sep : str) (lines : list str) :
  lines <> [] ->
  Forall (fun line => exists rest, line = 91%N :: rest) lines ->
  exists rest, join sep lines = 91%N :: rest.
Proof.
  intros Hne Hall. destruct Hall as [|line lines [r ->] _]; [contradiction|].
  destruct lines; simpl; eexists; reflexivity.
Qed.

Lemma filter_nil_iff {A : Type} (f : A -> bool) (l : list A) :
  List.filter f l = [] <-> Forall (fun x => f x = false) l.
Proof.
  induction l as [|x l IH]; simpl.
  - split; [constructor|reflexivity].
  - destruct (f x) eqn:E.
    + split; [discriminate|]. intros H. apply Forall_inv in H. congruence.
    + rewrite IH. split; [now constructor|apply Forall_inv_tail].
Qed.

Variable cfg : settings.
Variable lib : library.
Variable SYSTEM_PROMPT : str.

(** The flattened transcript is empty exactly when no segment has text:
    segments that are not dicts and segments whose text is blank give no
    line.  Extraction refuses such a transcript, and only such a one,
    with its [RuntimeError]. *)
Theorem flattened_transcript_is_empty_iff_no_text
    (item : dict) (segments : list json) (text : str) :
  lookup_key (lit "transcript") item = Some (JList segments) ->
  flatten_transcript item = Ok text ->
  (text = [] <-> Forall (fun segment => has_text segment = false) segments)
  /\ forall (w : world) (d : disk) (md : option dict),
       0 < MAX_PARALLEL_CHUNKS cfg ->
       (fst (extract_moments cfg lib SYSTEM_PROMPT w d text md) = Raise RuntimeError
        <-> Forall (fun segment => has_text segment = false) segments).
Proof.
  intros Hitem H. unfold flatten_transcript in H. rewrite Hitem in H.
  cbv beta iota delta [bind] in H.
  destruct (flatten_segments segments) as [lines|] eqn:E; [|discriminate].
  injection H as <-.
  destruct (flatten_segments_lines _ _ E) as [Hlen Hall].
  rewrite <- filter_nil_iff.
  assert (Hnil : join [10%N] lines = [] <-> List.filter has_text segments = []).
  { split.
    - intros Hj. destruct lines as [|l ls].
      + destruct (List.filter has_text segments); [reflexivity|discriminate].
      + destruct (join_opens [10%N] (l :: ls) ltac:(discriminate) Hall) as [r Hr].
        congruence.
    - intros Hf. rewrite Hf in Hlen. destruct lines; [reflexivity|discriminate]. }
  split; [exact Hnil|].
  intros w d md Hpool.
    pose proof (extract_moments_outcome cfg lib SYSTEM_PROMPT w d
                  (join [10%N] lines) md Hpool) as Hout.
  rewrite <- filter_nil_iff, <- Hnil. split.
  - intros Hraise. destruct (strip (join [10%N] lines)) as [|c s] eqn:St.
    + destruct lines as [|l ls]; [reflexivity|].
      destruct (join_opens [10%N] (l :: ls) ltac:(discriminate) Hall) as [r Hr].
      rewrite Hr in St. apply strip_empty_iff_blank in St.
      apply Forall_inv in St. discriminate St.
    + destruct Hout as (moments & d' & Hok). rewrite Hok in Hraise. discriminate.
  - intros Hj. rewrite Hj in Hout |- *. simpl in Hout. now rewrite Hout.
Qed.

End TranscriptFacts.

Section TranscriptTimestamps.
Import Py Json Runtime ExportUtils.






End TranscriptTimestamps.

Section TimeExamples.
Import Py Json Config Runtime CacheUtils LlmClient.






(** An item whose segments have no text flattens to the empty
    transcript, which extraction refuses. *)
Lemma flattened_transcript_is_empty_iff_no_text_witness :
  TranscriptUtils.flatten_transcript MoreExamples.silent_item = Ok []
  /\ Forall (fun segment => TranscriptUtils.has_text segment = false)
       MoreExamples.silent_segments
  /\ fst (extract_moments shipped Reference.lib []
            (Reference.world_of Examples.always_answers) Reference.empty_disk [] None)
     = Raise RuntimeError.
Proof.
  destruct (flattened_transcript_is_empty_iff_no_text shipped Reference.lib []
              MoreExamples.silent_item MoreExamples.silent_segments []
              eq_refl eq_refl) as [Hempty Hraise].
  split; [reflexivity|]. split; [now apply Hempty|].
  apply Hraise; [reflexivity|now apply Hempty].
Defined.


End TimeExamples.

(** ** The required settings *)

Section ConfigFacts.
Import Py ConfigInit.

Variable getenv : str -> option str.

(** Reading the three required variables.  The call succeeds exactly
    when the three are set and not empty, and then the three globals hold
    them and the validation passes; otherwise it raises a [RuntimeError]
    (nothing else is raised).  The globals are assigned one by one: a key
    found before the missing one is stored although the call fails, and
    no global is ever cleared, so a configuration that was valid stays
    valid. *)
Theorem initialize_config_all_or_error (st : keys) :
  let after := initialize_config getenv st in
  (snd after = Ok tt
   <-> is_set (getenv (lit "OPENAI_API_KEY")) && is_set (getenv (lit "APIFY_TOKEN"))
       && is_set (getenv (lit "APIFY_ACTOR_ID")) = true)
  /\ (snd after = Ok tt \/ snd after = Raise RuntimeError)
  /\ (snd after = Ok tt ->
      validate_config (fst after) = Ok tt
      /\ fst after = {| OPENAI_API_KEY := getenv (lit "OPENAI_API_KEY");
                        APIFY_TOKEN := getenv (lit "APIFY_TOKEN");
                        APIFY_ACTOR_ID := getenv (lit "APIFY_ACTOR_ID") |})
  /\ (is_set (getenv (lit "OPENAI_API_KEY")) = true ->
      OPENAI_API_KEY (fst after) = getenv (lit "OPENAI_API_KEY"))
  /\ (is_set (getenv (lit "OPENAI_API_KEY")) = false -> fst after = st)
  /\ (validate_config st = Ok tt -> validate_config (fst after) = Ok tt).
Proof.
  cbv zeta. unfold initialize_config, get_required_env, validate_config.
  generalize (lit "OPENAI_API_KEY") (lit "APIFY_TOKEN") (lit "APIFY_ACTOR_ID").
  intros n1 n2 n3. destruct st as [k1 k2 k3].
  destruct (getenv n1) as [[|c1 v1]|]; destruct (getenv n2) as [[|c2 v2]|];
    destruct (getenv n3) as [[|c3 v3]|]; cbn;
    repeat split; auto; try discriminate;
    destruct (is_set k1); try discriminate; destruct (is_set k2); try discriminate;
    auto.
Qed.

End ConfigFacts.

(** ** Cut sheets *)

Section CapsFacts.
Import Py Json Cutsheets.

Lemma lstrip_chars_sub (p : char -> bool) (P : char -> Prop) (s : str) :
  Forall P s -> Forall P (lstrip_chars p s).
Proof.
  induction 1 as [|c s Hc Hs IH]; simpl; [constructor|].
  destruct (p c); [exact IH|now constructor].
Qed.

Lemma strip_chars_sub (p : char -> bool) (P : char -> Prop) (s : str) :
  Forall P s -> Forall P (strip_chars p s).
Proof.
  intros H. unfold strip_chars, rstrip_chars.
  apply Forall_rev, lstrip_chars_sub, Forall_rev, lstrip_chars_sub, H.
Qed.

Lemma lstrip_sub (P : char -> Prop) (s : str) : Forall P s -> Forall P (lstrip s).
Proof.
  induction 1 as [|c s Hc Hs IH]; simpl; [constructor|].
  destruct (isspace c); [exact IH|now constructor].
Qed.

Lemma rstrip_sub (P : char -> Prop) (s : str) : Forall P s -> Forall P (rstrip s).
Proof.
  induction 1 as [|c s Hc Hs IH]; [constructor|].
  rewrite rstrip_cons. destruct (rstrip s).
  - destruct (isspace c); repeat constructor; assumption.
  - now constructor.
Qed.

Lemma strip_sub (P : char -> Prop) (s : str) : Forall P s -> Forall P (strip s).
Proof. intros H. now apply rstrip_sub, lstrip_sub. Qed.

Lemma lstrip_chars_head (p : char -> bool) (s : str) :
  match lstrip_chars p s with
  | [] => True
  | c :: _ => p c = false
  end.
Proof.
  induction s as [|c s IH]; simpl; [exact I|].
  destruct (p c) eqn:E; [exact IH|exact E].
Qed.

Lemma lstrip_chars_fixed (p : char -> bool) (c : char) (s : str) :
  p c = false -> lstrip_chars p (c :: s) = c :: s.
Proof. intros H. simpl. now rewrite H. Qed.

(** Stripping at the right leaves a text that does not end with a
    stripped character, and keeps the first character of a text that
    does not start with one. *)
Lemma rstrip_chars_spec (p : char -> bool) (s : str) :
  match rev (rstrip_chars p s) with
  | [] => True
  | e :: _ => p e = false
  end
  /\ forall c t, s = c :: t -> p c = false -> exists u, rstrip_chars p s = c :: u.
Proof.
  unfold rstrip_chars. rewrite rev_involutive. split; [apply lstrip_chars_head|].
  intros c t -> Hc. simpl rev.
  induction (rev t) as [|x r IH]; simpl.
  - rewrite Hc. now exists [].
  - destruct (p x).
    + exact IH.
    + simpl. rewrite rev_app_distr. simpl. eexists. reflexivity.
Qed.

Lemma rstrip_chars_fixed (p : char -> bool) (s : str) (e : char) (r : str) :
  rev s = e :: r -> p e = false -> rstrip_chars p s = s.
Proof.
  intros Hr He. unfold rstrip_chars. rewrite Hr, lstrip_chars_fixed by exact He.
  now rewrite <- Hr, rev_involutive.
Qed.

Lemma split_on_from_pieces (sep : char) (P : char -> Prop) (s : str) :
  Forall P s ->
  forall cur, Forall P cur ->
    Forall (fun piece => Forall (fun c => c <> sep /\ P c) piece) (split_on_from sep cur s)
    \/ ~ Forall (fun c => c <> sep) cur.
Proof.
  induction 1 as [|c s Hc Hs IH]; intros cur Hcur; simpl.
  - destruct (Forall_dec (fun c => c <> sep)
                (fun c => match N.eq_dec c sep with
                          | left e => right (fun H => H e)
                          | right n => left n
                          end) cur) as [Hok|Hbad]; [left|now right].
    constructor; [|constructor]. apply Forall_rev.
    apply Forall_forall. intros x Hx. split.
    + exact (proj1 (Forall_forall _ _) Hok x Hx).
    + exact (proj1 (Forall_forall _ _) Hcur x Hx).
  - destruct (Forall_dec (fun c => c <> sep)
                (fun c => match N.eq_dec c sep with
                          | left e => right (fun H => H e)
                          | right n => left n
                          end) cur) as [Hok|Hbad]; [left|now right].
    destruct (N.eqb c sep) eqn:E.
    + constructor.
      * apply Forall_rev. apply Forall_forall. intros x Hx. split.
        -- exact (proj1 (Forall_forall _ _) Hok x Hx).
        -- exact (proj1 (Forall_forall _ _) Hcur x Hx).
      * destruct (IH [] ltac:(constructor)) as [H|H]; [exact H|].
        exfalso. apply H. constructor.
    + apply N.eqb_neq in E.
      destruct (IH (c :: cur) ltac:(now constructor)) as [H|H]; [exact H|].
      exfalso. apply H. now constructor.
Qed.

Lemma split_on_pieces (sep : char) (P : char -> Prop) (s : str) :
  Forall P s ->
  Forall (fun piece => Forall (fun c => c <> sep /\ P c) piece) (split_on sep s).
Proof.
  intros H. destruct (split_on_from_pieces sep P s H [] ltac:(constructor)) as [Hp|Hp];
    [exact Hp|]. exfalso. apply Hp. constructor.
Qed.

Lemma filter_no_bracket (s : str) :
  Forall (fun c => bracket c = false) (List.filter (fun c => negb (bracket c)) s).
Proof.
  apply Forall_forall. intros c Hc. apply filter_In in Hc as [_ Hc].
  now apply negb_true_iff.
Qed.

(** The pieces between the commas of a joined list. *)
Lemma split_on_join_comma (ws : list str) :
  Forall (fun w => Forall (fun c => c <> 44%N) w) ws ->
  forall w cur,
    Forall (fun c => c <> 44%N) w ->
    split_on_from 44%N cur (join [44%N; 32%N] (w :: ws))
    = (rev cur ++ w) :: List.map (cons 32%N) ws.
Proof.
  induction 1 as [|w' ws Hw' Hws IH]; intros w cur Hw.
  - simpl join. rewrite <- (app_nil_r w) at 1.
    rewrite (split_on_from_line _ _ Hw). simpl.
    now rewrite rev_app_distr, rev_involutive.
  - change (join [44%N; 32%N] (w :: w' :: ws))
      with (w ++ 44%N :: 32%N :: join [44%N; 32%N] (w' :: ws)).
    rewrite (split_on_from_line _ _ Hw).
    cbn [split_on_from]. change (44 =? 44)%N with true. cbv iota.
    rewrite rev_app_distr, rev_involutive. f_equal.
    cbn [split_on_from]. change (32 =? 44)%N with false. cbv iota.
    exact (IH w' [32%N] Hw').
Qed.

Lemma plain_word_spec (w : str) :
  plain_word w = true ->
  w <> []
  /\ Forall (fun c => c <> 44%N) w
  /\ Forall (fun c => bracket c = false) w
  /\ strip (32%N :: w) = w /\ strip w = w
  /\ strip_chars quote_char w = w.
Proof.
  unfold plain_word. destruct w as [|c t]; [discriminate|].
  destruct (rev (c :: t)) as [|e r] eqn:Hr; [discriminate|].
  intros H. apply andb_prop in H as [H Hall]. apply andb_prop in H as [H Hqe].
  apply andb_prop in H as [H Hse]. apply andb_prop in H as [Hsc Hqc].
  apply negb_true_iff in Hsc, Hqc, Hse, Hqe.
  assert (Hlast : c :: t = rev r ++ [e]).
  { rewrite <- (rev_involutive (c :: t)), Hr. reflexivity. }
  assert (Hstrip : strip (c :: t) = c :: t).
  { unfold strip. rewrite lstrip_nonspace by exact Hsc. rewrite Hlast.
    now apply rstrip_app_nonspace. }
  split; [discriminate|]. split; [|split; [|split; [|split]]].
  - apply Forall_forall. intros x Hx.
    apply (proj1 (forallb_forall _ _) Hall) in Hx. apply andb_prop in Hx as [Hx _].
    apply negb_true_iff in Hx. now apply N.eqb_neq.
  - apply Forall_forall. intros x Hx.
    apply (proj1 (forallb_forall _ _) Hall) in Hx. apply andb_prop in Hx as [_ Hx].
    now apply negb_true_iff.
  - unfold strip. change (lstrip (32%N :: c :: t)) with (lstrip (c :: t)).
    exact Hstrip.
  - exact Hstrip.
  - unfold strip_chars. rewrite lstrip_chars_fixed by exact Hqc.
    now apply (rstrip_chars_fixed _ _ e r).
Qed.

Lemma join_comma_plain (words : list str) :
  Forall (fun w => plain_word w = true) words ->
  Forall (fun c => bracket c = false) (join [44%N; 32%N] words).
Proof.
  induction 1 as [|w ws Hw Hws IH]; [constructor|].
  destruct (plain_word_spec w Hw) as (_ & _ & Hb & _).
  destruct ws as [|w' ws]; [exact Hb|].
  change (join [44%N; 32%N] (w :: w' :: ws))
    with (w ++ 44%N :: 32%N :: join [44%N; 32%N] (w' :: ws)).
  apply Forall_app. split; [exact Hb|]. constructor; [reflexivity|].
  constructor; [reflexivity|exact IH].
Qed.

Lemma filter_all {A : Type} (f : A -> bool) (l : list A) :
  Forall (fun x => f x = true) l -> List.filter f l = l.
Proof.
  induction 1 as [|x l Hx Hl IH]; simpl; [reflexivity|]. now rewrite Hx, IH.
Qed.

(** The words of an emphasis list.  Whatever the text, no word is empty,
    none holds a comma or a bracket, none starts or ends with a quote.
    And a list of plain words joined with a comma and a blank is read
    back as it was. *)
Theorem caps_list_words (caps_text : str) :
  Forall (fun word =>
            word <> []
            /\ Forall (fun c => c <> 44%N /\ bracket c = false) word
            /\ (forall c r, word = c :: r -> quote_char c = false)
            /\ (forall e r, rev word = e :: r -> quote_char e = false))
    (parse_caps_list caps_text)
  /\ forall words,
       Forall (fun w => plain_word w = true) words ->
       parse_caps_list (join [44%N; 32%N] words) = words.
Proof.
  split.
  - unfold parse_caps_list. destruct caps_text as [|c0 t0]; [constructor|].
    set (text := List.filter (fun c => negb (bracket c)) (c0 :: t0)).
    pose proof (split_on_pieces 44%N _ text (filter_no_bracket (c0 :: t0))) as Hp.
    apply Forall_forall. intros w Hw. apply filter_In in Hw as [Hin Hne].
    apply in_map_iff in Hin as (piece & <- & Hpiece).
    apply (proj1 (Forall_forall _ _) Hp) in Hpiece.
    split; [now destruct (strip_chars quote_char (strip piece))|].
    split; [now apply strip_chars_sub, strip_sub|].
    unfold strip_chars in *.
    pose proof (lstrip_chars_head quote_char (strip piece)) as Hhead.
    destruct (rstrip_chars_spec quote_char (lstrip_chars quote_char (strip piece)))
      as [Hlast Hkeep].
    split.
    + intros c r E. destruct (lstrip_chars quote_char (strip piece)) as [|c' t'] eqn:El.
      * unfold rstrip_chars in E. discriminate.
      * destruct (Hkeep c' t' eq_refl Hhead) as [u Hu]. rewrite Hu in E.
        now injection E as <- _.
    + intros e r E.
      change (match e :: r with [] => True | e0 :: _ => quote_char e0 = false end).
      rewrite <- E. exact Hlast.
  - intros words Hwords. destruct words as [|w ws]; [reflexivity|].
    pose proof (join_comma_plain _ Hwords) as Hb.
    apply Forall_cons_iff in Hwords as [Hw Hws].
    destruct (plain_word_spec w Hw) as (Hne & Hc & _ & _ & Hs & Hq).
    unfold parse_caps_list.
    destruct (join [44%N; 32%N] (w :: ws)) as [|c0 t0] eqn:Ej.
    { destruct w; [contradiction|]. destruct ws; discriminate. }
    rewrite (filter_all (fun c => negb (bracket c)) (c0 :: t0))
      by (eapply Forall_impl; [|exact Hb]; intros a Ha; simpl; now rewrite Ha).
    rewrite <- Ej. unfold split_on. rewrite split_on_join_comma; [| |exact Hc].
    2:{ eapply Forall_impl; [|exact Hws]. intros a Ha.
        now destruct (plain_word_spec a Ha) as (_ & H & _). }
    cbn [rev app List.map]. rewrite Hs, Hq. cbn [List.filter].
    destruct w as [|c t]; [contradiction|]. f_equal.
    rewrite List.map_map. clear -Hws.
    induction Hws as [|a ws Ha Hws IH]; [reflexivity|].
    destruct (plain_word_spec a Ha) as (Hne & _ & _ & Hs & _ & Hq).
    cbn [List.map List.filter]. rewrite Hs, Hq.
    destruct a as [|c t]; [contradiction|]. now rewrite IH.
Qed.

End CapsFacts.

Section CutsheetFacts.
Import Py Json Cutsheets.

Variable str_lower : str -> str.
Variable create_fallback_cut_sheet : dict -> result json.

Lemma contains_keys (k : str) (d d' : dict) :
  List.map fst d = List.map fst d' -> contains k d = contains k d'.
Proof.
  revert d'. unfold contains.
  induction d as [|[k0 v0] d IH]; intros [|[k1 v1] d'] H; try discriminate;
    [reflexivity|].
  simpl in H. injection H as -> H. simpl.
  destruct (str_eqb k k1); [reflexivity|]. now apply IH.
Qed.

Lemma set_present_keys (k : str) (v : json) (d : dict) :
  contains k d = true -> List.map fst (set k v d) = List.map fst d.
Proof.
  unfold contains. induction d as [|[k0 v0] d IH]; simpl; [discriminate|].
  destruct (str_eqb k k0) eqn:E; [reflexivity|].
  intros H. simpl. now rewrite IH.
Qed.

Lemma set_present_typed (k : str) (v : json) (d : dict) :
  contains k d = true -> field_typed (k, v) -> Forall field_typed d ->
  Forall field_typed (set k v d).
Proof.
  unfold contains. intros Hc Hv Hd. induction Hd as [|[k0 v0] d H0 Hd IH];
    simpl in *; [discriminate|].
  destruct (str_eqb k k0) eqn:E.
  - apply str_eqb_eq in E. subst k0. now constructor.
  - constructor; [exact H0|]. now apply IH.
Qed.

Lemma text_field_known (name : str) :
  existsb (str_eqb name) text_fields = true ->
  contains name default_cut_sheet = true
  /\ str_eqb name k_emphasis_words_caps = false.
Proof.
  intros H. apply existsb_exists in H as (k & Hin & Hk).
  apply str_eqb_eq in Hk. subst k.
  unfold text_fields in Hin. simpl in Hin.
  repeat (destruct Hin as [<-|Hin]; [split; reflexivity|]). contradiction.
Qed.

Lemma assign_field_shape (name value : str) (d : dict) :
  sheet_shape d -> sheet_shape (assign_field name value d).
Proof.
  intros [Hkeys Htyped]. unfold assign_field.
  destruct (existsb (str_eqb name) text_fields) eqn:E.
  - destruct (text_field_known name E) as [Hc Hn].
    rewrite <- (contains_keys name d _ Hkeys) in Hc. split.
    + now rewrite set_present_keys.
    + apply set_present_typed; [exact Hc| |exact Htyped].
      unfold field_typed. cbn [fst snd]. rewrite Hn. now exists value.
  - destruct (str_eqb name k_emphasis_words_caps) eqn:En; [|now split].
    assert (Hc : contains k_emphasis_words_caps d = true).
    { rewrite (contains_keys _ d _ Hkeys). reflexivity. }
    split.
    + now rewrite set_present_keys.
    + apply set_present_typed; [exact Hc| |exact Htyped].
      unfold field_typed. cbn [fst snd]. rewrite str_eqb_refl. now eexists.
Qed.

Lemma default_cut_sheet_shape : sheet_shape default_cut_sheet.
Proof.
  split; [reflexivity|].
  unfold default_cut_sheet.
  repeat (constructor; [unfold field_typed; cbn [fst snd];
                        first [now exists [] | eexists; reflexivity]|]).
  constructor.
Qed.

Lemma parse_lines_shape (lines : list str) :
  forall in_section d,
    sheet_shape d -> sheet_shape (parse_lines str_lower lines in_section d).
Proof.
  induction lines as [|line rest IH]; intros in_section d Hd; cbn [parse_lines];
    [exact Hd|].
  destruct (strip line) as [|c t]; [now apply IH|].
  destruct (contains_text section_marker (str_lower (c :: t))); [now apply IH|].
  destruct (in_section && existsb (N.eqb 45) (c :: t)); [|now apply IH].
  destruct (extract_field_value str_lower (c :: t)) as [name value].
  apply IH. now apply assign_field_shape.
Qed.

Lemma shape_lookup (d : dict) (k : str) :
  sheet_shape d -> contains k default_cut_sheet = true ->
  exists v, lookup_key k d = Some v /\ field_typed (k, v).
Proof.
  intros [Hkeys Htyped] Hc. rewrite <- (contains_keys k d _ Hkeys) in Hc.
  clear Hkeys. unfold contains in Hc.
  induction Htyped as [|[k0 v0] d H0 Hd IH]; simpl in *; [discriminate|].
  destruct (str_eqb k k0) eqn:E.
  - apply str_eqb_eq in E. subst k0. now exists v0.
  - now apply IH.
Qed.

Lemma parse_single_shape (block_text : str) :
  sheet_shape (parse_single_cut_sheet_block str_lower block_text).
Proof. apply parse_lines_shape, default_cut_sheet_shape. Qed.

Lemma parse_single_truthy (block_text : str) :
  truthy (JDict (parse_single_cut_sheet_block str_lower block_text)) = true.
Proof.
  destruct (parse_single_shape block_text) as [Hkeys _].
  now destruct (parse_single_cut_sheet_block str_lower block_text).
Qed.

(** The sheet read from a block, whatever the block is: it has the
    fifteen fields of the template, in the order of the template; the
    emphasis words are a list of strings and every other field is a
    string; so the sheet is never empty. *)
Theorem cut_sheet_always_has_its_fields (block_text : str) :
  let cut_sheet := parse_single_cut_sheet_block str_lower block_text in
  List.map fst cut_sheet = List.map fst default_cut_sheet
  /\ (forall k, In k text_fields -> exists s, lookup_key k cut_sheet = Some (JStr s))
  /\ (exists words,
        lookup_key k_emphasis_words_caps cut_sheet = Some (JList (List.map JStr words)))
  /\ truthy (JDict cut_sheet) = true.
Proof.
  cbv zeta.
  pose proof (parse_single_shape block_text) as Hshape.
  split; [exact (proj1 Hshape)|]. split; [|split].
  - intros k Hin.
    assert (Hk : existsb (str_eqb k) text_fields = true).
    { apply existsb_exists. exists k. split; [exact Hin|apply str_eqb_refl]. }
    destruct (text_field_known k Hk) as [Hc Hn].
    destruct (shape_lookup _ k Hshape Hc) as (v & Hv & Ht).
    unfold field_typed in Ht. cbn [fst snd] in Ht. rewrite Hn in Ht.
    destruct Ht as [s ->]. now exists s.
  - destruct (shape_lookup _ k_emphasis_words_caps Hshape eq_refl) as (v & Hv & Ht).
    unfold field_typed in Ht. cbn [fst snd] in Ht. rewrite str_eqb_refl in Ht.
    destruct Ht as [words ->]. now exists words.
  - apply parse_single_truthy.
Qed.

(** *** Lines before the section *)

Lemma split_on_from_app (sep : char) (a b : str) :
  forall cur,
    split_on_from sep cur (a ++ sep :: b)
    = split_on_from sep cur a ++ split_on_from sep [] b.
Proof.
  induction a as [|c a IH]; intros cur; simpl.
  - now rewrite N.eqb_refl.
  - destruct (N.eqb c sep); simpl; now rewrite IH.
Qed.

Lemma parse_lines_app (l1 l2 : list str) :
  forall in_section d,
    Forall (fun line => opens_section str_lower line = false) l1 ->
    in_section = false ->
    parse_lines str_lower (l1 ++ l2) in_section d = parse_lines str_lower l2 false d.
Proof.
  induction l1 as [|line l1 IH]; intros in_section d Hl ->; [reflexivity|].
  apply Forall_cons_iff in Hl as [Hline Hl]. unfold opens_section in Hline.
  cbn [app parse_lines]. destruct (strip line) as [|c t]; [now apply IH|].
  rewrite Hline. cbn [andb]. now apply IH.
Qed.

(** Nothing is read before the section opens.  The lines of a block that
    come before the first line holding [editor cut sheet] leave the sheet
    as it is, whatever fields they name: a block without such a line
    gives the template, and lines put before a block change nothing. *)
Theorem lines_before_the_section_are_ignored (before rest : str) :
  Forall (fun line => opens_section str_lower line = false) (split_on 10%N before) ->
  parse_single_cut_sheet_block str_lower before = default_cut_sheet
  /\ parse_single_cut_sheet_block str_lower (before ++ [10%N] ++ rest)
     = parse_single_cut_sheet_block str_lower rest.
Proof.
  intros H. unfold parse_single_cut_sheet_block, split_on. split.
  - rewrite <- (app_nil_r (split_on_from 10%N [] before)).
    now rewrite parse_lines_app.
  - cbn [app]. rewrite split_on_from_app. now rewrite parse_lines_app.
Qed.

(** *** The response *)

Lemma split_blocks_from_nonempty (s : str) :
  forall skipping cur, split_blocks_from skipping cur s <> [].
Proof.
  induction s as [|c s IH]; intros skipping cur; simpl; [discriminate|].
  destruct (skipping && isspace c); [apply IH|].
  destruct ((c =? 10)%N && at_header (lstrip s)); [discriminate|apply IH].
Qed.

Lemma contains_set_same (k : str) (v : json) (d : dict) :
  contains k (set k v d) = true.
Proof. unfold contains. now rewrite lookup_key_set, str_eqb_refl. Qed.

Lemma merge_blocks_enough (moments : list dict) :
  forall blocks,
    (List.length moments <= List.length blocks)%nat ->
    merge_blocks str_lower create_fallback_cut_sheet blocks moments
    = Ok (List.map (fun bm => with_sheet str_lower (fst bm) (snd bm))
            (combine blocks moments)).
Proof.
  induction moments as [|moment rest IH]; intros blocks Hlen.
  - now destruct blocks.
  - destruct blocks as [|block blocks]; [simpl in Hlen; lia|].
    cbn [merge_blocks List.tl combine List.map fst snd].
    rewrite parse_single_truthy. fold (with_sheet str_lower block moment).
    unfold with_sheet at 1. rewrite contains_set_same. cbn [bind].
    rewrite IH by (simpl in Hlen; lia). reflexivity.
Qed.

Lemma merge_blocks_frame (moments : list dict) :
  forall blocks updated,
    merge_blocks str_lower create_fallback_cut_sheet blocks moments = Ok updated ->
    Forall2 (fun moment updated_moment =>
               contains ExportUtils.k_editor_cut_sheet updated_moment = true
               /\ forall k, k <> ExportUtils.k_editor_cut_sheet ->
                            lookup_key k updated_moment = lookup_key k moment)
      moments updated.
Proof.
  induction moments as [|moment rest IH]; intros blocks updated.
  - intros [= <-]. constructor.
  - cbn [merge_blocks].
    set (first := match blocks with
                  | block :: _ =>
                      if truthy (JDict (parse_single_cut_sheet_block str_lower block))
                      then set ExportUtils.k_editor_cut_sheet
                             (JDict (parse_single_cut_sheet_block str_lower block)) moment
                      else moment
                  | [] => moment
                  end).
    assert (Hfirst : forall k, k <> ExportUtils.k_editor_cut_sheet ->
                               lookup_key k first = lookup_key k moment).
    { intros k Hk. subst first. destruct blocks as [|block blocks]; [reflexivity|].
      destruct (truthy _); [|reflexivity].
      rewrite lookup_key_set. apply str_eqb_neq in Hk. now rewrite Hk. }
    destruct (contains ExportUtils.k_editor_cut_sheet first) eqn:Hc.
    + cbn [bind].
      destruct (merge_blocks str_lower create_fallback_cut_sheet (List.tl blocks) rest)
        as [more|e] eqn:Hm; [|discriminate].
      cbn [bind]. intros [= <-]. constructor; [now split|]. now apply (IH (List.tl blocks)).
    + destruct (create_fallback_cut_sheet moment) as [fallback|e]; [|discriminate].
      cbn [bind].
      destruct (merge_blocks str_lower create_fallback_cut_sheet (List.tl blocks) rest)
        as [more|e] eqn:Hm; [|discriminate].
      cbn [bind]. intros [= <-]. constructor; [|now apply (IH (List.tl blocks))].
      split; [apply contains_set_same|].
      intros k Hk. rewrite lookup_key_set. pose proof Hk as Hk'.
      apply str_eqb_neq in Hk'. rewrite Hk'. now apply Hfirst.
Qed.

(** The response and the moments.  Splitting the response always gives a
    first block, and a sheet read from a block is never empty: so when
    the response has a block for each moment, each moment gets the sheet
    of its block in place of whatever sheet it had, the fallback plays no
    part and nothing is raised, however little the blocks hold.  In every
    case a returned moment has a sheet and its other fields are those of
    the moment it was made from. *)
Theorem cut_sheets_follow_the_blocks (response_text : str) (original_moments : list dict) :
  let blocks := split_blocks response_text in
  blocks <> []
  /\ ((List.length original_moments <= List.length blocks)%nat ->
      parse_cut_sheet_response str_lower create_fallback_cut_sheet
        response_text original_moments
      = Ok (List.map (fun bm => with_sheet str_lower (fst bm) (snd bm))
              (combine blocks original_moments)))
  /\ (forall updated_moments,
        parse_cut_sheet_response str_lower create_fallback_cut_sheet
          response_text original_moments = Ok updated_moments ->
        Forall2 (fun moment updated_moment =>
                   contains ExportUtils.k_editor_cut_sheet updated_moment = true
                   /\ forall k, k <> ExportUtils.k_editor_cut_sheet ->
                                lookup_key k updated_moment = lookup_key k moment)
          original_moments updated_moments).
Proof.
  cbv zeta. split; [apply split_blocks_from_nonempty|]. split.
  - apply merge_blocks_enough.
  - apply merge_blocks_frame.
Qed.

End CutsheetFacts.

Section CutsheetExamples.
Import Py Json Config Runtime Cutsheets.

(** With the three keys in the environment the call succeeds and the
    validation passes; with an empty token it fails after the first key
    has been stored. *)
Lemma initialize_config_all_or_error_witness :
  snd (ConfigInit.initialize_config MoreExamples.full_environment ConfigInit.unset) = Ok tt
  /\ ConfigInit.validate_config
       (fst (ConfigInit.initialize_config MoreExamples.full_environment ConfigInit.unset))
     = Ok tt
  /\ snd (ConfigInit.initialize_config MoreExamples.no_token ConfigInit.unset)
     = Raise RuntimeError
  /\ ConfigInit.OPENAI_API_KEY (ConfigInit.imported MoreExamples.no_token)
     = Some (lit "sk-test").
Proof.
  destruct (initialize_config_all_or_error MoreExamples.full_environment ConfigInit.unset)
    as (Hiff & _ & Hok & _).
  destruct (initialize_config_all_or_error MoreExamples.no_token ConfigInit.unset)
    as (Hiff' & Hraise & _ & Hfirst & _).
  assert (H : snd (ConfigInit.initialize_config MoreExamples.full_environment
                     ConfigInit.unset) = Ok tt) by (apply Hiff; reflexivity).
  split; [exact H|]. split; [exact (proj1 (Hok H))|]. split.
  - destruct Hraise as [Hr|Hr]; [|exact Hr].
    apply Hiff' in Hr. vm_compute in Hr. discriminate.
  - exact (Hfirst eq_refl).
Defined.

(** Three words, written with commas and read back. *)
Lemma caps_list_words_witness :
  parse_caps_list (lit "GOD, HOLY MASS, NOW") = MoreExamples.emphasis_words.
Proof.
  apply (proj2 (caps_list_words []) MoreExamples.emphasis_words).
  repeat constructor.
Defined.

(** The fields named in the header of a block are not read: the sheet is
    the one of the section alone. *)
Lemma lines_before_the_section_are_ignored_witness :
  parse_single_cut_sheet_block MoreExamples.ascii_lower MoreExamples.block_preamble
  = default_cut_sheet
  /\ parse_single_cut_sheet_block MoreExamples.ascii_lower
       (MoreExamples.block_preamble ++ [10%N] ++ MoreExamples.block_section)
     = parse_single_cut_sheet_block MoreExamples.ascii_lower MoreExamples.block_section
  /\ lookup_key (lit "clip_label")
       (parse_single_cut_sheet_block MoreExamples.ascii_lower MoreExamples.block_section)
     = Some (JStr (lit "LATE"))
  /\ lookup_key (lit "in_point")
       (parse_single_cut_sheet_block MoreExamples.ascii_lower MoreExamples.block_section)
     = Some (JStr (lit "00:01.00")).
Proof.
  destruct (lines_before_the_section_are_ignored MoreExamples.ascii_lower
              MoreExamples.block_preamble MoreExamples.block_section) as [H1 H2].
  - vm_compute. repeat constructor.
  - split; [exact H1|]. split; [exact H2|]. split; vm_compute; reflexivity.
Defined.

(** Two blocks for two moments, with a fallback that would fail: the
    first moment gets the sheet of its block, the second the template in
    place of the sheet it had. *)
Lemma cut_sheets_follow_the_blocks_witness :
  exists first second,
    parse_cut_sheet_response MoreExamples.ascii_lower MoreExamples.no_fallback
      MoreExamples.two_blocks [MoreExamples.plain_moment; MoreExamples.moment_with_sheet]
    = Ok [first; second]
    /\ get (lit "in_point") JNull
         (match get ExportUtils.k_editor_cut_sheet JNull first with
          | JDict sheet => sheet
          | _ => []
          end) = JStr (lit "00:01.00")
    /\ get ExportUtils.k_editor_cut_sheet JNull second = JDict default_cut_sheet
    /\ lookup_key (lit "quote") second = Some (JStr (lit "second")).
Proof.
  destruct (cut_sheets_follow_the_blocks MoreExamples.ascii_lower MoreExamples.no_fallback
              MoreExamples.two_blocks
              [MoreExamples.plain_moment; MoreExamples.moment_with_sheet])
    as (_ & Henough & Hframe).
  eexists. eexists. split.
  - rewrite Henough by (vm_compute; lia). vm_compute. reflexivity.
  - split; [vm_compute; reflexivity|]. split; vm_compute; reflexivity.
Defined.

End CutsheetExamples.

(** ** Runs of the examples *)

Section StoredFileExample.
Import Py Json Config Runtime CacheUtils.
Import stdpp.gmap.
Local Open Scope Z_scope.


End StoredFileExample.

Section RunExamples.
Import Py Json Config Runtime LlmClient.

(** No chunk for the empty transcript; at most two for two lines. *)
Lemma chunk_count_bounds_witness :
  chunk_transcript shipped [] = []
  /\ (List.length (chunk_transcript Examples.small_chunks Examples.two_lines) <= 2)%nat.
Proof.
  split.
  - now apply (proj1 (chunk_count_bounds shipped [])).
  - exact (proj2 (chunk_count_bounds Examples.small_chunks Examples.two_lines)).
Defined.

(** The two records of the subtitle file. *)
Lemma srt_clips_are_numbered_in_sequence_witness :
  List.map ExportUtils.index_of (SrtExport.srt_clips isdigit MoreExamples.srt_file)
  = [Some (JInt 1); Some (JInt 2)]
  /\ List.map SrtExport.label_of (SrtExport.srt_clips isdigit MoreExamples.srt_file)
     = [Some (JStr (lit "SRT_CLIP_1")); Some (JStr (lit "SRT_CLIP_2"))].
Proof.
  destruct (srt_clips_are_numbered_in_sequence isdigit MoreExamples.srt_file)
    as (Hidx & Hlabel & _).
  rewrite Hidx, Hlabel. split; vm_compute; reflexivity.
Defined.

(** The subtitle file, exported and cut: two requests, two files. *)
Lemma cut_requests_are_well_formed_witness :
  let run_ := Clipping.cut_from_ffmpeg_json loads Reference.dumps CacheUtils.path_join
                (fun _ => true) (fun _ => true)
                (lit "talk.mp4") MoreExamples.srt_json (lit "clips") in
  snd run_ = Clipping.Done [lit "clips/01_SRT_CLIP_1.mp4"; lit "clips/02_SRT_CLIP_2.mp4"]
  /\ List.map Clipping.output (fst run_)
     = [lit "clips/01_SRT_CLIP_1.mp4"; lit "clips/02_SRT_CLIP_2.mp4"]
  /\ Forall (fun call => (0 <= Clipping.ss call)%Q /\ (0 <= Clipping.t call)%Q) (fst run_).
Proof.
  intros run_.
  destruct (cut_requests_are_well_formed loads Reference.dumps CacheUtils.path_join
              (fun _ => true) (fun _ => true)
              (lit "talk.mp4") MoreExamples.srt_json (lit "clips")) as [Hpos Hout].
  fold run_ in Hpos, Hout.
  assert (Hrun : snd run_ = Clipping.Done [lit "clips/01_SRT_CLIP_1.mp4";
                                           lit "clips/02_SRT_CLIP_2.mp4"])
    by (vm_compute; reflexivity).
  split; [exact Hrun|]. split; [|exact Hpos].
  symmetry. exact (proj1 (Hout _ Hrun)).
Defined.

(** The sheet of the example block holds its in-point as a string. *)
Lemma cut_sheet_always_has_its_fields_witness :
  exists s,
    lookup_key (lit "in_point")
      (Cutsheets.parse_single_cut_sheet_block MoreExamples.ascii_lower
         MoreExamples.block_section) = Some (JStr s).
Proof.
  apply (proj1 (proj2 (cut_sheet_always_has_its_fields MoreExamples.ascii_lower
                         MoreExamples.block_section))).
  unfold Cutsheets.text_fields. right. left. reflexivity.
Defined.

End RunExamples.

Section CutsheetExport.
Import Py Json Cutsheets.

Variable str_lower : str -> str.

Lemma parse_single_no_section (block_text : str) :
  Forall (fun line => opens_section str_lower line = false) (split_on 10%N block_text) ->
  parse_single_cut_sheet_block str_lower block_text = default_cut_sheet.
Proof.
  intros H. unfold parse_single_cut_sheet_block.
  rewrite <- (app_nil_r (split_on 10%N block_text)).
  now rewrite parse_lines_app.
Qed.

Lemma clip_of_moment_reads (idx : nat) (moment moment' : dict) :
  ExportUtils.or_else (get ExportUtils.k_editor_cut_sheet JNull moment') (JDict [])
  = ExportUtils.or_else (get ExportUtils.k_editor_cut_sheet JNull moment) (JDict []) ->
  get ExportUtils.k_timestamps JNull moment' = get ExportUtils.k_timestamps JNull moment ->
  get ExportUtils.k_clip_duration_seconds JNull moment'
  = get ExportUtils.k_clip_duration_seconds JNull moment ->
  ExportUtils.clip_of_moment idx moment' = ExportUtils.clip_of_moment idx moment.
Proof.
  intros H1 H2 H3. unfold ExportUtils.clip_of_moment. now rewrite H1, H2, H3.
Qed.

(** From the cut sheets to the export.  A block in which no cut sheet
    section opens gives the template, and the export treats a moment with
    the template as it treats a moment with an empty sheet: its label is
    [CLIP_] and its number, its start and its end come from its
    timestamps or its duration.  For a moment that had no sheet, such a
    block changes nothing in what is exported. *)
Theorem template_sheet_exports_as_no_sheet (idx : nat) (moment : dict) (block : str) :
  Forall (fun line => opens_section str_lower line = false) (split_on 10%N block) ->
  ExportUtils.clip_of_moment idx (with_sheet str_lower block moment)
  = ExportUtils.clip_of_moment idx (set ExportUtils.k_editor_cut_sheet (JDict []) moment)
  /\ (contains ExportUtils.k_editor_cut_sheet moment = false ->
      ExportUtils.clip_of_moment idx (with_sheet str_lower block moment)
      = ExportUtils.clip_of_moment idx moment).
Proof.
  intros H. unfold with_sheet. rewrite (parse_single_no_section block H).
  assert (Hts : forall v, get ExportUtils.k_timestamps JNull
                            (set ExportUtils.k_editor_cut_sheet v moment)
                          = get ExportUtils.k_timestamps JNull moment).
  { intros v. unfold get. now rewrite lookup_key_set. }
  assert (Hd : forall v, get ExportUtils.k_clip_duration_seconds JNull
                           (set ExportUtils.k_editor_cut_sheet v moment)
                         = get ExportUtils.k_clip_duration_seconds JNull moment).
  { intros v. unfold get. now rewrite lookup_key_set. }
  assert (Hs : forall v, get ExportUtils.k_editor_cut_sheet JNull
                           (set ExportUtils.k_editor_cut_sheet v moment) = v).
  { intros v. unfold get. now rewrite lookup_key_set, str_eqb_refl. }
  assert (Hsame : ExportUtils.clip_of_moment idx
                    (set ExportUtils.k_editor_cut_sheet (JDict default_cut_sheet) moment)
                  = ExportUtils.clip_of_moment idx
                      (set ExportUtils.k_editor_cut_sheet (JDict []) moment)).
  { unfold ExportUtils.clip_of_moment. rewrite !Hs, !Hts, !Hd. reflexivity. }
  split; [exact Hsame|].
  intros Hno. rewrite Hsame. apply clip_of_moment_reads.
  - rewrite Hs. unfold get, contains in *.
    destruct (lookup_key ExportUtils.k_editor_cut_sheet moment); [discriminate|].
    reflexivity.
  - apply Hts.
  - apply Hd.
Qed.

End CutsheetExport.

Section CutsheetExportExamples.
Import Py Json Cutsheets.

(** A moment with timestamps and a duration, and the header of a block:
    the export gives the record it gave without the block. *)
Lemma template_sheet_exports_as_no_sheet_witness :
  ExportUtils.clip_of_moment 1
    (with_sheet MoreExamples.ascii_lower MoreExamples.block_preamble Examples.timed_moment)
  = ExportUtils.clip_of_moment 1 Examples.timed_moment
  /\ ExportUtils.clip_of_moment 1 Examples.timed_moment
     = Ok (Some (ExportUtils.clip_record 1 (JStr (lit "CLIP_1"))
                   (lit "00:00:01.00") (lit "00:00:08.00"))).
Proof.
  split; [|vm_compute; reflexivity].
  apply (proj2 (template_sheet_exports_as_no_sheet MoreExamples.ascii_lower 1
                  Examples.timed_moment MoreExamples.block_preamble
                  ltac:(vm_compute; repeat constructor))).
  reflexivity.
Defined.

End CutsheetExportExamples.
